(** * Tautulli database layer (plexpy/database.py): a shallow embedding

    The module is a thin layer over one SQLite connection: a retrying
    executor ([action]), a query facade ([select], [select_single],
    [upsert]), history deletion, table clearing, backup with retention
    sweep, and the merge/overwrite import of a second database file.

    The Python code is embedded as functions of a state-and-exception
    monad over a [world]: the database file, the connection in use, the
    backup folder, the notification queue and a trace of effects.  The
    SQLite engine is not part of the module; it is modelled by [engine],
    an interpreter for exactly the statement shapes the module issues. *)

From Stdlib Require Import ZArith List String Ascii Bool Arith Lia DecimalString.
Import ListNotations.
Local Open Scope string_scope.
Local Open Scope list_scope.

Set Implicit Arguments.

(** ** Values, rows and tables *)

(** SQL scalars: NULL, integers and text.  The statements of this module
    hold no floating point number and no blob; one that a caller binds is
    outside the model.  An integer is held against the 64 bits of SQLite
    when it is bound ([refused], below).  Columns carry no type affinity:
    a value is stored and compared as it was bound, which is what SQLite
    does whatever the column for the values that the properties call
    plain ([plain_value]). *)
Inductive value : Type :=
| VNull
| VInt (z : Z)
| VText (s : string).

Definition value_eqb (a b : value) : bool :=
  match a, b with
  | VNull, VNull => true
  | VInt x, VInt y => Z.eqb x y
  | VText s, VText t => String.eqb s t
  | _, _ => false
  end.

(** SQL [a = b]: unknown ([None]) as soon as one side is NULL. *)
Definition sql_eq (a b : value) : option bool :=
  match a, b with
  | VNull, _ | _, VNull => None
  | VInt x, VInt y => Some (Z.eqb x y)
  | VText s, VText t => Some (String.eqb s t)
  | _, _ => Some false
  end.

(** A WHERE clause keeps a row only when its condition is true. *)
Definition sql_true (o : option bool) : bool :=
  match o with Some true => true | _ => false end.

(** SQL ordering of non-NULL values: integers sort before text. *)
Definition value_ltb (a b : value) : bool :=
  match a, b with
  | VInt x, VInt y => Z.ltb x y
  | VInt _, VText _ => true
  | VText s, VText t => String.ltb s t
  | _, _ => false
  end.

(** SQL [a > b] in a WHERE clause. *)
Definition sql_gt (a b : value) : bool := value_ltb b a.

(** SQL [a + b] on integers; NULL otherwise. *)
Definition sql_add (a b : value) : value :=
  match a, b with
  | VInt x, VInt y => VInt (x + y)
  | _, _ => VNull
  end.

(** SQL [x IN (s)], three-valued. *)
Definition sql_in (x : value) (s : list value) : option bool :=
  if existsb (fun y => sql_true (sql_eq x y)) s then Some true
  else match s with
       | [] => Some false
       | _ => if existsb (fun y => match sql_eq x y with None => true | _ => false end) s
              then None else Some false
       end.

Definition sql_not (o : option bool) : option bool :=
  match o with Some b => Some (negb b) | None => None end.

(** Rows are the dictionaries built by [dict_factory]: column name to
    value, in the order of the statement's result columns. *)
Definition row : Type := list (string * value).

Fixpoint lookup (A : Type) (k : string) (l : list (string * A)) : option A :=
  match l with
  | [] => None
  | (k', v) :: rest => if String.eqb k' k then Some v else lookup k rest
  end.

(** Column access inside the engine (the column is known to exist). *)
Definition get (c : string) (r : row) : value :=
  match lookup c r with Some v => v | None => VNull end.

Definition set (c : string) (v : value) (r : row) : row :=
  map (fun kv => if String.eqb (fst kv) c then (c, v) else kv) r.

Definition mem (c : string) (l : list string) : bool :=
  existsb (String.eqb c) l.

Fixpoint assoc_set (A : Type) (k : string) (v : A) (l : list (string * A))
  : list (string * A) :=
  match l with
  | [] => [(k, v)]
  | (k', v') :: rest =>
      if String.eqb k' k then (k, v) :: rest else (k', v') :: assoc_set k v rest
  end.

Definition assoc_del (A : Type) (k : string) (l : list (string * A))
  : list (string * A) :=
  filter (fun kv => negb (String.eqb (fst kv) k)) l.

(** A table of the schema: every table of the application is a rowid
    table whose INTEGER PRIMARY KEY column ([t_pk], [id] in the schema) is
    one of its columns; [t_autoinc] marks AUTOINCREMENT; [t_unique] lists
    the UNIQUE constraints; [t_rows] is the table in scan order. *)
Record table : Type := mkTable {
  t_cols : list string;
  t_pk : string;
  t_autoinc : bool;
  t_unique : list (list string);
  t_rows : list row
}.

Definition with_rows (t : table) (rows : list row) : table :=
  mkTable (t_cols t) (t_pk t) (t_autoinc t) (t_unique t) rows.

(** A database file: its tables in [sqlite_master] order and the content
    of [sqlite_sequence] (table name to highest id handed out). *)
Record database : Type := mkDb {
  tables : list (string * table);
  sequence : list (string * Z)
}.

Definition empty_db : database := mkDb [] [].

Definition find_table (name : string) (d : database) : option table :=
  lookup name (tables d).

Definition seq_of (name : string) (d : database) : Z :=
  match lookup name (sequence d) with Some n => n | None => 0%Z end.

Definition put_table (name : string) (t : table) (d : database) : database :=
  mkDb (assoc_set name t (tables d)) (sequence d).

Definition put_seq (name : string) (n : Z) (d : database) : database :=
  mkDb (tables d) (assoc_set name n (sequence d)).

(** ** Python exceptions *)

Inductive exn : Type :=
| OperationalError (msg : string)   (* sqlite3.OperationalError *)
| IntegrityError (msg : string)     (* sqlite3.IntegrityError *)
| DatabaseError (msg : string)      (* any other sqlite3.DatabaseError *)
| KeyError (key : string)
| AttributeError
| TypeError
| ValueError
| OSError (msg : string)
| OverflowError.                    (* an int that does not fit SQLite's INTEGER *)

(** [except sqlite3.DatabaseError]: the class and its subclasses. *)
Definition is_DatabaseError (e : exn) : bool :=
  match e with
  | OperationalError _ | IntegrityError _ | DatabaseError _ => true
  | _ => false
  end.

Inductive result (A : Type) : Type :=
| Ret (a : A)
| Raise (e : exn).
Arguments Ret {A} a.
Arguments Raise {A} e.

(** ** The statements of the module

    One constructor per SQL text that database.py sends to the engine;
    the bound arguments are the constructor's arguments. *)
Inductive stmt : Type :=
| SPragma (name : string)
    (* PRAGMA synchronous / journal_mode / cache_size = ... *)
| SBeginImmediate
    (* BEGIN IMMEDIATE *)
| SAttach (path : string)
    (* ATTACH ? AS import_db *)
| SDetach
    (* DETACH import_db *)
| SSelectSeq (name : string)
    (* SELECT seq FROM sqlite_sequence WHERE name = 'session_history' *)
| SCreateTemp
    (* CREATE TABLE IF NOT EXISTS temp (id INTEGER PRIMARY KEY, old_id, new_id) *)
| SInsertTempOldIds
    (* INSERT INTO temp (old_id) SELECT id FROM import_db.session_history *)
| SUpdateTempNewId (seq : value)
    (* UPDATE temp SET new_id = id + ? *)
| SSelectTables
    (* SELECT name FROM import_db.sqlite_master
       WHERE type = 'table' AND name NOT LIKE 'sqlite_%' *)
| SDeleteAll (t : string)
    (* DELETE FROM {table} *)
| SDeleteSeq (t : string)
    (* DELETE FROM sqlite_sequence WHERE name = ? *)
| STableInfo (t : string)
    (* PRAGMA import_db.table_info({table}) *)
| SInsertOrIgnoreImport (t : string) (cols : list string)
    (* INSERT OR IGNORE INTO {table} ({columns})
       SELECT {columns} FROM import_db.{table} *)
| SReindexReference (seq : value)
    (* UPDATE session_history SET reference_id =
         (SELECT new_id FROM temp WHERE old_id = reference_id) WHERE id > ? *)
| SDeleteTempKept (cols : list string)
    (* DELETE FROM temp WHERE new_id IN
         (SELECT MIN(id) FROM session_history GROUP BY {columns}) *)
| SDeleteIdInTemp (t : string)
    (* DELETE FROM {table} WHERE id IN (SELECT new_id FROM temp) *)
| SDeleteDuplicates (t : string) (cols : list string)
    (* DELETE FROM {table} WHERE id NOT IN
         (SELECT MIN(id) FROM {table} GROUP BY {columns}) *)
| SDropTemp
    (* DROP TABLE temp *)
| SVacuum
    (* VACUUM *)
| SIntegrityCheck
    (* PRAGMA integrity_check *)
| SUpdate (t : string) (value_dict key_dict : row)
    (* UPDATE t SET v1 = ?, ... WHERE k1 = ? AND ... *)
| SInsert (t : string) (fields : row)
    (* INSERT INTO t (c1, ...) VALUES (?, ...) *)
| SSelectIdsByUser (user_id : value)
    (* SELECT id FROM session_history WHERE user_id = ? *)
| SSelectIdsBySection (section_id : value)
    (* SELECT session_history.id FROM session_history
       JOIN session_history_metadata
         ON session_history.id = session_history_metadata.id
       WHERE session_history_metadata.section_id = ? *)
| SDeleteIdIn (t : string) (ids : list value).
    (* DELETE FROM t WHERE id IN (?, ..., ?) *)

(** ** The engine: what SQLite does with each statement

    Scope of the model.  A table name without schema prefix is looked up
    in the main database only (SQLite would go on to the attached
    database when main has no such table).  The list of rows of a table is
    its scan order; new rows go to its end.  Values are compared as they
    are, without column affinity.  sqlite_sequence always exists, and is
    kept apart from the tables: a statement cannot name it, or another of
    SQLite's own tables, where it names a table.  A name is looked up as
    it is written: the model knows nothing of upper and lower case, of
    quotes, or of a text that is more than a name; the properties keep to
    the names for which this is what SQLite does ([plain_name]).  NOT
    NULL, CHECK and DEFAULT clauses are not modelled: an unbound column is
    NULL. *)

(** Outcome of a row operation: a constraint violation is kept apart from
    other failures because INSERT OR IGNORE skips it. *)
Inductive outcome (A : Type) : Type :=
| Done (a : A)
| Violation (msg : string)
| Failed (e : exn).
Arguments Done {A} a.
Arguments Violation {A} msg.
Arguments Failed {A} e.

Definition no_such_table (name : string) : exn :=
  OperationalError ("no such table: " ++ name).

Definition no_such_column (name : string) : exn :=
  OperationalError ("no such column: " ++ name).

Definition syntax_error : exn := OperationalError "syntax error".

(** First of [cols] that is not a column of [t]. *)
Definition missing_column (cols : list string) (t : table) : option string :=
  find (fun c => negb (mem c (t_cols t))) cols.

Definition rid (t : table) (r : row) : Z :=
  match get (t_pk t) r with VInt n => n | _ => 0%Z end.

Definition max_rid (t : table) : Z :=
  fold_right (fun r m => Z.max (rid t r) m) 0%Z (t_rows t).

(** [r] collides with one of [others] on the primary key or on a UNIQUE
    constraint (NULLs never collide). *)
Definition conflicts (t : table) (others : list row) (r : row) : bool :=
  existsb (fun o =>
    existsb (fun u => forallb (fun c => sql_true (sql_eq (get c r) (get c o))) u)
            ([t_pk t] :: t_unique t)) others.

(** The row stored for an INSERT that binds [fields]: unbound columns are
    NULL, a NULL primary key takes the next rowid, which under
    AUTOINCREMENT is above every id ever handed out ([seq]). *)
Definition next_rowid (t : table) (seq : Z) : Z :=
  (Z.max (if t_autoinc t then seq else 0) (max_rid t) + 1)%Z.

Definition insert_row (t : table) (seq : Z) (fields : row)
  : outcome (table * Z) :=
  match missing_column (map fst fields) t with
  | Some c => Failed (OperationalError ("table has no column named " ++ c))
  | None =>
      let r0 := map (fun c => (c, get c fields)) (t_cols t) in
      match get (t_pk t) r0 with
      | VText _ => Failed (IntegrityError "datatype mismatch")
      | v =>
          let n := match v with VInt n => n | _ => next_rowid t seq end in
          let r := set (t_pk t) (VInt n) r0 in
          if conflicts t (t_rows t) r
          then Violation "UNIQUE constraint failed"
          else Done (with_rows t (t_rows t ++ [r]),
                     if t_autoinc t then Z.max seq n else seq)
      end
  end.

(** INSERT of several rows in one statement; [or_ignore] is INSERT OR
    IGNORE.  The third component counts the rows written. *)
Fixpoint insert_rows (or_ignore : bool) (t : table) (seq : Z) (n : nat)
  (rs : list row) : exn + (table * Z * nat) :=
  match rs with
  | [] => inr (t, seq, n)
  | r :: rest =>
      match insert_row t seq r with
      | Done (t', seq') => insert_rows or_ignore t' seq' (S n) rest
      | Violation m =>
          if or_ignore then insert_rows or_ignore t seq n rest
          else inl (IntegrityError m)
      | Failed e => inl e
      end
  end.

(** UPDATE: rows are visited in scan order; a visited row selected by
    [sel] is replaced by [f] of it, checked against all the other rows. *)
Fixpoint update_rows (t : table) (sel : row -> bool) (f : row -> row)
  (done todo : list row) (n : nat) : exn + (list row * nat) :=
  match todo with
  | [] => inr (done, n)
  | r :: rest =>
      if sel r then
        let r' := f r in
        match get (t_pk t) r' with
        | VInt _ =>
            if conflicts t (done ++ rest) r'
            then inl (IntegrityError "UNIQUE constraint failed")
            else update_rows t sel f (done ++ [r']) rest (S n)
        | _ => inl (IntegrityError "datatype mismatch")
        end
      else update_rows t sel f (done ++ [r]) rest n
  end.

(** DELETE ... WHERE [sel]. *)
Definition delete_rows (t : table) (sel : row -> bool) : table * nat :=
  (with_rows t (filter (fun r => negb (sel r)) (t_rows t)),
   List.length (filter sel (t_rows t))).

(** GROUP BY compares NULLs as equal; MIN skips NULLs. *)
Definition same_group (cols : list string) (a b : row) : bool :=
  forallb (fun c => value_eqb (get c a) (get c b)) cols.

Definition min_value (vs : list value) : value :=
  fold_right (fun v m =>
    match v, m with
    | VNull, _ => m
    | _, VNull => v
    | _, _ => if value_ltb v m then v else m
    end) VNull vs.

(** SELECT MIN(id) FROM rows GROUP BY cols. *)
Definition group_min_ids (cols : list string) (rows : list row) : list value :=
  map (fun r => min_value (map (get "id") (filter (same_group cols r) rows))) rows.

(** [name LIKE 'sqlite_%']: LIKE ignores ASCII case, [_] is any one
    character and [%] any run of characters. *)
Definition lower (c : ascii) : ascii :=
  let n := nat_of_ascii c in
  if ((65 <=? n) && (n <=? 90))%nat then ascii_of_nat (n + 32) else c.

Fixpoint lower_string (s : string) : string :=
  match s with
  | EmptyString => EmptyString
  | String c rest => String (lower c) (lower_string rest)
  end.

Definition like_sqlite_ (name : string) : bool :=
  String.prefix "sqlite" (lower_string name) && (7 <=? String.length name)%nat.

(** The temporary re-index table of the merge. *)
Definition temp_table : table :=
  mkTable ["id"; "old_id"; "new_id"] "id" false [] [].

(** *** Environment and connection *)

Record file : Type := mkFile {
  f_dir : list string;     (* sub-folder path below the backup folder *)
  f_name : string;
  f_mtime : Z
}.

Record datetime : Type := mkDatetime {
  year : nat; month : nat; day : nat;
  hour : nat; minute : nat; second : nat
}.

(** What the module reads but does not own: the interpreter, failures
    injected by other users of the database file ([faults], indexed by the
    number of statements sent so far), other database files, the output of
    the integrity check, the configuration and the clock. *)
Record environment : Type := mkEnv {
  py2 : bool;
  faults : nat -> option exn;
  db_files : list (string * database);
  connect_fault : string -> option exn;
  integrity : list string;
  backup_days : Z;                 (* plexpy.CONFIG.BACKUP_DAYS *)
  wall : datetime;                 (* arrow.now() *)
  undeletable : file -> bool;      (* os.remove raises OSError *)
  copy_fault : option exn;         (* shutil.copyfile raises *)
  copy_creates : bool;             (* ... after it has created the destination *)
  copy_seconds : Z;                (* the time that the copy takes *)
  more_variables : nat             (* SQLITE_MAX_VARIABLE_NUMBER - 999 *)
}.

(** A sqlite3 connection: its view of the main database (with the
    uncommitted changes), whether a transaction is open, the database
    attached as import_db, and the total_changes counter. *)
Record connection : Type := mkConn {
  work : database;
  in_txn : bool;
  attached : option database;
  total_changes : nat
}.

(** A data-changing statement: the module's sqlite3 binding opens a
    transaction before INSERT, UPDATE and DELETE. *)
Definition dml (c : connection) (d : database) (n : nat) : connection :=
  mkConn d true (attached c) (total_changes c + n).

Definition ddl (c : connection) (d : database) : connection :=
  mkConn d (in_txn c) (attached c) (total_changes c).

Definition store_inserted (name : string) (t : table) (seq : Z) (n : nat)
  (d : database) : database :=
  let d' := put_table name t d in
  if t_autoinc t && (0 <? n)%nat then put_seq name seq d' else d'.

Definition apply_fields (fields : row) (r : row) : row :=
  fold_left (fun acc kv => set (fst kv) (snd kv) acc) fields r.

Definition matches (key_dict : row) (r : row) : bool :=
  forallb (fun kv => sql_true (sql_eq (get (fst kv) r) (snd kv))) key_dict.

(** *** What the binding refuses

    The values bound to the [?] of a statement, in the order of the
    parameters.  The names that the module splices into the text of a
    statement are not parameters. *)
Definition bound (s : stmt) : list value :=
  match s with
  | SAttach path => [VText path]
  | SUpdateTempNewId seq => [seq]
  | SDeleteSeq t => [VText t]
  | SReindexReference seq => [seq]
  | SUpdate _ value_dict key_dict => map snd value_dict ++ map snd key_dict
  | SInsert _ fields => map snd fields
  | SSelectIdsByUser user_id => [user_id]
  | SSelectIdsBySection section_id => [section_id]
  | SDeleteIdIn _ ids => ids
  | _ => []
  end.

(** SQLite's INTEGER is a signed 64-bit number. *)
Definition int64 (z : Z) : bool :=
  ((-9223372036854775808 <=? z) && (z <=? 9223372036854775807))%Z.

Definition fits_sqlite (v : value) : bool :=
  match v with
  | VInt z => int64 z
  | _ => true
  end.

(** SQLITE_MAX_VARIABLE_NUMBER: 999 in the oldest libraries the module
    runs on, more in later ones. *)
Definition max_variables (e : environment) : nat := 999 + more_variables e.

(** A statement with more parameters than the library allows is refused
    when it is compiled (OperationalError); an int outside 64 bits is
    refused when it is bound (OverflowError).  Neither reaches the
    database. *)
Definition refused (e : environment) (s : stmt) : option exn :=
  if (max_variables e <? List.length (bound s))%nat
  then Some (OperationalError "too many SQL variables")
  else if forallb fits_sqlite (bound s) then None else Some OverflowError.

(** *** What the statements do *)

Definition perform (e : environment) (s : stmt) (c : connection)
  : exn + (list row * connection) :=
  let d := work c in
  match s with
  | SPragma _ => inr ([], c)
  | SBeginImmediate =>
      if in_txn c
      then inl (OperationalError "cannot start a transaction within a transaction")
      else inr ([], mkConn d true (attached c) (total_changes c))
  | SAttach path =>
      match attached c with
      | Some _ => inl (OperationalError "database import_db is already in use")
      | None =>
          let src := match lookup path (db_files e) with
                     | Some x => x | None => empty_db end in
          inr ([], mkConn d (in_txn c) (Some src) (total_changes c))
      end
  | SDetach =>
      match attached c with
      | None => inl (OperationalError "no such database: import_db")
      | Some _ =>
          if in_txn c
          then inl (OperationalError "database import_db is locked")
          else inr ([], mkConn d false None (total_changes c))
      end
  | SSelectSeq name =>
      inr (match lookup name (sequence d) with
           | Some n => [[("seq", VInt n)]]
           | None => []
           end, c)
  | SCreateTemp =>
      match find_table "temp" d with
      | Some _ => inr ([], c)
      | None => inr ([], ddl c (put_table "temp" temp_table d))
      end
  | SInsertTempOldIds =>
      match attached c with
      | None => inl (no_such_table "import_db.session_history")
      | Some src =>
          match find_table "session_history" src, find_table "temp" d with
          | None, _ => inl (no_such_table "import_db.session_history")
          | _, None => inl (no_such_table "temp")
          | Some st, Some tmp =>
              if negb (mem "id" (t_cols st)) then inl (no_such_column "id")
              else
                match insert_rows false tmp (seq_of "temp" d) 0
                        (map (fun r => [("old_id", get "id" r)]) (t_rows st)) with
                | inl x => inl x
                | inr (tmp', sq, n) =>
                    inr ([], dml c (store_inserted "temp" tmp' sq n d) n)
                end
          end
      end
  | SUpdateTempNewId seq =>
      match find_table "temp" d with
      | None => inl (no_such_table "temp")
      | Some tmp =>
          match missing_column ["new_id"; "id"] tmp with
          | Some x => inl (no_such_column x)
          | None =>
              match update_rows tmp (fun _ => true)
                      (fun r => set "new_id" (sql_add (get "id" r) seq) r)
                      [] (t_rows tmp) 0 with
              | inl x => inl x
              | inr (rows, n) =>
                  inr ([], dml c (put_table "temp" (with_rows tmp rows) d) n)
              end
          end
      end
  | SSelectTables =>
      match attached c with
      | None => inl (no_such_table "import_db.sqlite_master")
      | Some src =>
          inr (map (fun nt => [("name", VText (fst nt))])
                   (filter (fun nt => negb (like_sqlite_ (fst nt))) (tables src)), c)
      end
  | SDeleteAll t =>
      match find_table t d with
      | None => inl (no_such_table t)
      | Some tb =>
          inr ([], dml c (put_table t (with_rows tb []) d) (List.length (t_rows tb)))
      end
  | SDeleteSeq t =>
      inr ([], dml c (mkDb (tables d) (assoc_del t (sequence d)))
                     (List.length (filter (fun kv => String.eqb (fst kv) t) (sequence d))))
  | STableInfo t =>
      match attached c with
      | None => inl (OperationalError "unknown database import_db")
      | Some src =>
          inr (match find_table t src with
               | None => []
               | Some tb =>
                   map (fun col => [("name", VText col);
                                    ("pk", VInt (if String.eqb col (t_pk tb) then 1 else 0))])
                       (t_cols tb)
               end, c)
      end
  | SInsertOrIgnoreImport t cols =>
      match cols, attached c with
      | [], _ => inl syntax_error
      | _, None => inl (no_such_table ("import_db." ++ t))
      | _, Some src =>
          match find_table t src, find_table t d with
          | None, _ => inl (no_such_table ("import_db." ++ t))
          | _, None => inl (no_such_table t)
          | Some st, Some tb =>
              match missing_column cols st with
              | Some x => inl (no_such_column x)
              | None =>
                  match insert_rows true tb (seq_of t d) 0
                          (map (fun r => map (fun col => (col, get col r)) cols)
                               (t_rows st)) with
                  | inl x => inl x
                  | inr (tb', sq, n) =>
                      inr ([], dml c (store_inserted t tb' sq n d) n)
                  end
              end
          end
      end
  | SReindexReference seq =>
      match find_table "session_history" d, find_table "temp" d with
      | None, _ => inl (no_such_table "session_history")
      | _, None => inl (no_such_table "temp")
      | Some sh, Some tmp =>
          match missing_column ["reference_id"; "id"] sh,
                missing_column ["new_id"; "old_id"] tmp with
          | Some x, _ | None, Some x => inl (no_such_column x)
          | None, None =>
              let new_ref (r : row) : value :=
                match find (fun tr => sql_true (sql_eq (get "old_id" tr)
                                                        (get "reference_id" r)))
                           (t_rows tmp) with
                | Some tr => get "new_id" tr
                | None => VNull
                end in
              match update_rows sh (fun r => sql_gt (get "id" r) seq)
                      (fun r => set "reference_id" (new_ref r) r)
                      [] (t_rows sh) 0 with
              | inl x => inl x
              | inr (rows, n) =>
                  inr ([], dml c (put_table "session_history" (with_rows sh rows) d) n)
              end
          end
      end
  | SDeleteTempKept cols =>
      match cols, find_table "temp" d, find_table "session_history" d with
      | [], _, _ => inl syntax_error
      | _, None, _ => inl (no_such_table "temp")
      | _, _, None => inl (no_such_table "session_history")
      | _, Some tmp, Some sh =>
          match missing_column ["new_id"] tmp, missing_column ("id" :: cols) sh with
          | Some x, _ | None, Some x => inl (no_such_column x)
          | None, None =>
              let keep := group_min_ids cols (t_rows sh) in
              let (tmp', n) :=
                delete_rows tmp (fun r => sql_true (sql_in (get "new_id" r) keep)) in
              inr ([], dml c (put_table "temp" tmp' d) n)
          end
      end
  | SDeleteIdInTemp t =>
      match find_table t d, find_table "temp" d with
      | None, _ => inl (no_such_table t)
      | _, None => inl (no_such_table "temp")
      | Some tb, Some tmp =>
          match missing_column ["id"] tb, missing_column ["new_id"] tmp with
          | Some x, _ | None, Some x => inl (no_such_column x)
          | None, None =>
              let ids := map (get "new_id") (t_rows tmp) in
              let (tb', n) :=
                delete_rows tb (fun r => sql_true (sql_in (get "id" r) ids)) in
              inr ([], dml c (put_table t tb' d) n)
          end
      end
  | SDeleteDuplicates t cols =>
      match cols, find_table t d with
      | [], _ => inl syntax_error
      | _, None => inl (no_such_table t)
      | _, Some tb =>
          match missing_column ("id" :: cols) tb with
          | Some x => inl (no_such_column x)
          | None =>
              let keep := group_min_ids cols (t_rows tb) in
              let (tb', n) :=
                delete_rows tb
                  (fun r => sql_true (sql_not (sql_in (get "id" r) keep))) in
              inr ([], dml c (put_table t tb' d) n)
          end
      end
  | SDropTemp =>
      match find_table "temp" d with
      | None => inl (no_such_table "temp")
      | Some _ => inr ([], ddl c (mkDb (assoc_del "temp" (tables d)) (sequence d)))
      end
  | SVacuum =>
      if in_txn c
      then inl (OperationalError "cannot VACUUM from within a transaction")
      else inr ([], c)
  | SIntegrityCheck =>
      inr (map (fun m => [("integrity_check", VText m)]) (integrity e), c)
  | SUpdate t value_dict key_dict =>
      match value_dict, key_dict, find_table t d with
      | [], _, _ | _, [], _ => inl syntax_error
      | _, _, None => inl (no_such_table t)
      | _, _, Some tb =>
          match missing_column (map fst value_dict ++ map fst key_dict) tb with
          | Some x => inl (no_such_column x)
          | None =>
              match update_rows tb (matches key_dict) (apply_fields value_dict)
                      [] (t_rows tb) 0 with
              | inl x => inl x
              | inr (rows, n) =>
                  inr ([], dml c (put_table t (with_rows tb rows) d) n)
              end
          end
      end
  | SInsert t fields =>
      match fields, find_table t d with
      | [], _ => inl syntax_error
      | _, None => inl (no_such_table t)
      | _, Some tb =>
          match insert_rows false tb (seq_of t d) 0 [fields] with
          | inl x => inl x
          | inr (tb', sq, n) => inr ([], dml c (store_inserted t tb' sq n d) n)
          end
      end
  | SSelectIdsByUser user_id =>
      match find_table "session_history" d with
      | None => inl (no_such_table "session_history")
      | Some sh =>
          match missing_column ["id"; "user_id"] sh with
          | Some x => inl (no_such_column x)
          | None =>
              inr (map (fun r => [("id", get "id" r)])
                       (filter (fun r => sql_true (sql_eq (get "user_id" r) user_id))
                               (t_rows sh)), c)
          end
      end
  | SSelectIdsBySection section_id =>
      match find_table "session_history" d,
            find_table "session_history_metadata" d with
      | None, _ => inl (no_such_table "session_history")
      | _, None => inl (no_such_table "session_history_metadata")
      | Some sh, Some md =>
          match missing_column ["id"] sh, missing_column ["id"; "section_id"] md with
          | Some x, _ | None, Some x => inl (no_such_column x)
          | None, None =>
              inr (flat_map (fun r =>
                     map (fun _ => [("id", get "id" r)])
                         (filter (fun m =>
                            sql_true (sql_eq (get "id" r) (get "id" m)) &&
                            sql_true (sql_eq (get "section_id" m) section_id))
                            (t_rows md)))
                     (t_rows sh), c)
          end
      end
  | SDeleteIdIn t ids =>
      match find_table t d with
      | None => inl (no_such_table t)
      | Some tb =>
          match missing_column ["id"] tb with
          | Some x => inl (no_such_column x)
          | None =>
              let (tb', n) :=
                delete_rows tb (fun r => sql_true (sql_in (get "id" r) ids)) in
              inr ([], dml c (put_table t tb' d) n)
          end
      end
  end.

Definition engine (e : environment) (s : stmt) (c : connection)
  : exn + (list row * connection) :=
  match refused e s with
  | Some x => inl x
  | None => perform e s c
  end.

(** ** The world and the monad of the module *)

Inductive level : Type := LDebug | LInfo | LWarn | LError.

(** Effects that the claims talk about, in the order they happen. *)
Inductive event : Type :=
| EvExecute (s : stmt)            (* one call of connection.execute *)
| EvSleep (seconds : nat)         (* time.sleep *)
| EvLog (lvl : level) (msg : string)
| EvNotify (notify_action : string)
| EvCopy (name : string)          (* shutil.copyfile into the backup folder *)
| EvRemove (f : file).            (* os.remove called *)

Record world : Type := mkWorld {
  env : environment;
  disk : database;                   (* the committed database file *)
  conn : connection;                 (* the connection in use *)
  clock : nat;                       (* statements sent so far *)
  epoch : Z;                         (* time.time(), in seconds *)
  backup_dir : option (list file);   (* None: the folder does not exist *)
  notify_queue : list string;        (* plexpy.NOTIFY_QUEUE *)
  trace : list event
}.

Definition M (A : Type) : Type := world -> result A * world.

Definition ret (A : Type) (a : A) : M A := fun w => (Ret a, w).

Definition raise (A : Type) (e : exn) : M A := fun w => (Raise e, w).
Arguments raise {A} e.

Definition bind (A B : Type) (m : M A) (k : A -> M B) : M B :=
  fun w => match m w with
           | (Ret a, w1) => k a w1
           | (Raise e, w1) => (Raise e, w1)
           end.

Declare Scope monad_scope.
Delimit Scope monad_scope with monad.
Notation "x <- c1 ;; c2" := (bind c1 (fun x => c2))
  (at level 61, c1 at next level, right associativity) : monad_scope.
Notation "c1 ;; c2" := (bind c1 (fun _ => c2))
  (at level 61, right associativity) : monad_scope.
Local Open Scope monad_scope.

(** try: ... except: ... with the handler choosing what it catches. *)
Definition try_except (A : Type) (body : M A) (handler : exn -> M A) : M A :=
  fun w => match body w with
           | (Ret a, w1) => (Ret a, w1)
           | (Raise e, w1) => handler e w1
           end.

Definition set_conn (c : connection) (w : world) : world :=
  mkWorld (env w) (disk w) c (clock w) (epoch w) (backup_dir w)
          (notify_queue w) (trace w).

Definition set_backup_dir (b : option (list file)) (w : world) : world :=
  mkWorld (env w) (disk w) (conn w) (clock w) (epoch w) b
          (notify_queue w) (trace w).

Definition emit (ev : event) : M unit :=
  fun w => (Ret tt, mkWorld (env w) (disk w) (conn w) (clock w) (epoch w)
                            (backup_dir w) (notify_queue w) (trace w ++ [ev])).

Definition log (lvl : level) (msg : string) : M unit := emit (EvLog lvl msg).

(** time.sleep(n): the clock of the world moves on. *)
Definition sleep (n : nat) : M unit :=
  fun w => emit (EvSleep n)
             (mkWorld (env w) (disk w) (conn w) (clock w) (epoch w + Z.of_nat n)
                      (backup_dir w) (notify_queue w) (trace w)).

(** plexpy.NOTIFY_QUEUE.put({'notify_action': a}) *)
Definition notify (a : string) : M unit :=
  fun w => emit (EvNotify a)
             (mkWorld (env w) (disk w) (conn w) (clock w) (epoch w)
                      (backup_dir w) (notify_queue w ++ [a]) (trace w)).

(** *** sqlite3.Connection *)

(** connection.execute: the statement reaches the engine unless another
    user of the file makes it fail first; a failed statement changes
    nothing. *)
Definition sent (s : stmt) (w : world) : world :=
  mkWorld (env w) (disk w) (conn w) (S (clock w)) (epoch w)
          (backup_dir w) (notify_queue w) (trace w ++ [EvExecute s]).

Definition conn_execute (s : stmt) : M (list row) :=
  fun w =>
    let w1 := sent s w in
    match faults (env w) (clock w) with
    | Some e => (Raise e, w1)
    | None =>
        match engine (env w) s (conn w) with
        | inl e => (Raise e, w1)
        | inr (rows, c') => (Ret rows, set_conn c' w1)
        end
    end.

(** connection.commit(): the connection's view becomes the file. *)
Definition commit (w : world) : world :=
  mkWorld (env w) (work (conn w))
          (mkConn (work (conn w)) false (attached (conn w)) (total_changes (conn w)))
          (clock w) (epoch w) (backup_dir w) (notify_queue w) (trace w).

(** connection.rollback(): the uncommitted changes are dropped. *)
Definition rollback (w : world) : world :=
  mkWorld (env w) (disk w)
          (mkConn (disk w) false (attached (conn w)) (total_changes (conn w)))
          (clock w) (epoch w) (backup_dir w) (notify_queue w) (trace w).

(** [with self.connection as c: body]: commit when the body returns,
    roll back and re-raise when it raises. *)
Definition with_connection (A : Type) (body : M A) : M A :=
  fun w => match body w with
           | (Ret a, w1) => (Ret a, commit w1)
           | (Raise e, w1) => (Raise e, rollback w1)
           end.

(** sqlite3.connect(db_filename(filename)): a new connection on the file;
    the connection used before is no longer in use (its uncommitted
    changes are not seen by the new one). *)
Definition connect : M unit :=
  fun w => (Ret tt, set_conn (mkConn (disk w) false None 0) w).

(** ** class MonitorDatabase *)

(** __init__: connect, then the three configuration pragmas. *)
Definition MonitorDatabase : M unit :=
  connect ;;
  conn_execute (SPragma "synchronous") ;;
  conn_execute (SPragma "journal_mode") ;;
  conn_execute (SPragma "cache_size") ;;
  ret tt.

(** The test of the OperationalError handler,
    [msg1 in e or msg2 in e].  Python 2 looks the string up among the
    exception's arguments (the message); Python 3 raises TypeError because
    an exception is not iterable. *)
Definition transient_test (python2 : bool) (msg : string) : result bool :=
  if python2
  then Ret (String.eqb "unable to open database file" msg
            || String.eqb "database is locked" msg)
  else Raise TypeError.

(** The loop [while attempts < 5] of [action]; [left] is [5 - attempts]. *)
Fixpoint retry (left : nat) (query : stmt) : M (option (list row)) :=
  match left with
  | O => ret None                      (* return sql_result, still None *)
  | S left' =>
      try_except
        (sql_result <- with_connection (conn_execute query) ;;
         ret (Some sql_result))        (* break; return sql_result *)
        (fun e =>
           match e with
           | OperationalError msg =>
               fun w =>
                 match transient_test (py2 (env w)) msg with
                 | Raise x => (Raise x, w)
                 | Ret true =>
                     (log LWarn "Database Error" ;;
                      sleep 1 ;;               (* attempts += 1 *)
                      retry left' query) w
                 | Ret false =>
                     (log LError "Database error" ;; raise e) w
                 end
           | _ =>
               if is_DatabaseError e
               then log LError "Fatal Error executing" ;; raise e
               else raise e
           end)
  end.

(** [action(query, args, return_last_id)]: the arguments are part of the
    statement here, [return_last_id] is not used by the source;
    [with db_lock] has no effect on one thread of control. *)
Definition action (query : option stmt) : M (option (list row)) :=
  match query with
  | None => ret None
  | Some q => retry 5 q
  end.

(** [self.action(query, args).fetchall()]: on None the attribute access
    raises.  fetchall returns a list of rows, never None nor [[None]], so
    the test that follows it in the source lets every result through. *)
Definition select (query : stmt) : M (list row) :=
  sql_result <- action (Some query) ;;
  match sql_result with
  | None => raise AttributeError
  | Some rows => ret rows
  end.

(** [self.action(query, args).fetchone()], an empty dict for no row. *)
Definition select_single (query : stmt) : M row :=
  sql_result <- action (Some query) ;;
  match sql_result with
  | None => raise AttributeError
  | Some [] => ret []
  | Some (r :: _) => ret r
  end.

(** The two dicts are association lists in the dicts' iteration order:
    [SUpdate] stands for the text built from [gen_params] with the values
    of both dicts as arguments, [SInsert] for the INSERT of the keys of
    [value_dict] followed by those of [key_dict]. *)
Definition upsert (table_name : string) (value_dict key_dict : row) : M string :=
  fun w =>
    let changes_before := total_changes (conn w) in
    let update_query := SUpdate table_name value_dict key_dict in
    (action (Some update_query) ;;
     fun w1 =>
       if Nat.eqb (total_changes (conn w1)) changes_before then
         let insert_query := SInsert table_name (value_dict ++ key_dict) in
         (try_except
            (action (Some insert_query) ;; ret tt)
            (fun e => match e with
                      | IntegrityError _ => log LInfo "Queries failed"
                      | _ => raise e
                      end) ;;
          ret "insert") w1
       else ret "update" w1) w.

(** Python dict lookup [d[k]]. *)
Definition getitem (k : string) (d : row) : M value :=
  match lookup k d with
  | Some v => ret v
  | None => raise (KeyError k)
  end.

(** ** Python values that reach the module from its callers *)

Inductive pyval : Type :=
| PyNone
| PyInt (z : Z)
| PyStr (s : string).

(** str(x) *)
Definition py_str (x : pyval) : string :=
  match x with
  | PyNone => "None"
  | PyInt z => NilZero.string_of_int (Z.to_int z)
  | PyStr s => s
  end.

Definition is_digit (c : ascii) : bool :=
  let n := nat_of_ascii c in ((48 <=? n) && (n <=? 57))%nat.

Fixpoint all_digits (s : string) : bool :=
  match s with
  | EmptyString => true
  | String c rest => is_digit c && all_digits rest
  end.

(** s.isdigit(): at least one character and every character a digit.
    The strings are byte strings and the digits are 0 to 9, which is the
    test of both interpreters on a string of ASCII characters
    ([ascii_text]); Python 3 also takes the digits of other scripts. *)
Definition isdigit (s : string) : bool :=
  match s with
  | EmptyString => false
  | _ => all_digits s
  end.

(** The value bound to a [?]; an int is held against 64 bits when the
    statement is sent ([refused]). *)
Definition to_value (x : pyval) : value :=
  match x with
  | PyNone => VNull
  | PyInt z => VInt z
  | PyStr s => VText s
  end.

(** Truth value of a cell, as in [if not c['pk']]. *)
Definition truthy (v : value) : bool :=
  match v with
  | VNull => false
  | VInt z => negb (Z.eqb z 0)
  | VText s => negb (String.eqb s EmptyString)
  end.

(** [str.format] of a cell. *)
Definition text_of (v : value) : string :=
  match v with
  | VNull => "None"
  | VInt z => NilZero.string_of_int (Z.to_int z)
  | VText s => s
  end.

(** [[f(x) for x in xs]] where [f] may raise. *)
Fixpoint for_each (A B : Type) (f : A -> M B) (xs : list A) : M (list B) :=
  match xs with
  | [] => ret []
  | x :: rest => y <- f x ;; ys <- for_each f rest ;; ret (y :: ys)
  end.

(** ** Deleting history *)

Inductive row_ids_arg : Type :=
| IdsNone
| IdsText (s : string)
| IdsList (l : list value).

Section Deletion.

(** [list(map(cast_to_int, row_ids.split(',')))]: [cast_to_int] lives in
    plexpy/helpers.py, outside this module. *)
Variable cast_ids : string -> list value.

Definition delete_rows_from_table (table : string) (row_ids : row_ids_arg)
  : M bool :=
  let row_ids : list value :=
    match row_ids with
    | IdsNone => []
    | IdsText s => if String.eqb s EmptyString then [] else cast_ids s
    | IdsList l => l
    end in
  match row_ids with
  | [] => ret true
  | _ =>
      log LInfo "Deleting row ids from database table" ;;
      let query := SDeleteIdIn table row_ids in
      MonitorDatabase ;;
      try_except
        (action (Some query) ;; ret true)
        (fun e => log LError "Failed to delete rows from database table" ;;
                  ret false)
  end.

Definition delete_session_history_rows (row_ids : row_ids_arg) : M bool :=
  s1 <- delete_rows_from_table "session_history" row_ids ;;
  s2 <- delete_rows_from_table "session_history_media_info" row_ids ;;
  s3 <- delete_rows_from_table "session_history_metadata" row_ids ;;
  ret (forallb (fun b => b) [s1; s2; s3]).        (* all(success) *)

(** A function that falls off its end returns None: [option bool]. *)
Definition delete_user_history (user_id : pyval) : M (option bool) :=
  if isdigit (py_str user_id) then
    MonitorDatabase ;;
    result <- select (SSelectIdsByUser (to_value user_id)) ;;
    row_ids <- for_each (getitem "id") result ;;
    log LInfo "Deleting all history for user_id from database." ;;
    b <- delete_session_history_rows (IdsList row_ids) ;;
    ret (Some b)
  else ret None.

Definition delete_library_history (section_id : pyval) : M (option bool) :=
  if isdigit (py_str section_id) then
    MonitorDatabase ;;
    result <- select (SSelectIdsBySection (to_value section_id)) ;;
    row_ids <- for_each (getitem "id") result ;;
    log LInfo "Deleting all history for library section_id from database." ;;
    b <- delete_session_history_rows (IdsList row_ids) ;;
    ret (Some b)
  else ret None.

End Deletion.

(** ** Clearing a table *)

(** [if table:] lets neither None nor the empty string through; the
    function then falls off its end and returns None. *)
Definition clear_table (table : option string) : M (option bool) :=
  match table with
  | None => ret None
  | Some name =>
      if String.eqb name EmptyString then ret None
      else
        MonitorDatabase ;;
        log LDebug "Clearing database table" ;;
        try_except
          (action (Some (SDeleteAll name)) ;;
           action (Some SVacuum) ;;
           ret (Some true))
          (fun e => log LError "Failed to clear database table" ;;
                    ret (Some false))
  end.

Definition delete_sessions : M (option bool) :=
  log LInfo "Clearing temporary sessions from database." ;;
  clear_table (Some "sessions").

Definition delete_recently_added : M (option bool) :=
  log LInfo "Clearing recently added items from database." ;;
  clear_table (Some "recently_added").

(** ** Backup *)

Definition integrity_check : M row :=
  MonitorDatabase ;;
  select_single SIntegrityCheck.

Definition digit (n : nat) : ascii := ascii_of_nat (48 + n mod 10).

Definition pad2 (n : nat) : string :=
  String (digit (n / 10)) (String (digit n) EmptyString).

Definition pad4 (n : nat) : string :=
  String (digit (n / 1000)) (String (digit (n / 100)) (pad2 n)).

(** arrow.now().format('YYYYMMDDHHmmss') *)
Definition timestamp (t : datetime) : string :=
  (pad4 (year t) ++ pad2 (month t) ++ pad2 (day t) ++
   pad2 (hour t) ++ pad2 (minute t) ++ pad2 (second t))%string.

(** s.endswith(suffix) *)
Definition endswith (s suffix : string) : bool :=
  let n := String.length s in
  let m := String.length suffix in
  (m <=? n)%nat && String.eqb (substring (n - m) m s) suffix.

Definition same_path (f g : file) : bool :=
  if list_eq_dec string_dec (f_dir f) (f_dir g)
  then String.eqb (f_name f) (f_name g) else false.

Definition top_level (name : string) (f : file) : bool :=
  match f_dir f with [] => String.eqb (f_name f) name | _ => false end.

(** os.listdir(backup_folder): the files of the folder and its
    sub-folders' names. *)
Definition listdir (files : list file) : list string :=
  map (fun f => match f_dir f with [] => f_name f | d :: _ => d end) files.

Definition folder (w : world) : list file :=
  match backup_dir w with Some fs => fs | None => [] end.

(** if not os.path.exists(backup_folder): os.makedirs(backup_folder) *)
Definition ensure_folder : M unit :=
  fun w => match backup_dir w with
           | Some _ => (Ret tt, w)
           | None => (Ret tt, set_backup_dir (Some []) w)
           end.

(** The folder once the database file has been copied to [name]. *)
Definition copied (name : string) (w : world) : list file :=
  filter (fun f => negb (top_level name f)) (folder w) ++ [mkFile [] name (epoch w)].

(** The time, in seconds, from the last write of the copy to the next
    reading of time.time(): the clock has moved on, by less than a day. *)
Definition elapsed (e : environment) : Z :=
  Z.max 1 (Z.min (copy_seconds e) 86400).

(** The destination has been written at [epoch w]; then time has passed. *)
Definition written (name : string) (w : world) : world :=
  mkWorld (env w) (disk w) (conn w) (clock w) (epoch w + elapsed (env w))
          (Some (copied name w)) (notify_queue w) (trace w).

(** shutil.copyfile(db_filename(), backup_file_fp): the file is created
    or replaced, its modification time is the time of the copy.  A copy
    that fails has either not opened the destination, or leaves there what
    it has written of it. *)
Definition copyfile (name : string) : M unit :=
  emit (EvCopy name) ;;
  fun w =>
    match copy_fault (env w) with
    | Some e => (Raise e, if copy_creates (env w) then written name w else w)
    | None => (Ret tt, written name w)
    end.

(** os.remove(file_) *)
Definition os_remove (f : file) : M unit :=
  emit (EvRemove f) ;;
  fun w =>
    if undeletable (env w) f then (Raise (OSError "remove"), w)
    else (Ret tt,
          set_backup_dir (Some (filter (fun g => negb (same_path g f)) (folder w))) w).

Definition is_OSError (e : exn) : bool :=
  match e with OSError _ => true | _ => false end.

(** The two nested loops over os.walk(backup_folder): every file below
    the folder whose name ends in '.sched.db'. *)
Fixpoint sweep (now : Z) (db_files : list file) : M unit :=
  match db_files with
  | [] => ret tt
  | file_ :: rest =>
      (fun w =>
         if (f_mtime file_ <? now - backup_days (env w) * 86400)%Z then
           try_except (os_remove file_)
             (fun e => if is_OSError e
                       then log LError "Failed to delete from the backup folder"
                       else raise e) w
         else (Ret tt, w)) ;;
      sweep now rest
  end.

Definition make_backup (cleanup scheduler : bool) : M bool :=
  (* Check the integrity of the database first *)
  check <- integrity_check ;;
  cell <- getitem "integrity_check" check ;;
  let integrity := value_eqb cell (VText "ok") in
  corrupt <- (if negb integrity
              then notify "on_plexpydbcorrupt" ;; ret ".corrupt"
              else ret EmptyString) ;;
  stamp <- (fun w => (Ret (timestamp (wall (env w))), w)) ;;
  let backup_file :=
    if scheduler
    then ("tautulli.backup-" ++ stamp ++ corrupt ++ ".sched.db")%string
    else ("tautulli.backup-" ++ stamp ++ corrupt ++ ".db")%string in
  (* In case the user has deleted it manually *)
  ensure_folder ;;
  MonitorDatabase ;;
  conn_execute SBeginImmediate ;;
  copyfile backup_file ;;
  (fun w => (Ret tt, rollback w)) ;;
  (* Only cleanup if the database integrity is okay *)
  (if cleanup && integrity then
     now <- (fun w => (Ret (epoch w), w)) ;;
     files <- (fun w => (Ret (folder w), w)) ;;
     sweep now (filter (fun f => endswith (f_name f) ".sched.db") files)
   else ret tt) ;;
  listing <- (fun w => (Ret (listdir (folder w)), w)) ;;
  if mem backup_file listing then
    log LDebug "Successfully backed up" ;; ret true
  else
    log LError "Failed to backup" ;; ret false.

(** ** Import of another Tautulli database *)

(** sqlite3.connect(database, timeout=20) of [validate_database]; with no
    path (the default None) the call raises TypeError. *)
Definition open_database (database : option string) : M unit :=
  fun w => match database with
           | None => (Raise TypeError, w)
           | Some path =>
               match connect_fault (env w) path with
               | Some e => (Raise e, w)
               | None => (Ret tt, w)
               end
           end.

Definition validate_database (database : option string) : M string :=
  try_except
    (open_database database ;; ret "success")
    (fun e =>
       match e with
       | OperationalError _ | ValueError =>
           log LError "Invalid database specified" ;;
           ret "Invalid database specified"
       | _ =>
           log LError "Uncaught exception" ;;
           ret "Uncaught exception"
       end).

(** [table == 'session_history'] at line 114 compares [table], the row
    (a dict) of the loop, with a string: the two are never equal. *)
Definition dict_eq_str (d : row) (s : string) : bool := false.

Definition session_history_tables : list string :=
  ["session_history"; "session_history_metadata"; "session_history_media_info"].

(** [[c['name'] for c in columns if not c['pk']]] *)
Fixpoint non_pk_columns (columns : list row) : M (list string) :=
  match columns with
  | [] => ret []
  | c :: rest =>
      pk <- getitem "pk" c ;;
      if negb (truthy pk) then
        name <- getitem "name" c ;;
        names <- non_pk_columns rest ;;
        ret (text_of name :: names)
      else non_pk_columns rest
  end.

(** The loop [for table in tables] (lines 95-119); the two accumulators
    are [session_history_columns] and the dict [table_columns]. *)
Fixpoint import_tables (method : string) (tables : list row)
  (session_history_columns : list string)
  (table_columns : list (string * list string))
  : M (list string * list (string * list string)) :=
  match tables with
  | [] => ret (session_history_columns, table_columns)
  | table :: rest =>
      name <- getitem "name" table ;;
      let table_name := text_of name in
      if String.eqb table_name "sessions" then
        (* Skip temporary sessions table *)
        import_tables method rest session_history_columns table_columns
      else
        log LInfo "Importing database table" ;;
        (if String.eqb method "overwrite" then
           (* Clear the table and reset the autoincrement ids *)
           action (Some (SDeleteAll table_name)) ;;
           action (Some (SDeleteSeq table_name)) ;;
           ret tt
         else ret tt) ;;
        (* Get the list of columns to import *)
        columns <- select (STableInfo table_name) ;;
        import_columns <- non_pk_columns columns ;;
        let table_columns := assoc_set table_name import_columns table_columns in
        let session_history_columns :=
          if dict_eq_str table "session_history"
          then import_columns else session_history_columns in
        (* Insert the data with ignore instead of replace to be safe *)
        action (Some (SInsertOrIgnoreImport table_name import_columns)) ;;
        import_tables method rest session_history_columns table_columns
  end.

(** The loop [for table, columns in table_columns.items()] (lines 137-143). *)
Fixpoint remove_duplicates (table_columns : list (string * list string))
  : M unit :=
  match table_columns with
  | [] => ret tt
  | (table, columns) :: rest =>
      log LInfo "Removing duplicate rows from database table" ;;
      (if mem table session_history_tables
       then action (Some (SDeleteIdInTemp table))
       else action (Some (SDeleteDuplicates table columns))) ;;
      remove_duplicates rest
  end.

Definition import_tautulli_db (database : option string)
  (method : option string) (backup : bool) : M (option bool) :=
  db_validate <- validate_database database ;;
  if negb (String.eqb db_validate "success") then
    log LError "Failed to import Tautulli database" ;;
    ret (Some false)
  else
  match database, method with
  | Some path, Some method =>
  if negb (mem method ["merge"; "overwrite"]) then
    log LError "Failed to import Tautulli database: invalid import method" ;;
    ret (Some false)
  else
  backed_up <- (if backup then
                  (* Make a backup of the current database first *)
                  log LInfo "Creating a database backup before importing." ;;
                  make_backup false false
                else ret true) ;;
  if negb backed_up then
    log LError "Failed to import Tautulli database: failed to create database backup" ;;
    ret (Some false)
  else
  log LInfo "Importing Tautulli database" ;;
  MonitorDatabase ;;
  conn_execute SBeginImmediate ;;
  conn_execute (SAttach path) ;;
  (* Get the current number of used ids in the session_history table *)
  session_history_seq <- select_single (SSelectSeq "session_history") ;;
  (if String.eqb method "merge" then
     (* Create a temporary table so we can reindex
        session_history.reference_id after merging *)
     log LInfo "Creating temporary database table to re-index grouped session history." ;;
     action (Some SCreateTemp) ;;
     action (Some SInsertTempOldIds) ;;
     seq <- getitem "seq" session_history_seq ;;
     action (Some (SUpdateTempNewId seq)) ;;
     ret tt
   else ret tt) ;;
  (* Keep track of all table columns so that duplicates can be removed
     after importing *)
  tables <- select SSelectTables ;;
  imported <- import_tables method tables [] [] ;;
  let (session_history_columns, table_columns) := imported in
  conn_execute SDetach ;;
  (if String.eqb method "merge" then
     (* Reindex session_history.reference_id *)
     log LInfo "Re-indexing grouped session history." ;;
     seq <- getitem "seq" session_history_seq ;;
     action (Some (SReindexReference seq)) ;;
     (match session_history_columns with
      | [] => ret tt
      | _ =>
          (* Remove reference_id column from the list of session_history
             table columns to get unique rows *)
          let columns := filter (fun c => negb (String.eqb c "reference_id"))
                                session_history_columns in
          (* Remove session_history ids to KEEP from the temp table *)
          action (Some (SDeleteTempKept columns)) ;;
          ret tt
      end) ;;
     remove_duplicates table_columns ;;
     log LInfo "Deleting temporary database table." ;;
     action (Some SDropTemp) ;;
     ret tt
   else ret tt) ;;
  action (Some SVacuum) ;;
  log LInfo "Tautulli database import complete." ;;
  ret None
  | _, _ =>
    (* no path cannot pass the validation; no method is not one of the two *)
    log LError "Failed to import Tautulli database: invalid import method" ;;
    ret (Some false)
  end.

(** ** Rows as dictionaries *)

(** [dict_factory(cursor, row)], the row factory of the connection:
    [description] holds the names of the result columns ([col[0]] of
    cursor.description), [idx] is the counter of enumerate, [d] the dict
    built so far.  [row[idx]] raises IndexError when the row is too
    short: the result is None then. *)
Fixpoint dict_factory_loop (description : list string) (idx : nat)
  (r : list value) (d : row) : option row :=
  match description with
  | [] => Some d
  | col :: rest =>
      match nth_error r idx with
      | Some v => dict_factory_loop rest (S idx) r (assoc_set col v d)
      | None => None
      end
  end.

Definition dict_factory (description : list string) (r : list value)
  : option row :=
  dict_factory_loop description 0 r [].

(** * Notions used by the properties *)

(** ** The retrying executor *)

(** Events of one attempt that fails with a transient error. *)
Definition failed_attempt (q : stmt) : list event :=
  [EvExecute q; EvLog LWarn "Database Error"; EvSleep 1].

Definition is_transient (e : exn) : Prop :=
  e = OperationalError "unable to open database file" \/
  e = OperationalError "database is locked".

(** The statement meets a transient error at each of the next [n]
    attempts. *)
Definition always_busy (n : nat) (w : world) : Prop :=
  forall i, i < n ->
    exists e, faults (env w) (clock w + i) = Some e /\ is_transient e.

Fixpoint repeat_events (n : nat) (evs : list event) : list event :=
  match n with
  | O => []
  | S n' => evs ++ repeat_events n' evs
  end.

Definition executions (evs : list event) : nat :=
  List.length (filter (fun ev => match ev with EvExecute _ => true | _ => false end) evs).

Definition seconds_slept (evs : list event) : nat :=
  fold_right (fun ev n => match ev with EvSleep k => k + n | _ => n end) 0 evs.

(** ** Example data *)

(** A small instance of the history schema: the history table with its
    cross-reference column and one of its side tables. *)
Definition history (rows : list row) : table :=
  mkTable ["id"; "reference_id"; "started"] "id" true [] rows.

Definition metadata (rows : list row) : table :=
  mkTable ["id"; "title"] "id" false [] rows.

Definition history_row (id reference_id started : Z) : row :=
  [("id", VInt id); ("reference_id", VInt reference_id); ("started", VInt started)].

Definition metadata_row (id : Z) (title : string) : row :=
  [("id", VInt id); ("title", VText title)].

(** Destination of the merge scenario: history ids 1-3, sequence 3. *)
Definition destination : database :=
  mkDb [("session_history",
         history [history_row 1 1 100; history_row 2 2 200; history_row 3 3 300]);
        ("session_history_metadata",
         metadata [metadata_row 1 "a"; metadata_row 2 "b"; metadata_row 3 "c"])]
       [("session_history", 3%Z)].

(** Source of the merge scenario: history ids 1-2, row 2 refers to row 1. *)
Definition source : database :=
  mkDb [("session_history", history [history_row 1 1 400; history_row 2 1 500]);
        ("session_history_metadata",
         metadata [metadata_row 1 "x"; metadata_row 2 "y"])]
       [("session_history", 2%Z)].

Definition no_fault : nat -> option exn := fun _ => None.

Definition locked : nat -> option exn :=
  fun _ => Some (OperationalError "database is locked").

Definition env_with (python2 : bool) (f : nat -> option exn)
  (files : list (string * database)) (check : list string) : environment :=
  mkEnv python2 f files (fun _ => None) check 5
        (mkDatetime 2020 1 2 3 4 5) (fun _ => false) None false 1 0.

Definition world_of (e : environment) (d : database) (folder : list file)
  : world :=
  mkWorld e d (mkConn d false None 0) 0 1577934245 (Some folder) [] [].

(** A database that another process keeps locked, under Python 2. *)
Definition busy_world : world :=
  world_of (env_with true locked [] ["ok"]) destination [].

(** ** The claims that the code does not meet, as they are stated *)

(** Retry ceiling as specified: five attempts, four sleeps, and then the
    last transient error is raised. *)
Definition retry_ceiling_as_specified (q : stmt) (w : world) : Prop :=
  always_busy 5 w ->
  exists e w' evs,
    action (Some q) w = (Raise e, w') /\
    is_transient e /\
    trace w' = trace w ++ evs /\
    executions evs = 5.

(** ** World after one attempt of [action] *)

(** The attempt failed: the statement was sent and rolled back. *)
Definition failed (q : stmt) (w : world) : world := rollback (sent q w).

(** The attempt met a transient error: warning, one second of sleep. *)
Definition paused (q : stmt) (w : world) : world :=
  snd ((log LWarn "Database Error" ;; sleep 1) (failed q w)).

(** No uncommitted change: the connection sees what the file holds. *)
Definition clean (w : world) : Prop := work (conn w) = disk w.

(** Nobody else disturbs the database file. *)
Definition quiet (w : world) : Prop := forall n, faults (env w) n = None.

(** A users table whose username column is UNIQUE, with one user. *)
Definition users (rows : list row) : table :=
  mkTable ["id"; "user_id"; "username"] "id" true [["username"]] rows.

Definition users_world : world :=
  world_of (env_with true no_fault [] ["ok"])
           (mkDb [("users", users [[("id", VInt 1); ("user_id", VInt 10);
                                    ("username", VText "bob")]])]
                 [("users", 1%Z)]) [].

(** ** Notions for the backup *)

(** World after [MonitorDatabase()] when nothing fails. *)
Definition opened (w : world) : world :=
  mkWorld (env w) (disk w) (mkConn (disk w) false None 0) (3 + clock w)
          (epoch w) (backup_dir w) (notify_queue w)
          (trace w ++ [EvExecute (SPragma "synchronous");
                       EvExecute (SPragma "journal_mode");
                       EvExecute (SPragma "cache_size")]).

(** Files that os.remove was called on, and files that were copied. *)
Definition removals (evs : list event) : list file :=
  flat_map (fun ev => match ev with EvRemove f => [f] | _ => [] end) evs.

Definition copies (evs : list event) : list string :=
  flat_map (fun ev => match ev with EvCopy n => [n] | _ => [] end) evs.

Definition scheduled (f : file) : bool := endswith (f_name f) ".sched.db".

(** Modified strictly before [now - BACKUP_DAYS * 86400]. *)
Definition expired (e : environment) (now : Z) (f : file) : bool :=
  (f_mtime f <? now - backup_days e * 86400)%Z.

(** A folder holds at most one file per path. *)
Definition unique_paths (files : list file) : Prop :=
  forall f g, In f files -> In g files -> same_path f g = true -> f = g.

(** p occurs in s. *)
Fixpoint starts_with (p s : string) : bool :=
  match p, s with
  | EmptyString, _ => true
  | String a p', String b s' => Ascii.eqb a b && starts_with p' s'
  | String _ _, EmptyString => false
  end.

Fixpoint contains (p s : string) : bool :=
  starts_with p s ||
  match s with
  | EmptyString => false
  | String _ s' => contains p s'
  end.

(** The name make_backup gives to the file. *)
Definition backup_name (e : environment) (healthy scheduler : bool) : string :=
  ("tautulli.backup-" ++ timestamp (wall e)
   ++ (if healthy then EmptyString else ".corrupt")
   ++ (if scheduler then ".sched.db" else ".db"))%string.

(** [w'] shows the backup the same things as [w]: environment, clock,
    notification queue, folder content, files copied and removed so far. *)
Definition agree (w w' : world) : Prop :=
  env w' = env w /\
  epoch w' = epoch w /\
  notify_queue w' = notify_queue w /\
  folder w' = folder w /\
  copies (trace w') = copies (trace w) /\
  removals (trace w') = removals (trace w).

(** A backup folder with an old scheduled backup, a recent scheduled
    backup and an old manual backup; retention is five days. *)
Definition backup_world : world :=
  world_of (env_with true no_fault [] ["ok"]) destination
    [mkFile [] "tautulli.backup-20191201000000.sched.db" 1575158400;
     mkFile [] "tautulli.backup-20200101000000.sched.db" 1577836800;
     mkFile [] "tautulli.backup-20190101000000.db" 1546300800].

(** A retention of zero days: every scheduled backup written before the
    sweep reads the time is expired. *)
Definition zero_retention_world : world :=
  world_of (mkEnv true no_fault [] (fun _ => None) ["ok"] 0
                  (mkDatetime 2020 1 2 3 4 5) (fun _ => false) None false 1 0)
           destination
           [mkFile [] "tautulli.backup-20190101000000.db" 1546300800].

(** The same database when the integrity check reports a damaged page. *)
Definition corrupt_world : world :=
  world_of (env_with true no_fault [] ["*** in database main ***"; "Page 7 is never used"])
    destination
    [mkFile [] "tautulli.backup-20191201000000.sched.db" 1575158400].

(** The merge scenario: the destination holds history ids 1-3, the file
    import.db holds history ids 1-2 with row 2 referring to row 1. *)
Definition merge_world : world :=
  world_of (env_with true no_fault [("import.db", source)] ["ok"]) destination [].

(** An import whose second table does not fit: the source's notifiers
    table has a column that the destination's lacks. *)
Definition notifiers (cols : list string) (rows : list row) : table :=
  mkTable cols "id" true [] rows.

Definition older_destination : database :=
  mkDb [("users", users [[("id", VInt 1); ("user_id", VInt 10);
                          ("username", VText "bob")]]);
        ("notifiers", notifiers ["id"; "agent"]
                        [[("id", VInt 1); ("agent", VText "email")]])]
       [("users", 1%Z); ("notifiers", 1%Z)].

Definition newer_source : database :=
  mkDb [("users", users [[("id", VInt 1); ("user_id", VInt 20);
                          ("username", VText "alice")];
                         [("id", VInt 2); ("user_id", VInt 30);
                          ("username", VText "carol")]]);
        ("notifiers", notifiers ["id"; "agent"; "label"]
                        [[("id", VInt 1); ("agent", VText "slack");
                          ("label", VText "ops")]])]
       [("users", 2%Z); ("notifiers", 1%Z)].

Definition mismatch_world : world :=
  world_of (env_with true no_fault [("import.db", newer_source)] ["ok"])
           older_destination [].

(** Atomicity as specified: an import that fails leaves the destination
    file as it was. *)
Definition import_atomic_as_specified (database method : option string)
  (backup : bool) (w : world) : Prop :=
  forall e w',
    import_tautulli_db database method backup w = (Raise e, w') ->
    disk w' = disk w.

(** Rows of a table of the database file. *)
Definition rows_of (name : string) (d : database) : list row :=
  match find_table name d with
  | Some t => t_rows t
  | None => []
  end.

(** ** Notions for the transaction behaviour of the import *)

(** A computation that leaves no uncommitted change if it found none. *)
Definition keeps_clean (A : Type) (m : M A) : Prop :=
  forall w r w', clean w -> m w = (r, w') -> clean w'.

(** A computation that never leaves an uncommitted change. *)
Definition makes_clean (A : Type) (m : M A) : Prop :=
  forall w r w', m w = (r, w') -> clean w'.

(** *** The trace and the file

    What one event of the trace does to the database file and to the
    connection.  The module sends four kinds of statement on the
    connection itself: the pragmas of the constructor, BEGIN IMMEDIATE,
    ATTACH and DETACH; they are neither committed nor rolled back.  Every
    other statement goes through [action], whose [with self.connection]
    commits it when it succeeds and rolls it back when it fails, by
    itself.  The first pragma is the first statement of a new connection.
    A copy that succeeds is followed by the rollback of [make_backup].
    The other events leave the database alone. *)

(** Sent on the connection itself, outside [action]. *)
Definition direct (q : stmt) : bool :=
  match q with
  | SPragma _ | SBeginImmediate | SAttach _ | SDetach => true
  | _ => false
  end.

(** The first statement of a new connection. *)
Definition opens_connection (q : stmt) : bool :=
  match q with
  | SPragma name => String.eqb name "synchronous"
  | _ => false
  end.

(** The world once the event is settled: a statement is sent, and
    committed or rolled back if it is one of [action]. *)
Definition settle (ev : event) (w : world) : world :=
  match ev with
  | EvExecute q =>
      let w0 := if opens_connection q then snd (connect w) else w in
      if direct q then snd (conn_execute q w0)
      else snd (with_connection (conn_execute q) w0)
  | EvCopy _ =>
      match copy_fault (env w) with
      | None => rollback w
      | Some _ => w
      end
  | _ => w
  end.

(** The events of a trace, one after the other. *)
Definition replay (evs : list event) (w : world) : world :=
  fold_left (fun w0 ev => settle ev w0) evs w.

(** The two worlds agree on the database: environment, file, connection
    and number of statements sent. *)
Definition same_session (w u : world) : Prop :=
  env w = env u /\ disk w = disk u /\ conn w = conn u /\ clock w = clock u.

(** The file and the connection that a computation leaves are those
    that the replay of its events gives. *)
Definition tracks (A : Type) (m : M A) : Prop :=
  forall w u r w',
    same_session w u -> m w = (r, w') ->
    exists evs, trace w' = trace w ++ evs /\ same_session w' (replay evs u).

(** An event that is not a statement and not a copy. *)
Definition idle (ev : event) : bool :=
  match ev with
  | EvExecute _ | EvCopy _ => false
  | _ => true
  end.

(** ** Notions for the overwrite import *)

(** The row stored for source row [r] under the fresh id [k]: every
    column but the primary key keeps its value. *)
Definition copy_row (t : table) (k : Z) (r : row) : row :=
  map (fun c => (c, if String.eqb c (t_pk t) then VInt k else get c r)) (t_cols t).

(** Copies numbered [k], [k + 1], ... in scan order. *)
Fixpoint renumber (t : table) (k : Z) (rows : list row) : list row :=
  match rows with
  | [] => []
  | r :: rest => copy_row t k r :: renumber t (k + 1) rest
  end.

(** What the destination table must hold after an overwrite import. *)
Definition imported (st : table) : list row := renumber st 1 (t_rows st).

(** Two rows collide on one of the UNIQUE constraints [us]. *)
Definition clash (us : list (list string)) (a b : row) : bool :=
  existsb (fun u => forallb (fun c => sql_true (sql_eq (get c a) (get c b))) u) us.

(** No row collides with a row before it ([seen] and the earlier rows). *)
Fixpoint unique_ok (us : list (list string)) (seen rows : list row) : bool :=
  match rows with
  | [] => true
  | r :: rest => negb (existsb (clash us r) seen) && unique_ok us (seen ++ [r]) rest
  end.

(** The destination table [dt] has the schema of the source table [st],
    which is a proper table: its primary key is one of its columns, it has
    another column, and its rows respect its UNIQUE constraints. *)
Definition fits (dt st : table) : Prop :=
  t_cols dt = t_cols st /\
  t_pk dt = t_pk st /\
  t_unique dt = t_unique st /\
  mem (t_pk st) (t_cols st) = true /\
  filter (fun c => negb (String.eqb c (t_pk st))) (t_cols st) <> [] /\
  unique_ok (t_unique st) [] (t_rows st) = true.

(** Identical schema: every table that the import copies exists in the
    destination [d] with the schema it has in the source [src]. *)
Definition same_schema (d src : database) : Prop :=
  forall n st,
    find_table n src = Some st ->
    like_sqlite_ n = false ->
    n <> "sessions" ->
    exists dt, find_table n d = Some dt /\ fits dt st.

(** The connection of a running import: nothing disturbs it, the source
    is attached and no transaction is open. *)
Definition ready (src : database) (w : world) : Prop :=
  quiet w /\ attached (conn w) = Some src /\ in_txn (conn w) = false.

(** The rows that PRAGMA table_info returns for a table. *)
Definition table_info (t : table) : list row :=
  map (fun col => [("name", VText col);
                   ("pk", VInt (if String.eqb col (t_pk t) then 1 else 0))])
      (t_cols t).

(** The columns that the import copies. *)
Definition import_columns_of (t : table) : list string :=
  filter (fun c => negb (String.eqb c (t_pk t))) (t_cols t).

(** Table [n] of [d] holds the renumbered rows of the source table [st]. *)
Definition replaced (st : table) (n : string) (d : database) : Prop :=
  exists dt, find_table n d = Some dt /\ t_rows dt = imported st.

(** The overwrite scenario: a table with ten rows in the destination and
    three rows in the source. *)
Definition ten_rows : list row :=
  map (fun i => metadata_row i "old") [1; 2; 3; 4; 5; 6; 7; 8; 9; 10]%Z.

Definition three_rows : list row :=
  [metadata_row 4 "x"; metadata_row 7 "y"; metadata_row 9 "z"].

Definition overwrite_world : world :=
  world_of (env_with true no_fault
              [("import.db", mkDb [("session_history_metadata", metadata three_rows)] [])]
              ["ok"])
           (mkDb [("session_history_metadata", metadata ten_rows)] []) [].

(** The overwrite scenario when another process holds the lock during
    the five attempts of the DELETE (the statements 7 to 11 of the run),
    under Python 2. *)
Definition locked_delete : nat -> option exn :=
  fun n => if ((7 <=? n) && (n <? 12))%nat
           then Some (OperationalError "database is locked") else None.

Definition locked_delete_world : world :=
  world_of (env_with true locked_delete
              [("import.db", mkDb [("session_history_metadata", metadata three_rows)] [])]
              ["ok"])
           (mkDb [("session_history_metadata", metadata ten_rows)] []) [].

(** What one turn of the import loop logs and sends for table [n], in
    overwrite mode. *)
Definition table_events (n : string) (st : table) : list event :=
  [EvLog LInfo "Importing database table";
   EvExecute (SDeleteAll n);
   EvExecute (SDeleteSeq n);
   EvExecute (STableInfo n);
   EvExecute (SInsertOrIgnoreImport n (import_columns_of st))].

Definition loop_events (src : database) (n : string) : list event :=
  if String.eqb n "sessions" then []
  else match find_table n src with
       | Some st => table_events n st
       | None => []
       end.

(** ** Notions for the names and values that SQLite takes as they are *)

(** The module splices the names of tables and columns into the text of
    its statements, and SQLite matches them without regard to case.  A
    plain name is a name that the text denotes as it stands: lower-case
    letters, digits and underscores, not starting with a digit, not a word
    of the SQL language, and not the name of one of SQLite's own tables. *)
Definition is_lower (c : ascii) : bool :=
  let n := nat_of_ascii c in ((97 <=? n) && (n <=? 122))%nat.

Definition name_char (c : ascii) : bool :=
  is_lower c || is_digit c || Ascii.eqb c "_".

Fixpoint all_chars (p : ascii -> bool) (s : string) : bool :=
  match s with
  | EmptyString => true
  | String c rest => p c && all_chars p rest
  end.

(** The keywords of SQLite, and the names that it gives a meaning of its
    own where a column is expected. *)
Definition keywords : list string :=
  ["abort"; "action"; "add"; "after"; "all"; "alter"; "always"; "analyze";
   "and"; "as"; "asc"; "attach"; "autoincrement"; "before"; "begin";
   "between"; "by"; "cascade"; "case"; "cast"; "check"; "collate"; "column";
   "commit"; "conflict"; "constraint"; "create"; "cross"; "current";
   "current_date"; "current_time"; "current_timestamp"; "database";
   "default"; "deferrable"; "deferred"; "delete"; "desc"; "detach";
   "distinct"; "do"; "drop"; "each"; "else"; "end"; "escape"; "except";
   "exclude"; "exclusive"; "exists"; "explain"; "fail"; "filter"; "first";
   "following"; "for"; "foreign"; "from"; "full"; "generated"; "glob";
   "group"; "groups"; "having"; "if"; "ignore"; "immediate"; "in"; "index";
   "indexed"; "initially"; "inner"; "insert"; "instead"; "intersect"; "into";
   "is"; "isnull"; "join"; "key"; "last"; "left"; "like"; "limit"; "match";
   "materialized"; "natural"; "no"; "not"; "nothing"; "notnull"; "null";
   "nulls"; "of"; "offset"; "on"; "or"; "order"; "others"; "outer"; "over";
   "partition"; "plan"; "pragma"; "preceding"; "primary"; "query"; "raise";
   "range"; "recursive"; "references"; "regexp"; "reindex"; "release";
   "rename"; "replace"; "restrict"; "returning"; "right"; "rollback"; "row";
   "rows"; "savepoint"; "select"; "set"; "table"; "temp"; "temporary";
   "then"; "ties"; "to"; "transaction"; "trigger"; "unbounded"; "union";
   "unique"; "update"; "using"; "vacuum"; "values"; "view"; "virtual";
   "when"; "where"; "window"; "with"; "without"].

Definition special_names : list string :=
  ["true"; "false"; "rowid"; "oid"; "_rowid_"].

Definition plain_name (s : string) : bool :=
  match s with
  | EmptyString => false
  | String c _ =>
      negb (is_digit c) && all_chars name_char s
      && negb (mem s keywords) && negb (mem s special_names)
      && negb (starts_with "sqlite_" s)
  end.

(** A database whose tables and columns have plain names: a plain name
    that is not the name of one of its tables is the name of no table. *)
Definition plain_schema (d : database) : bool :=
  forallb (fun nt => plain_name (fst nt) && forallb plain_name (t_cols (snd nt)))
          (tables d).


Definition is_ascii (c : ascii) : bool := (nat_of_ascii c <? 128)%nat.






(** The values can be bound to the parameters of one statement. *)
Definition binds (e : environment) (vs : list value) : bool :=
  (List.length vs <=? max_variables e)%nat && forallb fits_sqlite vs.

(** str(x) of an identifier made of ASCII characters: both interpreters
    agree on it, and str.isdigit looks for the digits 0 to 9 only. *)
Definition ascii_text (s : string) : bool := all_chars is_ascii s.

(** ** Notions for the idempotence of upsert *)

(** The row carries the key: the key columns hold the key values. *)
Definition has_key (key_dict : row) (r : row) : bool :=
  forallb (fun kv => value_eqb (get (fst kv) r) (snd kv)) key_dict.

(** [n] calls of upsert in a row, with their results. *)
Fixpoint repeat_upsert (n : nat) (table_name : string) (value_dict key_dict : row)
  : M (list string) :=
  match n with
  | O => ret []
  | S n' =>
      r <- upsert table_name value_dict key_dict ;;
      rs <- repeat_upsert n' table_name value_dict key_dict ;;
      ret (r :: rs)
  end.



(** ** A lock that goes away *)

(** The file is locked for the first two statements sent. *)
Definition busy_twice : nat -> option exn :=
  fun n => if (n <? 2)%nat then Some (OperationalError "database is locked") else None.

(** ** Notions for the deletion of history *)

(** The row's id is one of [ids]: SQL [id IN (?, ..., ?)]. *)
Definition listed (ids : list value) (r : row) : bool :=
  sql_true (sql_in (get "id" r) ids).

(** DELETE ... WHERE id IN (...) can run on table [t]: the table exists
    and has a column id. *)
Definition deletable (t : string) (d : database) : bool :=
  match find_table t d with
  | Some tb => mem "id" (t_cols tb)
  | None => false
  end.

(** The database without the rows of [t] whose id is listed. *)
Definition purge (t : string) (ids : list value) (d : database) : database :=
  match find_table t d with
  | Some tb =>
      if mem "id" (t_cols tb)
      then put_table t
             (with_rows tb (filter (fun r => negb (listed ids r)) (t_rows tb))) d
      else d
  | None => d
  end.


(** What the two deletions of history do once the identifier has passed
    the test: the connection is set up, the rows are selected with
    [query], their ids are read, the message is logged, and the three
    tables are deleted from with these ids, one after the other; [b] is
    the conjunction of the three results and [w'] the world at the end. *)
Definition history_deletion (cast_ids : string -> list value) (query : stmt)
  (msg : string) (b : bool) (w w' : world) : Prop :=
  exists w1 rows w2 ids s1 w3 s2 w4 s3,
    MonitorDatabase w = (Ret tt, w1) /\
    select query w1 = (Ret rows, w2) /\
    for_each (getitem "id") rows w2 = (Ret ids, w2) /\
    delete_rows_from_table cast_ids "session_history" (IdsList ids)
      (snd (log LInfo msg w2)) = (Ret s1, w3) /\
    delete_rows_from_table cast_ids "session_history_media_info" (IdsList ids) w3
    = (Ret s2, w4) /\
    delete_rows_from_table cast_ids "session_history_metadata" (IdsList ids) w4
    = (Ret s3, w') /\
    b = s1 && s2 && s3.


(** A history database with its two side tables. *)
Definition media_info (rows : list row) : table :=
  mkTable ["id"; "video_codec"] "id" false [] rows.

Definition watched (rows : list row) : table :=
  mkTable ["id"; "user_id"; "started"] "id" true [] rows.

Definition watched_row (id user_id started : Z) : row :=
  [("id", VInt id); ("user_id", VInt user_id); ("started", VInt started)].

Definition history_db : database :=
  mkDb [("session_history",
         watched [watched_row 1 10 100; watched_row 2 20 200;
                  watched_row 3 10 300; watched_row 4 30 400]);
        ("session_history_media_info",
         media_info [[("id", VInt 1); ("video_codec", VText "avc")];
                     [("id", VInt 2); ("video_codec", VText "hevc")];
                     [("id", VInt 3); ("video_codec", VText "avc")];
                     [("id", VInt 4); ("video_codec", VText "mpeg")]]);
        ("session_history_metadata",
         metadata [metadata_row 1 "a"; metadata_row 2 "b";
                   metadata_row 3 "c"; metadata_row 4 "d"])]
       [("session_history", 4%Z)].

Definition history_world : world :=
  world_of (env_with true no_fault [] ["ok"]) history_db [].



Definition sectioned (rows : list row) : table :=
  mkTable ["id"; "section_id"] "id" false [] rows.

Definition library_world : world :=
  world_of (env_with true no_fault [] ["ok"])
    (mkDb [("session_history",
            watched [watched_row 1 10 100; watched_row 2 20 200;
                     watched_row 3 10 300]);
           ("session_history_media_info",
            media_info [[("id", VInt 1); ("video_codec", VText "avc")];
                        [("id", VInt 2); ("video_codec", VText "hevc")];
                        [("id", VInt 3); ("video_codec", VText "avc")]]);
           ("session_history_metadata",
            sectioned [[("id", VInt 1); ("section_id", VInt 7)];
                       [("id", VInt 2); ("section_id", VInt 8)];
                       [("id", VInt 3); ("section_id", VInt 7)]])]
          [("session_history", 3%Z)]) [].

(** ** Notions for clearing a table *)

(** The connection can be set up, and from then on the file stays locked
    for the next [n] statements. *)
Definition locked_after_connect (n : nat) (w : world) : Prop :=
  (forall i, i < 3 -> faults (env w) (clock w + i) = None) /\
  (forall i, i < n ->
     exists e, faults (env w) (clock w + 3 + i) = Some e /\ is_transient e).

Definition locked_later : nat -> option exn :=
  fun n => if (n <? 3)%nat then None
           else Some (OperationalError "database is locked").

(** A database with the two tables that the application clears. *)
Definition sessions_db : database :=
  mkDb [("sessions", mkTable ["id"; "session_key"] "id" true []
                       [[("id", VInt 1); ("session_key", VText "a")];
                        [("id", VInt 2); ("session_key", VText "b")]]);
        ("recently_added", mkTable ["id"; "rating_key"] "id" true []
                             [[("id", VInt 1); ("rating_key", VInt 77)]]);
        ("users", users [[("id", VInt 1); ("user_id", VInt 10);
                          ("username", VText "bob")]])]
       [("sessions", 2%Z); ("recently_added", 1%Z); ("users", 1%Z)].

Definition sessions_world : world :=
  world_of (env_with true no_fault [] ["ok"]) sessions_db [].

(** ** Notions for computations that do not write *)

(** A computation that writes nothing to the database file: started
    without uncommitted change it ends without one, the file as it was
    (and the environment is the one it started in). *)
Definition keeps_file (A : Type) (m : M A) : Prop :=
  forall w r w', clean w -> m w = (r, w') ->
    clean w' /\ disk w' = disk w /\ env w' = env w.

(** The same from any state of the connection. *)
Definition leaves_file (A : Type) (m : M A) : Prop :=
  forall w r w', m w = (r, w') ->
    clean w' /\ disk w' = disk w /\ env w' = env w.

(** A statement for which the engine changes no table. *)
Definition reads_only (q : stmt) : Prop :=
  forall e c rows c', engine e q c = inr (rows, c') -> work c' = work c.

(** ** Notions for the entry checks of the import *)

(** sqlite3.connect can open the file to import. *)
Definition opens (database : option string) (w : world) : bool :=
  match database with
  | Some path =>
      match connect_fault (env w) path with Some _ => false | None => true end
  | None => false
  end.

(** [method in ('merge', 'overwrite')] *)
Definition valid_method (method : option string) : bool :=
  match method with
  | Some m => mem m ["merge"; "overwrite"]
  | None => false
  end.

(** A file that cannot be opened as a database. *)
Definition unreadable_world : world :=
  world_of (mkEnv true no_fault []
                  (fun _ => Some (OperationalError "unable to open database file"))
                  ["ok"] 5 (mkDatetime 2020 1 2 3 4 5) (fun _ => false) None
                  false 1 0)
           destination [].

(** ** More import scenarios *)

(** A destination that never stored a history row. *)
Definition fresh_world : world :=
  world_of (env_with true no_fault [("import.db", source)] ["ok"])
           (mkDb [("session_history", history [])] []) [].

(** The overwrite scenario with a table that the source does not have and
    a sessions table on both sides. *)
Definition partial_overwrite_world : world :=
  world_of (env_with true no_fault
              [("import.db",
                mkDb [("session_history_metadata", metadata three_rows);
                      ("sessions", metadata [metadata_row 1 "theirs"])] [])]
              ["ok"])
           (mkDb [("session_history_metadata", metadata ten_rows);
                  ("sessions", metadata [metadata_row 1 "ours"]);
                  ("users", users [[("id", VInt 1); ("user_id", VInt 10);
                                    ("username", VText "bob")]])]
                 [("users", 1%Z)]) [].

(** ** Notions for the row factory *)

(** Position of the last occurrence of a column name. *)
Fixpoint last_index (col : string) (description : list string) : option nat :=
  match description with
  | [] => None
  | c :: rest =>
      match last_index col rest with
      | Some i => Some (S i)
      | None => if String.eqb c col then Some 0 else None
      end
  end.

(** ** Notions for the writes of upsert *)


(** * Properties *)

Unset Implicit Arguments.

(** ** What the binding lets through *)

Lemma engine_done (e : environment) (s : stmt) (c : connection)
  (out : list row * connection) :
  engine e s c = inr out -> perform e s c = inr out.
Proof. unfold engine. now destruct (refused e s). Qed.

Lemma not_refused (e : environment) (s : stmt) :
  List.length (bound s) <= max_variables e ->
  forallb fits_sqlite (bound s) = true ->
  refused e s = None.
Proof.
  unfold refused. intros Hn Hv.
  replace (max_variables e <? List.length (bound s))%nat with false
    by (symmetry; apply Nat.ltb_ge; lia).
  now rewrite Hv.
Qed.

Lemma engine_accepts (e : environment) (s : stmt) (c : connection) :
  List.length (bound s) <= max_variables e ->
  forallb fits_sqlite (bound s) = true ->
  engine e s c = perform e s c.
Proof. intros Hn Hv. unfold engine. now rewrite (not_refused e s Hn Hv). Qed.



Lemma refused_binds (e : environment) (s : stmt) :
  refused e s = if binds e (bound s) then None
                else if (max_variables e <? List.length (bound s))%nat
                     then Some (OperationalError "too many SQL variables")
                     else Some OverflowError.
Proof.
  unfold refused, binds.
  destruct (Nat.ltb_spec (max_variables e) (List.length (bound s))) as [H|H].
  - replace (List.length (bound s) <=? max_variables e)%nat with false
      by (symmetry; apply Nat.leb_gt; exact H).
    reflexivity.
  - replace (List.length (bound s) <=? max_variables e)%nat with true
      by (symmetry; apply Nat.leb_le; exact H).
    cbn [andb]. now destruct (forallb fits_sqlite (bound s)).
Qed.

Lemma engine_binds (e : environment) (s : stmt) (c : connection) :
  binds e (bound s) = true -> engine e s c = perform e s c.
Proof. intros H. unfold engine. now rewrite refused_binds, H. Qed.


(** A statement whose parameters are one text, or none. *)
Ltac accepted :=
  rewrite engine_accepts;
  [ cbn [perform]
  | cbn [bound List.length]; unfold max_variables; lia
  | reflexivity ].

(** ** The retrying executor *)

Lemma retry_busy (n : nat) (q : stmt) :
  forall w, py2 (env w) = true -> always_busy n w ->
    exists w',
      retry n q w = (Ret None, w') /\
      env w' = env w /\
      disk w' = disk w /\
      clock w' = clock w + n /\
      trace w' = trace w ++ repeat_events n (failed_attempt q).
Proof.
  induction n as [|n IH]; intros w Hpy Hbusy.
  - exists w. cbn. rewrite Nat.add_0_r, app_nil_r. auto.
  - destruct (Hbusy 0 (Nat.lt_0_succ n)) as [e [Hf He]].
    rewrite Nat.add_0_r in Hf.
    set (w1 := mkWorld (env w) (disk w)
                 (mkConn (disk w) false (attached (conn w)) (total_changes (conn w)))
                 (S (clock w)) (epoch w + 1) (backup_dir w) (notify_queue w)
                 (trace w ++ failed_attempt q)).
    assert (Hstep : retry (S n) q w = retry n q w1).
    { cbn [retry]. unfold try_except, bind, with_connection, conn_execute.
      rewrite Hf. cbn [rollback sent env disk conn clock epoch backup_dir notify_queue trace].
      destruct He as [-> | ->];
        change (env (rollback (sent q w))) with (env w); rewrite Hpy; cbn;
        unfold w1, failed_attempt; repeat rewrite <- app_assoc; reflexivity. }
    destruct (IH w1) as [w' [Hr [Henv [Hdisk [Hclock Htrace]]]]].
    + exact Hpy.
    + intros i Hi. destruct (Hbusy (S i)) as [e' [Hf' He']]; [lia|].
      exists e'. split; [|exact He'].
      cbn [w1 env clock]. rewrite <- Hf'. f_equal. lia.
    + exists w'. rewrite Hstep. repeat split; try assumption.
      * rewrite Hclock. cbn. lia.
      * rewrite Htrace. cbn [w1 trace repeat_events]. now rewrite <- app_assoc.
Qed.

(** C2 (as stated, refuted).  On a database that stays locked, [action]
    does not raise after its fifth attempt: it returns None. *)
Lemma retry_ceiling_not_raised :
  ~ retry_ceiling_as_specified SVacuum busy_world.
Proof.
  intros H.
  destruct H as [e [w' [evs [Hrun _]]]].
  - intros i _. exists (OperationalError "database is locked").
    split; [reflexivity | right; reflexivity].
  - vm_compute in Hrun. discriminate Hrun.
Qed.

(** C2 (amended).  When every attempt meets a transient error (and the
    handler's membership test is Python 2's), [action] makes exactly five
    attempts, sleeps one second after each of them, five seconds in all,
    and then returns None: nothing is raised, and nothing is written. *)
Theorem action_gives_up_after_five (q : stmt) (w : world) :
  py2 (env w) = true ->
  always_busy 5 w ->
  exists w' evs,
    action (Some q) w = (Ret None, w') /\
    trace w' = trace w ++ evs /\
    evs = repeat_events 5 (failed_attempt q) /\
    executions evs = 5 /\
    seconds_slept evs = 5 /\
    disk w' = disk w.
Proof.
  intros Hpy Hbusy.
  destruct (retry_busy 5 q w Hpy Hbusy) as [w' [Hr [_ [Hdisk [_ Htrace]]]]].
  exists w', (repeat_events 5 (failed_attempt q)).
  repeat split; assumption.
Qed.

Lemma action_gives_up_after_five_witness :
  exists w' evs,
    action (Some SVacuum) busy_world = (Ret None, w') /\
    trace w' = trace busy_world ++ evs /\
    evs = repeat_events 5 (failed_attempt SVacuum) /\
    executions evs = 5 /\
    seconds_slept evs = 5 /\
    disk w' = disk busy_world.
Proof.
  apply (action_gives_up_after_five SVacuum busy_world).
  - reflexivity.
  - intros i _. exists (OperationalError "database is locked").
    split; [reflexivity | right; reflexivity].
Defined.

(** One turn of the loop of [action]: the statement succeeds and is
    committed, or an exception leaves the loop after the rollback, or the
    loop goes on after a pause. *)
Lemma retry_step (n : nat) (q : stmt) (w : world) :
  (exists rows c',
      faults (env w) (clock w) = None /\
      engine (env w) q (conn w) = inr (rows, c') /\
      retry (S n) q w = (Ret (Some rows), commit (set_conn c' (sent q w))))
  \/ (exists e w',
         retry (S n) q w = (Raise e, w') /\
         (w' = failed q w \/ exists msg, w' = snd (log LError msg (failed q w))))
  \/ retry (S n) q w = retry n q (paused q w).
Proof.
  cbn [retry]. unfold try_except, bind, with_connection, conn_execute.
  destruct (faults (env w) (clock w)) as [e|] eqn:Hf.
  - right.
    destruct e as [msg|msg|msg|k| | | |msg| ];
      try (left; eexists; eexists; split; [reflexivity|];
           first [left; reflexivity | right; eexists; reflexivity]).
    change (env (rollback (sent q w))) with (env w).
    unfold transient_test.
    destruct (py2 (env w)).
    + destruct (String.eqb "unable to open database file" msg || String.eqb "database is locked" msg).
      * right. reflexivity.
      * left. eexists; eexists; split; [reflexivity|]. right; eexists; reflexivity.
    + left. eexists; eexists; split; [reflexivity|]. left; reflexivity.
  - destruct (engine (env w) q (conn w)) as [e|[rows c']] eqn:He.
    + right.
      destruct e as [msg|msg|msg|k| | | |msg| ];
        try (left; eexists; eexists; split; [reflexivity|];
             first [left; reflexivity | right; eexists; reflexivity]).
      change (env (rollback (sent q w))) with (env w).
      unfold transient_test.
      destruct (py2 (env w)).
      * destruct (String.eqb "unable to open database file" msg || String.eqb "database is locked" msg).
        -- right. reflexivity.
        -- left. eexists; eexists; split; [reflexivity|]. right; eexists; reflexivity.
      * left. eexists; eexists; split; [reflexivity|]. left; reflexivity.
    + left. exists rows, c'. repeat split.
Qed.

Lemma paused_facts (q : stmt) (w : world) :
  env (paused q w) = env w /\
  disk (paused q w) = disk w /\
  work (conn (paused q w)) = disk w /\
  total_changes (conn (paused q w)) = total_changes (conn w) /\
  trace (paused q w) = trace w ++ failed_attempt q.
Proof.
  unfold paused, failed, failed_attempt. cbn.
  repeat split. now rewrite <- !app_assoc.
Qed.

(** Whatever happens, [action] leaves no uncommitted change behind. *)
Lemma retry_clean (n : nat) (q : stmt) :
  forall w r w', n <> 0 -> retry n q w = (r, w') -> clean w'.
Proof.
  induction n as [|n IH]; intros w r w' Hn Hrun; [congruence|].
  destruct (retry_step n q w) as [[rows [c' [_ [_ H]]]] | [[e [w1 [H Hw]]] | H]];
    rewrite H in Hrun.
  - inversion Hrun; subst. reflexivity.
  - inversion Hrun; subst. destruct Hw as [-> | [msg ->]]; reflexivity.
  - destruct n as [|n].
    + unfold retry, ret in Hrun. inversion Hrun; subst.
      unfold clean. destruct (paused_facts q w) as [_ [Hd [Hw _]]].
      now rewrite Hd, Hw.
    + eapply IH; [discriminate | exact Hrun].
Qed.

Lemma action_clean (q : stmt) (w : world) (r : result (option (list row)))
  (w' : world) :
  action (Some q) w = (r, w') -> clean w'.
Proof. apply retry_clean. discriminate. Qed.

(** A statement that raises, or that is given up, leaves the file as it
    was. *)
Lemma retry_keeps_disk (n : nat) (q : stmt) :
  forall w r w',
    retry n q w = (r, w') ->
    (forall rows, r <> Ret (Some rows)) ->
    disk w' = disk w.
Proof.
  induction n as [|n IH]; intros w r w' Hrun Hr.
  - cbn in Hrun. inversion Hrun; subst. reflexivity.
  - destruct (retry_step n q w) as [[rows [c' [_ [_ H]]]] | [[e [w1 [H Hw]]] | H]];
      rewrite H in Hrun.
    + inversion Hrun; subst. now elim (Hr rows).
    + inversion Hrun; subst. destruct Hw as [-> | [msg ->]]; reflexivity.
    + rewrite (IH _ _ _ Hrun Hr). now destruct (paused_facts q w) as [_ [-> _]].
Qed.

(** The statements that [action] sends are copies of its query, and it
    sends at least one. *)
Lemma retry_trace (n : nat) (q : stmt) :
  forall w, exists evs,
    trace (snd (retry n q w)) = trace w ++ evs /\
    (forall s, In (EvExecute s) evs -> s = q) /\
    (n <> 0 -> exists evs', evs = EvExecute q :: evs').
Proof.
  induction n as [|n IH]; intros w.
  - exists []. cbn. rewrite app_nil_r. repeat split; [intros s []|congruence].
  - destruct (retry_step n q w) as [[rows [c' [_ [_ H]]]] | [[e [w1 [H Hw]]] | H]];
      rewrite H.
    + exists [EvExecute q]. cbn. repeat split.
      * intros s [Hs|[]]. congruence.
      * intros _. now exists [].
    + destruct Hw as [-> | [msg ->]].
      * exists [EvExecute q]. cbn. repeat split.
        -- intros s [Hs|[]]. congruence.
        -- intros _. now exists [].
      * exists [EvExecute q; EvLog LError msg]. cbn. rewrite <- app_assoc.
        repeat split.
        -- intros s [Hs|[Hs|[]]]; congruence.
        -- intros _. now eexists.
    + destruct (IH (paused q w)) as [evs [Ht [Hall _]]].
      destruct (paused_facts q w) as [_ [_ [_ [_ Hp]]]].
      exists (failed_attempt q ++ evs). rewrite Ht, Hp, <- app_assoc.
      repeat split.
      * intros s Hs. apply in_app_or in Hs. destruct Hs as [Hs|Hs]; [|auto].
        cbn in Hs. destruct Hs as [Hs|[Hs|[Hs|[]]]]; congruence.
      * intros _. now eexists.
Qed.

(** ** upsert *)

Lemma assoc_set_same (A : Type) (k : string) (v : A) (l : list (string * A)) :
  lookup k l = Some v -> assoc_set k v l = l.
Proof.
  induction l as [|[k' v'] l IH]; cbn; [discriminate|].
  destruct (String.eqb k' k) eqn:Hk.
  - intros H. inversion H; subst. apply String.eqb_eq in Hk. now subst.
  - intros H. now rewrite IH.
Qed.

Lemma put_table_same (name : string) (t : table) (d : database) :
  find_table name d = Some t -> put_table name (with_rows t (t_rows t)) d = d.
Proof.
  intros H. unfold put_table.
  replace (with_rows t (t_rows t)) with t by now destruct t.
  unfold find_table in H. rewrite (assoc_set_same _ _ _ _ H). now destruct d.
Qed.

(** An UPDATE counts the rows it visits and selects; when it counts none
    the rows are as before. *)
Lemma update_rows_count (t : table) (sel : row -> bool) (f : row -> row) :
  forall todo done k rows n,
    update_rows t sel f done todo k = inr (rows, n) ->
    k <= n /\ (n = k -> rows = done ++ todo).
Proof.
  induction todo as [|r todo IH]; intros done k rows n H; cbn in H.
  - inversion H; subst. rewrite app_nil_r. auto.
  - destruct (sel r).
    + destruct (get (t_pk t) (f r)); try discriminate.
      destruct (conflicts t (done ++ todo) (f r)); try discriminate.
      apply IH in H. destruct H as [Hle _]. split; lia.
    + apply IH in H. destruct H as [Hle Heq]. split; [exact Hle|].
      intros Hn. rewrite (Heq Hn), <- app_assoc. reflexivity.
Qed.

Lemma engine_update_nothing (e : environment) (t : string) (vd kd : row)
  (c c' : connection) (rows : list row) :
  engine e (SUpdate t vd kd) c = inr (rows, c') ->
  total_changes c' = total_changes c ->
  work c' = work c.
Proof.
  intros Hrun. apply engine_done in Hrun. revert Hrun. cbn [perform].
  destruct vd as [|v vd]; [discriminate|].
  destruct kd as [|k kd]; [discriminate|].
  destruct (find_table t (work c)) as [tb|] eqn:Ht; [|discriminate].
  destruct (missing_column _ tb); [discriminate|].
  destruct (update_rows tb _ _ [] (t_rows tb) 0) as [x|[rows' n]] eqn:Hu;
    [discriminate|].
  intros H Hc. inversion H; subst. cbn in Hc.
  apply update_rows_count in Hu. destruct Hu as [_ Hu].
  assert (n = 0) by lia. subst n. rewrite (Hu eq_refl). cbn.
  now apply put_table_same.
Qed.

(** An UPDATE that [action] completes without moving the counter of
    changes has left the database file as it was. *)
Lemma retry_update_nothing (t : string) (vd kd : row) (n : nat) :
  forall w r1 w1,
    clean w ->
    retry n (SUpdate t vd kd) w = (Ret r1, w1) ->
    total_changes (conn w1) = total_changes (conn w) ->
    disk w1 = disk w.
Proof.
  induction n as [|n IH]; intros w r1 w1 Hclean Hrun Hc.
  - cbn in Hrun. inversion Hrun; subst. reflexivity.
  - destruct (retry_step n (SUpdate t vd kd) w)
      as [[rows [c' [_ [He H]]]] | [[e [w' [H Hw]]] | H]]; rewrite H in Hrun.
    + inversion Hrun; subst. cbn in Hc |- *.
      rewrite (engine_update_nothing _ _ _ _ _ _ _ He Hc). exact Hclean.
    + discriminate.
    + destruct (paused_facts (SUpdate t vd kd) w) as [_ [Hd [Hw [Ht _]]]].
      rewrite (IH _ _ _ (eq_trans Hw (eq_sym Hd)) Hrun); [exact Hd | congruence].
Qed.

(** C4.  [upsert] sends the UPDATE first.  When the UPDATE returns, the
    INSERT of the value and key fields is sent if and only if the
    connection's counter of changes did not move, and then the result is
    'insert', otherwise it is 'update'; an IntegrityError of the INSERT is
    caught (the hypothesis on the INSERT lets it raise nothing else). *)
Theorem upsert_update_then_insert (t : string) (vd kd : row) (w : world)
  (r1 : option (list row)) (w1 : world) :
  action (Some (SUpdate t vd kd)) w = (Ret r1, w1) ->
  (forall e, fst (action (Some (SInsert t (vd ++ kd))) w1) = Raise e ->
             exists msg, e = IntegrityError msg) ->
  exists evs,
    trace (snd (upsert t vd kd w)) = trace w ++ EvExecute (SUpdate t vd kd) :: evs /\
    (In (EvExecute (SInsert t (vd ++ kd))) evs <->
     total_changes (conn w1) = total_changes (conn w)) /\
    (total_changes (conn w1) = total_changes (conn w) ->
     fst (upsert t vd kd w) = Ret "insert") /\
    (total_changes (conn w1) <> total_changes (conn w) ->
     fst (upsert t vd kd w) = Ret "update").
Proof.
  intros Hupd Hins.
  destruct (retry_trace 5 (SUpdate t vd kd) w) as [evs1 [Ht1 [Hall1 Hfirst1]]].
  destruct Hfirst1 as [evs1' ->]; [discriminate|].
  change (retry 5 (SUpdate t vd kd) w) with (action (Some (SUpdate t vd kd)) w) in Ht1.
  rewrite Hupd in Ht1. cbn [snd] in Ht1.
  unfold upsert, bind. rewrite Hupd.
  destruct (Nat.eqb (total_changes (conn w1)) (total_changes (conn w))) eqn:Hc.
  - apply Nat.eqb_eq in Hc.
    destruct (retry_trace 5 (SInsert t (vd ++ kd)) w1) as [evs2 [Ht2 [_ Hfirst2]]].
    destruct Hfirst2 as [evs2' ->]; [discriminate|].
    change (retry 5 (SInsert t (vd ++ kd)) w1)
      with (action (Some (SInsert t (vd ++ kd))) w1) in Ht2.
    unfold try_except.
    destruct (action (Some (SInsert t (vd ++ kd))) w1) as [[r2|e] w2] eqn:Hrun;
      cbn [fst snd] in *.
    + exists (evs1' ++ EvExecute (SInsert t (vd ++ kd)) :: evs2').
      cbn. rewrite Ht2, Ht1, <- app_assoc. cbn.
      repeat split; auto.
      * intros _. apply in_or_app. right. now left.
      * intros Hn. now elim Hn.
    + destruct (Hins e eq_refl) as [msg ->].
      exists (evs1' ++ EvExecute (SInsert t (vd ++ kd)) :: evs2'
              ++ [EvLog LInfo "Queries failed"]).
      cbn. rewrite Ht2, Ht1, <- !app_assoc. cbn.
      repeat split; auto.
      * intros _. apply in_or_app. right. now left.
      * intros Hn. now elim Hn.
  - apply Nat.eqb_neq in Hc.
    exists evs1'. cbn. rewrite Ht1. repeat split; auto.
    + intros Hin. specialize (Hall1 _ (or_intror Hin)). discriminate.
    + intros Heq. now elim Hc.
    + intros Heq. now elim Hc.
Qed.

(** C9.  When the UPDATE changed nothing and the INSERT raises an
    IntegrityError, [upsert] still answers 'insert' although the database
    holds what it held before the call. *)
Theorem upsert_insert_without_write (t : string) (vd kd : row) (w : world)
  (r1 : option (list row)) (w1 : world) (msg : string) (w2 : world) :
  clean w ->
  action (Some (SUpdate t vd kd)) w = (Ret r1, w1) ->
  total_changes (conn w1) = total_changes (conn w) ->
  action (Some (SInsert t (vd ++ kd))) w1 = (Raise (IntegrityError msg), w2) ->
  fst (upsert t vd kd w) = Ret "insert" /\
  disk (snd (upsert t vd kd w)) = disk w /\
  work (conn (snd (upsert t vd kd w))) = disk w.
Proof.
  intros Hclean Hupd Hc Hins.
  assert (Hd1 : disk w1 = disk w)
    by exact (retry_update_nothing t vd kd 5 w r1 w1 Hclean Hupd Hc).
  assert (Hd2 : disk w2 = disk w1).
  { apply (retry_keeps_disk 5 _ _ _ _ Hins). intros rows. discriminate. }
  pose proof (action_clean _ _ _ _ Hins) as Hclean2.
  unfold upsert, bind, try_except. rewrite Hupd.
  apply Nat.eqb_eq in Hc. rewrite Hc. rewrite Hins. cbn.
  repeat split; congruence.
Qed.

Lemma upsert_update_then_insert_witness :
  exists evs,
    trace (snd (upsert "users" [("username", VText "bobby")] [("user_id", VInt 10)]
                       users_world))
    = trace users_world
      ++ EvExecute (SUpdate "users" [("username", VText "bobby")] [("user_id", VInt 10)])
      :: evs /\
    fst (upsert "users" [("username", VText "bobby")] [("user_id", VInt 10)] users_world)
    = Ret "update".
Proof.
  destruct (upsert_update_then_insert "users"
              [("username", VText "bobby")] [("user_id", VInt 10)] users_world
              (Some [])
              (snd (action (Some (SUpdate "users" [("username", VText "bobby")]
                                          [("user_id", VInt 10)])) users_world)))
    as [evs [Ht [_ [_ Hupd]]]].
  - vm_compute. reflexivity.
  - intros e H. vm_compute in H. inversion H. eexists. reflexivity.
  - exists evs. split; [exact Ht|]. apply Hupd. intros H. vm_compute in H. discriminate H.
Defined.

Lemma upsert_insert_without_write_witness :
  fst (upsert "users" [("username", VText "bob")] [("user_id", VInt 20)] users_world)
  = Ret "insert" /\
  disk (snd (upsert "users" [("username", VText "bob")] [("user_id", VInt 20)]
                    users_world)) = disk users_world /\
  work (conn (snd (upsert "users" [("username", VText "bob")] [("user_id", VInt 20)]
                          users_world))) = disk users_world.
Proof.
  apply (upsert_insert_without_write "users"
           [("username", VText "bob")] [("user_id", VInt 20)] users_world
           (Some [])
           (snd (action (Some (SUpdate "users" [("username", VText "bob")]
                                       [("user_id", VInt 20)])) users_world))
           "UNIQUE constraint failed"
           (snd (action (Some (SInsert "users" [("username", VText "bob");
                                                ("user_id", VInt 20)]))
                        (snd (action (Some (SUpdate "users" [("username", VText "bob")]
                                                    [("user_id", VInt 20)]))
                                     users_world))))).
  - reflexivity.
  - vm_compute. reflexivity.
  - vm_compute. reflexivity.
  - vm_compute. reflexivity.
Defined.

(** ** Deleting history *)

Lemma bind_ret_eq (A B : Type) (m : M A) (k : A -> M B) (w w1 : world) (a : A) :
  m w = (Ret a, w1) -> bind m k w = k a w1.
Proof. unfold bind. now intros ->. Qed.

Lemma bind_ret_inv (A B : Type) (m : M A) (k : A -> M B) (w w' : world) (b : B) :
  bind m k w = (Ret b, w') ->
  exists a w1, m w = (Ret a, w1) /\ k a w1 = (Ret b, w').
Proof.
  unfold bind. destruct (m w) as [[a|e] w1]; [|discriminate].
  intros H. now exists a, w1.
Qed.

Lemma delete_session_history_rows_all (cast_ids : string -> list value)
  (row_ids : row_ids_arg) (w w' : world) (b : bool) :
  delete_session_history_rows cast_ids row_ids w = (Ret b, w') ->
  exists s1 w1 s2 w2 s3,
    delete_rows_from_table cast_ids "session_history" row_ids w = (Ret s1, w1) /\
    delete_rows_from_table cast_ids "session_history_media_info" row_ids w1
    = (Ret s2, w2) /\
    delete_rows_from_table cast_ids "session_history_metadata" row_ids w2
    = (Ret s3, w') /\
    b = s1 && s2 && s3.
Proof.
  unfold delete_session_history_rows. intros H.
  apply bind_ret_inv in H. destruct H as [s1 [w1 [H1 H]]].
  apply bind_ret_inv in H. destruct H as [s2 [w2 [H2 H]]].
  apply bind_ret_inv in H. destruct H as [s3 [w3 [H3 H]]].
  unfold ret in H. inversion H; subst.
  exists s1, w1, s2, w2, s3. repeat split; try assumption.
  cbn. now destruct s1, s2, s3.
Qed.

Lemma for_each_getitem_world (k : string) (rows : list row) :
  forall w r w', for_each (getitem k) rows w = (r, w') -> w' = w.
Proof.
  induction rows as [|x rows IH]; intros w r w' H.
  - now inversion H.
  - cbn [for_each] in H. unfold bind at 1, getitem at 1 in H.
    destruct (lookup k x) as [v|].
    + unfold ret at 1 in H. unfold bind at 1 in H.
      destruct (for_each (getitem k) rows w) as [[ys|e] w1] eqn:Hrun.
      * pose proof (IH _ _ _ Hrun). unfold ret in H. inversion H; congruence.
      * pose proof (IH _ _ _ Hrun). inversion H; congruence.
    + now inversion H.
Qed.

(** The run of the two functions behind the test of the identifier. *)
Lemma history_deletion_run (cast_ids : string -> list value) (query : stmt)
  (msg : string) (b : bool) (w w' : world) :
  (MonitorDatabase ;;
   result <- select query ;;
   row_ids <- for_each (getitem "id") result ;;
   log LInfo msg ;;
   b <- delete_session_history_rows cast_ids (IdsList row_ids) ;;
   ret (Some b)) w = (Ret (Some b), w')
  <-> history_deletion cast_ids query msg b w w'.
Proof.
  split.
  - intros H.
    apply bind_ret_inv in H. destruct H as [[] [w1 [H1 H]]].
    apply bind_ret_inv in H. destruct H as [rows [w2 [H2 H]]].
    apply bind_ret_inv in H. destruct H as [ids [w2' [H3 H]]].
    pose proof (for_each_getitem_world _ _ _ _ _ H3). subst w2'.
    apply bind_ret_inv in H. destruct H as [[] [wl [Hl H]]].
    apply bind_ret_inv in H. destruct H as [b' [we [H Hret]]].
    unfold ret in Hret. inversion Hret; subst.
    inversion Hl; subst.
    apply delete_session_history_rows_all in H.
    destruct H as [s1 [w3 [s2 [w4 [s3 [D1 [D2 [D3 Hb]]]]]]]].
    now exists w1, rows, w2, ids, s1, w3, s2, w4, s3.
  - intros [w1 [rows [w2 [ids [s1 [w3 [s2 [w4 [s3
             [H1 [H2 [H3 [D1 [D2 [D3 Hb]]]]]]]]]]]]]]].
    rewrite (bind_ret_eq _ _ _ _ _ _ _ H1), (bind_ret_eq _ _ _ _ _ _ _ H2),
      (bind_ret_eq _ _ _ _ _ _ _ H3).
    rewrite (bind_ret_eq _ _ (log LInfo msg) _ w2 (snd (log LInfo msg w2)) tt eq_refl).
    unfold delete_session_history_rows.
    unfold bind at 1.
    rewrite (bind_ret_eq _ _ _ _ _ _ _ D1), (bind_ret_eq _ _ _ _ _ _ _ D2),
      (bind_ret_eq _ _ _ _ _ _ _ D3).
    unfold ret. subst b. cbn [forallb]. now rewrite andb_true_r, andb_assoc.
Qed.

(** C10.  For an identifier whose str() is made of ASCII characters:
    when it is not a string of digits both functions return None at once,
    the world untouched (no statement is sent).  A boolean comes back
    exactly when the identifier is a string of digits and the connection
    can be set up, the rows selected and the three deletions run; it is
    then the conjunction of the results of the three per-table deletions
    of the ids that the SELECT returned for this identifier, run one after
    the other from the world that the SELECT and the message left. *)
Theorem delete_history_numeric_only (cast_ids : string -> list value)
  (id : pyval) (w : world) :
  ascii_text (py_str id) = true ->
  (isdigit (py_str id) = false ->
   delete_user_history cast_ids id w = (Ret None, w) /\
   delete_library_history cast_ids id w = (Ret None, w)) /\
  (forall b w',
     delete_user_history cast_ids id w = (Ret (Some b), w') <->
     isdigit (py_str id) = true /\
     history_deletion cast_ids (SSelectIdsByUser (to_value id))
       "Deleting all history for user_id from database." b w w') /\
  (forall b w',
     delete_library_history cast_ids id w = (Ret (Some b), w') <->
     isdigit (py_str id) = true /\
     history_deletion cast_ids (SSelectIdsBySection (to_value id))
       "Deleting all history for library section_id from database." b w w').
Proof.
  intros _. unfold delete_user_history, delete_library_history.
  destruct (isdigit (py_str id)).
  - split; [discriminate|]. split; intros b w'.
    + rewrite history_deletion_run. tauto.
    + rewrite history_deletion_run. tauto.
  - split; [split; reflexivity|]. split; intros b w'.
    + split; [discriminate | intros [H _]; discriminate H].
    + split; [discriminate | intros [H _]; discriminate H].
Qed.

Lemma delete_history_numeric_only_witness :
  (delete_user_history (fun _ => []) (PyStr "bob") history_world
   = (Ret None, history_world) /\
   delete_library_history (fun _ => []) PyNone history_world
   = (Ret None, history_world)) /\
  history_deletion (fun _ => []) (SSelectIdsByUser (VInt 10))
    "Deleting all history for user_id from database." true history_world
    (snd (delete_user_history (fun _ => []) (PyInt 10) history_world)) /\
  history_deletion (fun _ => []) (SSelectIdsBySection (VInt 7))
    "Deleting all history for library section_id from database." true library_world
    (snd (delete_library_history (fun _ => []) (PyInt 7) library_world)).
Proof.
  split; [split|split].
  - apply (delete_history_numeric_only (fun _ => []) (PyStr "bob") history_world);
      reflexivity.
  - apply (delete_history_numeric_only (fun _ => []) PyNone history_world);
      reflexivity.
  - apply (delete_history_numeric_only (fun _ => []) (PyInt 10) history_world
             eq_refl).
    vm_compute. reflexivity.
  - apply (delete_history_numeric_only (fun _ => []) (PyInt 7) library_world
             eq_refl).
    vm_compute. reflexivity.
Defined.

(** ** Runs that nothing disturbs *)

Lemma quiet_env (w w' : world) : env w' = env w -> quiet w -> quiet w'.
Proof. intros He Hq n. rewrite He. apply Hq. Qed.

Lemma conn_execute_quiet (s : stmt) (w : world) (rows : list row) (c' : connection) :
  quiet w ->
  engine (env w) s (conn w) = inr (rows, c') ->
  conn_execute s w = (Ret rows, set_conn c' (sent s w)).
Proof. intros Hq He. unfold conn_execute. now rewrite Hq, He. Qed.

Lemma MonitorDatabase_quiet (w : world) :
  quiet w -> MonitorDatabase w = (Ret tt, opened w).
Proof.
  intros Hq. unfold MonitorDatabase, bind, connect, conn_execute. cbn.
  rewrite !Hq. unfold opened, ret, set_conn, sent. cbn.
  now rewrite <- !app_assoc.
Qed.

Lemma action_quiet (q : stmt) (w : world) (rows : list row) (c' : connection) :
  quiet w ->
  engine (env w) q (conn w) = inr (rows, c') ->
  action (Some q) w = (Ret (Some rows), commit (set_conn c' (sent q w))).
Proof.
  intros Hq He. cbn [action retry].
  unfold try_except, bind, with_connection, conn_execute. now rewrite Hq, He.
Qed.

Lemma select_quiet (q : stmt) (w : world) (rows : list row) (c' : connection) :
  quiet w ->
  engine (env w) q (conn w) = inr (rows, c') ->
  select q w = (Ret rows, commit (set_conn c' (sent q w))).
Proof.
  intros Hq He. unfold select.
  now rewrite (bind_ret_eq _ _ _ _ _ _ _ (action_quiet q w rows c' Hq He)).
Qed.

Lemma select_single_quiet (q : stmt) (w : world) (rows : list row) (c' : connection) :
  quiet w ->
  engine (env w) q (conn w) = inr (rows, c') ->
  select_single q w
  = (Ret (match rows with [] => [] | r :: _ => r end),
     commit (set_conn c' (sent q w))).
Proof.
  intros Hq He. unfold select_single.
  rewrite (bind_ret_eq _ _ _ _ _ _ _ (action_quiet q w rows c' Hq He)).
  now destruct rows.
Qed.

(** ** Backup *)

Lemma removals_app (a b : list event) :
  removals (a ++ b) = removals a ++ removals b.
Proof. apply flat_map_app. Qed.

Lemma copies_app (a b : list event) :
  copies (a ++ b) = copies a ++ copies b.
Proof. apply flat_map_app. Qed.

Lemma filter_twice (A : Type) (p q : A -> bool) (l : list A) :
  filter p (filter q l) = filter (fun x => q x && p x) l.
Proof.
  induction l as [|x l IH]; cbn; [reflexivity|].
  destruct (q x); cbn; [destruct (p x)|]; now rewrite IH.
Qed.

(** The sweep never fails; a file leaves the folder exactly when a
    candidate with its path is expired and can be deleted; os.remove is
    called on the expired candidates, one after the other. *)
Lemma sweep_spec (now : Z) (cands : list file) :
  forall w, exists w',
    sweep now cands w = (Ret tt, w') /\
    env w' = env w /\
    notify_queue w' = notify_queue w /\
    folder w'
    = filter (fun g =>
                negb (existsb (fun f => same_path g f && expired (env w) now f
                                        && negb (undeletable (env w) f)) cands))
             (folder w) /\
    removals (trace w') = removals (trace w) ++ filter (expired (env w) now) cands /\
    copies (trace w') = copies (trace w).
Proof.
  induction cands as [|f cands IH]; intros w.
  - exists w. cbn. rewrite !app_nil_r. repeat split.
    induction (folder w) as [|g l IHl]; cbn; [reflexivity|]. now rewrite <- IHl.
  - cbn [sweep]. unfold bind at 1.
    change (f_mtime f <? now - backup_days (env w) * 86400)%Z
      with (expired (env w) now f).
    cbn [existsb filter].
    destruct (expired (env w) now f) eqn:Hold.
    + unfold try_except, os_remove, bind, emit.
      cbn [env disk conn clock epoch backup_dir notify_queue trace].
      destruct (undeletable (env w) f) eqn:Hund.
      * cbn [is_OSError log emit].
        match goal with |- context [sweep now cands ?w1] =>
          destruct (IH w1) as [w' [Hrun [He [Hn [Hf [Hr Hc]]]]]] end.
        exists w'. cbn in He, Hn, Hf, Hr, Hc. rewrite Hrun.
        repeat split; try assumption.
        -- rewrite Hf. apply filter_ext. intros g.
           now rewrite andb_false_r.
        -- rewrite Hr, !removals_app. cbn. now rewrite app_nil_r, <- app_assoc.
        -- rewrite Hc, !copies_app. cbn. now rewrite !app_nil_r.
      * match goal with |- context [sweep now cands ?w1] =>
          destruct (IH w1) as [w' [Hrun [He [Hn [Hf [Hr Hc]]]]]] end.
        exists w'. cbn in He, Hn, Hf, Hr, Hc. rewrite Hrun.
        repeat split; try assumption.
        -- rewrite Hf. unfold folder at 1. cbn [backup_dir set_backup_dir].
           rewrite filter_twice. apply filter_ext. intros g.
           rewrite !andb_true_r. now rewrite negb_orb.
        -- rewrite Hr, !removals_app. cbn. now rewrite <- app_assoc.
        -- rewrite Hc, !copies_app. cbn. now rewrite !app_nil_r.
    + destruct (IH w) as [w' [Hrun [He [Hn [Hf [Hr Hc]]]]]].
      exists w'. rewrite Hrun. repeat split; try assumption.
      rewrite Hf. apply filter_ext. intros g. now rewrite andb_false_r.
Qed.

Lemma agree_refl (w : world) : agree w w.
Proof. repeat split. Qed.

Lemma agree_trans (w1 w2 w3 : world) : agree w1 w2 -> agree w2 w3 -> agree w1 w3.
Proof.
  unfold agree. intros [A1 [A2 [A3 [A4 [A5 A6]]]]] [B1 [B2 [B3 [B4 [B5 B6]]]]].
  repeat split; congruence.
Qed.

Lemma agree_quiet (w w' : world) : agree w w' -> quiet w -> quiet w'.
Proof. intros [He _] Hq n. rewrite He. apply Hq. Qed.

Lemma agree_opened (w : world) : agree w (opened w).
Proof.
  unfold agree, opened, folder. cbn.
  rewrite copies_app, removals_app. cbn. rewrite !app_nil_r. repeat split.
Qed.

Lemma agree_sent (q : stmt) (c : connection) (w : world) :
  agree w (set_conn c (sent q w)).
Proof.
  unfold agree, folder. cbn.
  rewrite copies_app, removals_app. cbn. rewrite !app_nil_r. repeat split.
Qed.

Lemma agree_commit (w : world) : agree w (commit w).
Proof. repeat split. Qed.

Lemma agree_rollback (w : world) : agree w (rollback w).
Proof. repeat split. Qed.

Lemma agree_log (lvl : level) (msg : string) (w : world) :
  agree w (snd (log lvl msg w)).
Proof.
  unfold agree, folder. cbn.
  rewrite copies_app, removals_app. cbn. rewrite !app_nil_r. repeat split.
Qed.

Lemma integrity_check_quiet (w : world) (m : string) (rest : list string) :
  quiet w ->
  integrity (env w) = m :: rest ->
  exists w1,
    integrity_check w = (Ret [("integrity_check", VText m)], w1) /\ agree w w1.
Proof.
  intros Hq Hint. unfold integrity_check.
  rewrite (bind_ret_eq _ _ _ _ _ _ _ (MonitorDatabase_quiet w Hq)).
  rewrite (select_single_quiet SIntegrityCheck (opened w)
             (map (fun x => [("integrity_check", VText x)]) (integrity (env w)))
             (conn (opened w)) Hq eq_refl).
  rewrite Hint. eexists. split; [reflexivity|].
  eapply agree_trans; [apply agree_opened|].
  eapply agree_trans; [apply (agree_sent SIntegrityCheck (conn (opened w)))|].
  apply agree_commit.
Qed.

Lemma ensure_folder_agree (w : world) :
  exists w1, ensure_folder w = (Ret tt, w1) /\ agree w w1.
Proof.
  unfold ensure_folder. destruct (backup_dir w) eqn:Hb.
  - exists w. split; [reflexivity | apply agree_refl].
  - eexists. split; [reflexivity|]. unfold agree, folder. cbn. rewrite Hb.
    repeat split.
Qed.

Lemma begin_quiet (w : world) :
  quiet w ->
  exists w1, conn_execute SBeginImmediate (opened w) = (Ret [], w1) /\ agree w w1.
Proof.
  intros Hq. eexists. split.
  - apply (conn_execute_quiet SBeginImmediate (opened w)); [exact Hq | reflexivity].
  - eapply agree_trans; [apply agree_opened | apply agree_sent].
Qed.

Lemma elapsed_bounds (e : environment) : (1 <= elapsed e <= 86400)%Z.
Proof. unfold elapsed. lia. Qed.

Lemma copyfile_spec (name : string) (w : world) :
  copy_fault (env w) = None ->
  exists w1,
    copyfile name w = (Ret tt, w1) /\
    env w1 = env w /\ epoch w1 = (epoch w + elapsed (env w))%Z /\
    notify_queue w1 = notify_queue w /\
    folder w1 = copied name w /\
    copies (trace w1) = copies (trace w) ++ [name] /\
    removals (trace w1) = removals (trace w).
Proof.
  intros Hc. unfold copyfile, bind, emit.
  cbn [env disk conn clock epoch backup_dir notify_queue trace]. rewrite Hc.
  eexists. split; [reflexivity|]. unfold written, copied, folder.
  cbn [env disk conn clock epoch backup_dir notify_queue trace].
  rewrite copies_app, removals_app. cbn [copies removals flat_map].
  rewrite !app_nil_r. repeat split.
Qed.

(** What [make_backup] does when no statement fails and the copy goes
    through; [m] is the first line of the integrity report. *)
Lemma make_backup_quiet (cleanup scheduler : bool) (w : world)
  (m : string) (rest : list string) :
  quiet w ->
  copy_fault (env w) = None ->
  integrity (env w) = m :: rest ->
  let healthy := String.eqb m "ok" in
  let name := backup_name (env w) healthy scheduler in
  let now := (epoch w + elapsed (env w))%Z in
  let kept (g : file) :=
    negb (existsb (fun f => same_path g f && expired (env w) now f
                            && negb (undeletable (env w) f))
                  (filter scheduled (copied name w))) in
  exists w',
    make_backup cleanup scheduler w = (Ret (mem name (listdir (folder w'))), w') /\
    notify_queue w'
    = notify_queue w ++ (if healthy then [] else ["on_plexpydbcorrupt"]) /\
    copies (trace w') = copies (trace w) ++ [name] /\
    folder w'
    = (if cleanup && healthy then filter kept (copied name w) else copied name w) /\
    removals (trace w')
    = removals (trace w)
      ++ (if cleanup && healthy
          then filter (expired (env w) now) (filter scheduled (copied name w))
          else []).
Proof.
  intros Hq Hcopy Hint healthy name now kept.
  unfold make_backup.
  destruct (integrity_check_quiet w m rest Hq Hint) as [w1 [Hrun1 Ha1]].
  rewrite (bind_ret_eq _ _ _ _ _ _ _ Hrun1).
  cbn [getitem lookup String.eqb Ascii.eqb Bool.eqb].
  unfold bind at 1, ret at 1. cbn [value_eqb]. fold healthy.
  assert (Hname : forall stamp corrupt,
             stamp = timestamp (wall (env w)) ->
             corrupt = (if healthy then EmptyString else ".corrupt") ->
             (if scheduler
              then ("tautulli.backup-" ++ stamp ++ corrupt ++ ".sched.db")%string
              else ("tautulli.backup-" ++ stamp ++ corrupt ++ ".db")%string) = name).
  { intros stamp corrupt -> ->. unfold name, backup_name. now destruct scheduler. }
  clearbody healthy.
  destruct Ha1 as [He1 [Hep1 [Hn1 [Hf1 [Hc1 Hr1]]]]].
  assert (Hcor : exists w2,
             (if negb healthy
              then notify "on_plexpydbcorrupt" ;; ret ".corrupt"
              else ret EmptyString) w1
             = (Ret (if healthy then EmptyString else ".corrupt"), w2) /\
             env w2 = env w /\ epoch w2 = epoch w /\
             notify_queue w2
             = notify_queue w ++ (if healthy then [] else ["on_plexpydbcorrupt"]) /\
             folder w2 = folder w /\
             copies (trace w2) = copies (trace w) /\
             removals (trace w2) = removals (trace w)).
  { destruct healthy; cbn [negb].
    - exists w1. rewrite app_nil_r. repeat split; assumption.
    - eexists. split; [reflexivity|]. unfold folder in *. cbn.
      rewrite copies_app, removals_app. cbn. rewrite !app_nil_r.
      repeat split; congruence. }
  destruct Hcor as [w2 [Hrun2 [He2 [Hep2 [Hn2 [Hf2 [Hc2 Hr2]]]]]]].
  rewrite (bind_ret_eq _ _ _ _ _ _ _ Hrun2).
  unfold bind at 1. cbv beta iota.
  rewrite (Hname _ _ (f_equal (fun e => timestamp (wall e)) He2) eq_refl).
  clear Hname.
  destruct (ensure_folder_agree w2) as [w3 [Hrun3 [He3 [Hep3 [Hn3 [Hf3 [Hc3 Hr3]]]]]]].
  rewrite (bind_ret_eq _ _ _ _ _ _ _ Hrun3).
  assert (Hq3 : quiet w3) by (intros n; rewrite He3, He2; apply Hq).
  rewrite (bind_ret_eq _ _ _ _ _ _ _ (MonitorDatabase_quiet w3 Hq3)).
  destruct (begin_quiet w3 Hq3) as [w4 [Hrun4 [He4 [Hep4 [Hn4 [Hf4 [Hc4 Hr4]]]]]]].
  rewrite (bind_ret_eq _ _ _ _ _ _ _ Hrun4).
  assert (Hcf : copy_fault (env w4) = None) by (rewrite He4, He3, He2; exact Hcopy).
  destruct (copyfile_spec name w4 Hcf)
    as [w5 [Hrun5 [He5 [Hep5 [Hn5 [Hf5 [Hc5 Hr5]]]]]]].
  rewrite (bind_ret_eq _ _ _ _ _ _ _ Hrun5).
  unfold bind at 1. cbv beta iota.
  assert (Hcopied : copied name w4 = copied name w).
  { unfold copied. now rewrite Hf4, Hf3, Hf2, Hep4, Hep3, Hep2. }
  assert (Hsweep : exists w6,
             (if cleanup && healthy
              then now <- (fun w0 : world => (Ret (epoch w0), w0)) ;;
                   files <- (fun w0 : world => (Ret (folder w0), w0)) ;;
                   sweep now (filter (fun f => endswith (f_name f) ".sched.db") files)
              else ret tt) (rollback w5) = (Ret tt, w6) /\
             notify_queue w6 = notify_queue w5 /\
             copies (trace w6) = copies (trace w5) /\
             folder w6
             = (if cleanup && healthy then filter kept (copied name w)
                else copied name w) /\
             removals (trace w6)
             = removals (trace w5)
               ++ (if cleanup && healthy
                   then filter (expired (env w) now)
                               (filter scheduled (copied name w))
                   else [])).
  { destruct (cleanup && healthy).
    - destruct (sweep_spec (epoch (rollback w5))
                  (filter scheduled (folder (rollback w5))) (rollback w5))
        as [w6 [Hrun6 [He6 [Hn6 [Hf6 [Hr6 Hc6]]]]]].
      exists w6. split; [exact Hrun6|].
      change (folder (rollback w5)) with (folder w5) in *.
      change (env (rollback w5)) with (env w5) in *.
      change (epoch (rollback w5)) with (epoch w5) in *.
      change (trace (rollback w5)) with (trace w5) in *.
      change (notify_queue (rollback w5)) with (notify_queue w5) in *.
      rewrite Hf5, Hcopied in Hf6, Hr6.
      assert (Henv : env w5 = env w) by congruence.
      assert (Hepoch : epoch w5 = now) by (unfold now; congruence).
      rewrite Henv, Hepoch in Hf6, Hr6.
      repeat split; assumption.
    - exists (rollback w5). rewrite app_nil_r.
      repeat split. change (folder (rollback w5)) with (folder w5).
      now rewrite Hf5.  }
  destruct Hsweep as [w6 [Hrun6 [Hn6 [Hc6 [Hf6 Hr6]]]]].
  rewrite (bind_ret_eq _ _ _ _ _ _ _ Hrun6).
  unfold bind at 1. cbv beta iota.
  assert (Hnq : notify_queue w6
                = notify_queue w ++ (if healthy then [] else ["on_plexpydbcorrupt"]))
    by congruence.
  assert (Hcp : copies (trace w6) = copies (trace w) ++ [name]) by congruence.
  assert (Hrm : removals (trace w6)
                = removals (trace w)
                  ++ (if cleanup && healthy
                      then filter (expired (env w) now)
                                  (filter scheduled (copied name w))
                      else [])) by congruence.
  destruct (mem name (listdir (folder w6))) eqn:Hmem.
  - exists (snd (log LDebug "Successfully backed up" w6)).
    destruct (agree_log LDebug "Successfully backed up" w6)
      as [_ [_ [Hn7 [Hf7 [Hc7 Hr7]]]]].
    rewrite Hf7, Hmem, Hn7, Hc7, Hr7. repeat split; assumption.
  - exists (snd (log LError "Failed to backup" w6)).
    destruct (agree_log LError "Failed to backup" w6)
      as [_ [_ [Hn7 [Hf7 [Hc7 Hr7]]]]].
    rewrite Hf7, Hmem, Hn7, Hc7, Hr7. repeat split; assumption.
Qed.

Lemma mem_In (c : string) (l : list string) : mem c l = true <-> In c l.
Proof.
  unfold mem. rewrite existsb_exists. split.
  - intros [x [Hx He]]. apply String.eqb_eq in He. now subst.
  - intros H. exists c. split; [exact H | apply String.eqb_refl].
Qed.

Lemma is_digit_digit (n : nat) : is_digit (digit n) = true.
Proof.
  unfold is_digit, digit.
  assert (Hlt : n mod 10 < 10) by (apply Nat.mod_upper_bound; discriminate).
  rewrite nat_ascii_embedding by lia.
  apply andb_true_iff. split; apply Nat.leb_le; lia.
Qed.

Lemma all_digits_timestamp (t : datetime) : all_digits (timestamp t) = true.
Proof.
  unfold timestamp, pad4, pad2. cbn [append all_digits].
  now rewrite !is_digit_digit.
Qed.

Lemma contains_after_digits (s rest : string) :
  all_digits s = true ->
  contains ".corrupt" (s ++ rest) = contains ".corrupt" rest.
Proof.
  induction s as [|c s IH]; [reflexivity|].
  cbn [all_digits]. intros H. apply andb_true_iff in H. destruct H as [Hc Hs].
  cbn [append contains starts_with]. rewrite (IH Hs).
  destruct (Ascii.eqb_spec "."%char c) as [<-|_]; [discriminate Hc | reflexivity].
Qed.

(** The '.corrupt' infix is in the name exactly when the check failed. *)
Lemma backup_name_corrupt (e : environment) (healthy scheduler : bool) :
  contains ".corrupt" (backup_name e healthy scheduler) = negb healthy.
Proof.
  unfold backup_name.
  pose proof (all_digits_timestamp (wall e)) as Hs.
  set (s := timestamp (wall e)) in *. clearbody s.
  cbn [append contains starts_with Ascii.eqb Bool.eqb andb orb].
  rewrite (contains_after_digits _ _ Hs).
  now destruct healthy, scheduler.
Qed.

(** C8.  When no statement fails and the copy goes through, the file
    that [make_backup] produces carries '.corrupt' in its name if and only
    if the first line of the integrity report is not 'ok'; in that case
    one corruption notification is enqueued, otherwise none; and the
    result is True if and only if the name is in the final listing of the
    backup folder. *)
Theorem make_backup_name_and_result (cleanup scheduler : bool) (w : world)
  (m : string) (rest : list string) :
  quiet w ->
  copy_fault (env w) = None ->
  integrity (env w) = m :: rest ->
  exists name b w',
    make_backup cleanup scheduler w = (Ret b, w') /\
    copies (trace w') = copies (trace w) ++ [name] /\
    (contains ".corrupt" name = true <-> m <> "ok") /\
    notify_queue w'
    = notify_queue w ++ (if String.eqb m "ok" then [] else ["on_plexpydbcorrupt"]) /\
    (b = true <-> In name (listdir (folder w'))).
Proof.
  intros Hq Hcopy Hint.
  destruct (make_backup_quiet cleanup scheduler w m rest Hq Hcopy Hint)
    as [w' [Hrun [Hn [Hc _]]]].
  exists (backup_name (env w) (String.eqb m "ok") scheduler),
         (mem (backup_name (env w) (String.eqb m "ok") scheduler) (listdir (folder w'))),
         w'.
  repeat split; try assumption.
  - rewrite backup_name_corrupt. intros H Hm. subst m. discriminate H.
  - rewrite backup_name_corrupt. intros H.
    destruct (String.eqb_spec m "ok"); [contradiction | reflexivity].
  - apply mem_In.
  - apply mem_In.
Qed.

Lemma make_backup_name_and_result_witness :
  exists name b w',
    make_backup false false corrupt_world = (Ret b, w') /\
    copies (trace w') = copies (trace corrupt_world) ++ [name] /\
    (contains ".corrupt" name = true <-> "*** in database main ***" <> "ok") /\
    notify_queue w'
    = notify_queue corrupt_world
      ++ (if String.eqb "*** in database main ***" "ok"
          then [] else ["on_plexpydbcorrupt"]) /\
    (b = true <-> In name (listdir (folder w'))).
Proof.
  apply (make_backup_name_and_result false false corrupt_world
           "*** in database main ***" ["Page 7 is never used"]).
  - intros n. reflexivity.
  - reflexivity.
  - reflexivity.
Defined.

Lemma same_path_refl (f : file) : same_path f f = true.
Proof.
  unfold same_path. destruct (list_eq_dec string_dec (f_dir f) (f_dir f)).
  - apply String.eqb_refl.
  - congruence.
Qed.

Lemma unique_paths_copied (name : string) (w : world) :
  unique_paths (folder w) -> unique_paths (copied name w).
Proof.
  intros Hu f g Hf Hg Hsame. unfold copied in Hf, Hg.
  apply in_app_or in Hf. apply in_app_or in Hg.
  assert (Hnew : forall x, In x (filter (fun f => negb (top_level name f)) (folder w)) ->
                           same_path x (mkFile [] name (epoch w)) = false).
  { intros x Hx. apply filter_In in Hx. destruct Hx as [_ Hx].
    unfold top_level in Hx. unfold same_path. cbn.
    destruct (list_eq_dec string_dec (f_dir x) []) as [E|E]; [|reflexivity].
    rewrite E in Hx. now apply negb_true_iff in Hx. }
  assert (Hsym : forall x y, same_path x y = true -> same_path y x = true).
  { intros x y. unfold same_path.
    destruct (list_eq_dec string_dec (f_dir x) (f_dir y)) as [E|E]; [|discriminate].
    destruct (list_eq_dec string_dec (f_dir y) (f_dir x)) as [E'|E']; [|congruence].
    now rewrite String.eqb_sym. }
  destruct Hf as [Hf|[<-|[]]], Hg as [Hg|[<-|[]]].
  - apply filter_In in Hf, Hg. apply Hu; tauto.
  - rewrite (Hnew _ Hf) in Hsame. discriminate.
  - apply Hsym in Hsame. rewrite (Hnew _ Hg) in Hsame. discriminate.
  - reflexivity.
Qed.

(** C7.  When no statement fails and the copy goes through: with cleanup
    requested and a healthy database, os.remove is called on exactly the
    files below the backup folder whose name ends in '.sched.db' and whose
    modification time is strictly before now - BACKUP_DAYS * 86400, and
    each of them leaves the folder unless its removal fails; every other
    file stays.  Without cleanup, or when the integrity check failed,
    nothing is removed.  Here now is the time read after the copy, which
    is later than the modification time of the copy: the folder swept is
    the one that holds the new backup, and the new backup is judged like
    every other file. *)
Theorem make_backup_sweep (cleanup scheduler : bool) (w : world)
  (m : string) (rest : list string) :
  quiet w ->
  copy_fault (env w) = None ->
  integrity (env w) = m :: rest ->
  unique_paths (folder w) ->
  exists name b w',
    make_backup cleanup scheduler w = (Ret b, w') /\
    copies (trace w') = copies (trace w) ++ [name] /\
    removals (trace w')
    = removals (trace w)
      ++ (if cleanup && String.eqb m "ok"
          then filter (fun f => scheduled f
                                && expired (env w) (epoch w + elapsed (env w)) f)
                      (copied name w)
          else []) /\
    folder w'
    = (if cleanup && String.eqb m "ok"
       then filter (fun f => negb (scheduled f
                                   && expired (env w) (epoch w + elapsed (env w)) f)
                             || undeletable (env w) f)
                   (copied name w)
       else copied name w).
Proof.
  intros Hq Hcopy Hint Hu.
  destruct (make_backup_quiet cleanup scheduler w m rest Hq Hcopy Hint)
    as [w' [Hrun [_ [Hc [Hf Hr]]]]].
  set (name := backup_name (env w) (String.eqb m "ok") scheduler) in *.
  exists name, (mem name (listdir (folder w'))), w'.
  repeat split; try assumption.
  - rewrite Hr. destruct (cleanup && String.eqb m "ok"); [|reflexivity].
    now rewrite filter_twice.
  - rewrite Hf. destruct (cleanup && String.eqb m "ok"); [|reflexivity].
    apply filter_ext_in. intros g Hg.
    assert (Hex : existsb (fun f => same_path g f
                                    && expired (env w) (epoch w + elapsed (env w)) f
                                    && negb (undeletable (env w) f))
                          (filter scheduled (copied name w))
                  = scheduled g && expired (env w) (epoch w + elapsed (env w)) g
                    && negb (undeletable (env w) g)).
    { apply eq_true_iff_eq. rewrite existsb_exists. split.
      - intros [f [Hfin Hp]]. apply filter_In in Hfin. destruct Hfin as [Hfin Hs].
        apply andb_true_iff in Hp. destruct Hp as [Hp Hd].
        apply andb_true_iff in Hp. destruct Hp as [Hsame He].
        assert (g = f) by (apply (unique_paths_copied name w Hu); assumption).
        subst f. now rewrite Hs, He, Hd.
      - intros Hp. exists g.
        apply andb_true_iff in Hp. destruct Hp as [Hp Hd].
        apply andb_true_iff in Hp. destruct Hp as [Hs He].
        split; [apply filter_In; now split|].
        now rewrite same_path_refl, He, Hd. }
    rewrite Hex.
    now destruct (scheduled g), (expired (env w) (epoch w + elapsed (env w)) g),
      (undeletable (env w) g).
Qed.

Lemma make_backup_sweep_witness :
  exists name b w',
    make_backup true true backup_world = (Ret b, w') /\
    copies (trace w') = copies (trace backup_world) ++ [name] /\
    removals (trace w')
    = removals (trace backup_world)
      ++ (if true && String.eqb "ok" "ok"
          then filter (fun f => scheduled f
                                && expired (env backup_world)
                                           (epoch backup_world
                                            + elapsed (env backup_world)) f)
                      (copied name backup_world)
          else []) /\
    folder w'
    = (if true && String.eqb "ok" "ok"
       then filter (fun f => negb (scheduled f
                                   && expired (env backup_world)
                                           (epoch backup_world
                                            + elapsed (env backup_world)) f)
                             || undeletable (env backup_world) f)
                   (copied name backup_world)
       else copied name backup_world).
Proof.
  apply (make_backup_sweep true true backup_world "ok" []).
  - intros n. reflexivity.
  - reflexivity.
  - reflexivity.
  - intros f g Hf Hg Hs.
    destruct Hf as [<-|[<-|[<-|[]]]], Hg as [<-|[<-|[<-|[]]]];
      try reflexivity; vm_compute in Hs; discriminate Hs.
Defined.

(** With a retention of zero days the sweep removes the scheduled backup
    that the same call has just made, and the call returns False; the
    manual backup stays. *)
Example make_backup_zero_retention :
  fst (make_backup true true zero_retention_world) = Ret false /\
  folder (snd (make_backup true true zero_retention_world))
  = [mkFile [] "tautulli.backup-20190101000000.db" 1546300800] /\
  removals (trace (snd (make_backup true true zero_retention_world)))
  = [mkFile [] "tautulli.backup-20200102030405.sched.db" 1577934245].
Proof. vm_compute. repeat split. Qed.

(** ** Import *)

(** C1 (the code does not do it).  In the merge scenario the import
    completes, and the destination still holds only its own three history
    rows: the two imported rows, renumbered 4 and 5, were deleted again by
    the removal of duplicates, although the sequence moved on to 5. *)
Theorem merge_import_loses_history :
  fst (import_tautulli_db (Some "import.db") (Some "merge") false merge_world)
  = Ret None /\
  rows_of "session_history"
    (disk (snd (import_tautulli_db (Some "import.db") (Some "merge") false merge_world)))
  = [history_row 1 1 100; history_row 2 2 200; history_row 3 3 300] /\
  seq_of "session_history"
    (disk (snd (import_tautulli_db (Some "import.db") (Some "merge") false merge_world)))
  = 5%Z.
Proof. vm_compute. repeat split. Qed.

(** C3 (as stated, refuted).  The import of newer_source in overwrite
    mode fails at the INSERT into the second table; the first table has
    already been replaced and the second emptied, and both stay so. *)
Lemma import_not_atomic :
  ~ import_atomic_as_specified (Some "import.db") (Some "overwrite") false
      mismatch_world.
Proof.
  intros H.
  specialize (H (OperationalError "table has no column named label")
                (snd (import_tautulli_db (Some "import.db") (Some "overwrite") false
                                         mismatch_world))).
  assert (Hrun : import_tautulli_db (Some "import.db") (Some "overwrite") false
                   mismatch_world
                 = (Raise (OperationalError "table has no column named label"),
                    snd (import_tautulli_db (Some "import.db") (Some "overwrite") false
                                            mismatch_world)))
    by (vm_compute; reflexivity).
  specialize (H Hrun). vm_compute in H. discriminate H.
Qed.

(** *** Every statement of the import is its own transaction *)

Lemma makes_keeps (A : Type) (m : M A) : makes_clean m -> keeps_clean m.
Proof. intros H w r w' _. apply H. Qed.

Lemma keeps_ret (A : Type) (a : A) : keeps_clean (ret a).
Proof. intros w r w' Hc H. inversion H; subst. exact Hc. Qed.

Lemma keeps_raise (A : Type) (e : exn) : keeps_clean (@raise A e).
Proof. intros w r w' Hc H. inversion H; subst. exact Hc. Qed.

Lemma keeps_read (A : Type) (f : world -> A) :
  keeps_clean (fun w => (Ret (f w), w)).
Proof. intros w r w' Hc H. inversion H; subst. exact Hc. Qed.

Lemma keeps_emit (ev : event) : keeps_clean (emit ev).
Proof. intros w r w' Hc H. inversion H; subst. exact Hc. Qed.

Lemma keeps_log (lvl : level) (msg : string) : keeps_clean (log lvl msg).
Proof. apply keeps_emit. Qed.

Lemma keeps_notify (a : string) : keeps_clean (notify a).
Proof. intros w r w' Hc H. inversion H; subst. exact Hc. Qed.

Lemma keeps_getitem (k : string) (d : row) : keeps_clean (getitem k d).
Proof.
  unfold getitem. destruct (lookup k d); [apply keeps_ret | apply keeps_raise].
Qed.

Lemma keeps_bind (A B : Type) (m : M A) (k : A -> M B) :
  keeps_clean m -> (forall a, keeps_clean (k a)) -> keeps_clean (bind m k).
Proof.
  intros Hm Hk w r w' Hc H. unfold bind in H.
  destruct (m w) as [[a|e] w1] eqn:Hrun.
  - exact (Hk a w1 r w' (Hm _ _ _ Hc Hrun) H).
  - inversion H; subst. exact (Hm _ _ _ Hc Hrun).
Qed.

Lemma makes_bind (A B : Type) (m : M A) (k : A -> M B) :
  makes_clean m -> (forall a, keeps_clean (k a)) -> makes_clean (bind m k).
Proof.
  intros Hm Hk w r w' H. unfold bind in H.
  destruct (m w) as [[a|e] w1] eqn:Hrun.
  - exact (Hk a w1 r w' (Hm _ _ _ Hrun) H).
  - inversion H; subst. exact (Hm _ _ _ Hrun).
Qed.

Lemma keeps_try (A : Type) (body : M A) (handler : exn -> M A) :
  keeps_clean body -> (forall e, keeps_clean (handler e)) ->
  keeps_clean (try_except body handler).
Proof.
  intros Hb Hh w r w' Hc H. unfold try_except in H.
  destruct (body w) as [[a|e] w1] eqn:Hrun.
  - inversion H; subst. exact (Hb _ _ _ Hc Hrun).
  - exact (Hh e w1 r w' (Hb _ _ _ Hc Hrun) H).
Qed.

Lemma makes_action (q : stmt) : makes_clean (action (Some q)).
Proof. intros w r w' H. exact (action_clean q w r w' H). Qed.

Lemma keeps_action (q : stmt) : keeps_clean (action (Some q)).
Proof. apply makes_keeps, makes_action. Qed.

(** A statement sent outside [action] keeps the connection clean when
    the engine does not write for it. *)
Lemma keeps_conn_execute (s : stmt) :
  (forall e c rows c', engine e s c = inr (rows, c') -> work c' = work c) ->
  keeps_clean (conn_execute s).
Proof.
  intros Hs w r w' Hc H. unfold conn_execute in H.
  destruct (faults (env w) (clock w)).
  - inversion H; subst. exact Hc.
  - destruct (engine (env w) s (conn w)) as [e|[rows c']] eqn:He.
    + inversion H; subst. exact Hc.
    + inversion H; subst. unfold clean. cbn. rewrite (Hs _ _ _ _ He). exact Hc.
Qed.

Lemma keeps_pragma (name : string) : keeps_clean (conn_execute (SPragma name)).
Proof.
  apply keeps_conn_execute. intros e c rows c' H. cbn in H. now inversion H.
Qed.

Lemma keeps_begin : keeps_clean (conn_execute SBeginImmediate).
Proof.
  apply keeps_conn_execute. intros e c rows c' H. cbn in H.
  destruct (in_txn c); [discriminate | now inversion H].
Qed.

Lemma keeps_attach (path : string) : keeps_clean (conn_execute (SAttach path)).
Proof.
  apply keeps_conn_execute. intros e c rows c' H. cbn in H.
  destruct (attached c); [discriminate | now inversion H].
Qed.

Lemma keeps_detach : keeps_clean (conn_execute SDetach).
Proof.
  apply keeps_conn_execute. intros e c rows c' H. cbn in H.
  destruct (attached c); [|discriminate].
  destruct (in_txn c); [discriminate | now inversion H].
Qed.

Lemma makes_MonitorDatabase : makes_clean MonitorDatabase.
Proof.
  unfold MonitorDatabase. apply makes_bind.
  - intros w r w' H. inversion H; subst. reflexivity.
  - intros _. repeat (apply keeps_bind; [apply keeps_pragma | intros _]).
    apply keeps_ret.
Qed.

Lemma keeps_select (q : stmt) : keeps_clean (select q).
Proof.
  unfold select. apply keeps_bind; [apply keeps_action|].
  intros [rows|]; [apply keeps_ret | apply keeps_raise].
Qed.

Lemma keeps_select_single (q : stmt) : keeps_clean (select_single q).
Proof.
  unfold select_single. apply keeps_bind; [apply keeps_action|].
  intros [[|r rows]|]; try apply keeps_ret. apply keeps_raise.
Qed.

Lemma keeps_sweep (now : Z) (cands : list file) : keeps_clean (sweep now cands).
Proof.
  intros w r w' Hc H.
  destruct (sweep_spec now cands w) as [w1 [Hrun _]].
  revert w r w' Hc H w1 Hrun.
  induction cands as [|f cands IH]; intros w r w' Hc H w1 Hrun.
  - inversion H; subst. exact Hc.
  - cbn [sweep] in H. unfold bind at 1 in H.
    destruct (f_mtime f <? now - backup_days (env w) * 86400)%Z.
    + unfold try_except, os_remove, bind, emit in H. cbn in H.
      destruct (undeletable (env w) f); cbn in H.
      * match type of H with sweep now cands ?x = _ =>
          destruct (sweep_spec now cands x) as [w2 [Hrun2 _]];
          exact (IH x r w' Hc H w2 Hrun2) end.
      * match type of H with sweep now cands ?x = _ =>
          destruct (sweep_spec now cands x) as [w2 [Hrun2 _]];
          exact (IH x r w' Hc H w2 Hrun2) end.
    + destruct (sweep_spec now cands w) as [w2 [Hrun2 _]].
      exact (IH w r w' Hc H w2 Hrun2).
Qed.

Lemma keeps_copyfile (name : string) : keeps_clean (copyfile name).
Proof.
  unfold copyfile. apply keeps_bind; [apply keeps_emit | intros _].
  intros w r w' Hc H.
  destruct (copy_fault (env w)); [destruct (copy_creates (env w))|];
    inversion H; subst; exact Hc.
Qed.

Lemma keeps_ensure_folder : keeps_clean ensure_folder.
Proof.
  intros w r w' Hc H. unfold ensure_folder in H.
  destruct (backup_dir w); inversion H; subst; exact Hc.
Qed.

Lemma keeps_rollback : keeps_clean (fun w => (Ret tt, rollback w)).
Proof. intros w r w' _ H. inversion H; subst. reflexivity. Qed.

Ltac keeps :=
  repeat first
    [ apply keeps_ret | apply keeps_raise | apply keeps_log | apply keeps_notify
    | apply keeps_getitem | apply keeps_action | apply keeps_select
    | apply keeps_select_single | apply keeps_begin | apply keeps_attach
    | apply keeps_detach | apply keeps_sweep | apply keeps_read
    | apply keeps_copyfile | apply keeps_ensure_folder | apply keeps_rollback
    | apply makes_keeps, makes_MonitorDatabase
    | apply keeps_bind; [| intros ?]
    | apply keeps_try; [| intros ?]
    | match goal with
      | |- keeps_clean (if ?b then _ else _) => destruct b
      | |- keeps_clean (match ?x with _ => _ end) => destruct x
      end ].

Lemma makes_make_backup (cleanup scheduler : bool) :
  makes_clean (make_backup cleanup scheduler).
Proof.
  unfold make_backup, integrity_check.
  apply makes_bind.
  - apply makes_bind; [apply makes_MonitorDatabase | intros _; keeps].
  - intros check. keeps.
Qed.

Lemma keeps_non_pk_columns (columns : list row) :
  keeps_clean (non_pk_columns columns).
Proof.
  induction columns as [|c columns IH]; cbn [non_pk_columns]; keeps; exact IH.
Qed.

Lemma keeps_import_tables (method : string) (tables : list row) :
  forall shc tc, keeps_clean (import_tables method tables shc tc).
Proof.
  induction tables as [|table tables IH]; intros shc tc; cbn [import_tables].
  - keeps.
  - keeps; try apply keeps_non_pk_columns; apply IH.
Qed.

Lemma keeps_remove_duplicates (table_columns : list (string * list string)) :
  keeps_clean (remove_duplicates table_columns).
Proof.
  induction table_columns as [|[table columns] rest IH]; cbn [remove_duplicates].
  - keeps.
  - keeps; exact IH.
Qed.

Lemma makes_log_then (A : Type) (lvl : level) (msg : string) (m : M A) :
  makes_clean m -> makes_clean (log lvl msg ;; m).
Proof. intros Hm w r w' H. exact (Hm _ _ _ H). Qed.

Ltac import_keeps :=
  repeat (keeps;
          try apply keeps_import_tables;
          try apply keeps_remove_duplicates;
          try apply keeps_non_pk_columns).

Lemma validate_database_returns (database : option string) (w : world) :
  exists v w1,
    validate_database database w = (Ret v, w1) /\
    conn w1 = conn w /\ disk w1 = disk w.
Proof.
  unfold validate_database, try_except, bind, open_database.
  destruct database as [path|].
  - destruct (connect_fault (env w) path) as [e|].
    + destruct e; eexists; eexists; (split; [reflexivity|]); split; reflexivity.
    + eexists; eexists; (split; [reflexivity|]); split; reflexivity.
  - eexists; eexists; (split; [reflexivity|]); split; reflexivity.
Qed.

(** When an exception leaves the import the connection has no
    uncommitted change. *)
Lemma import_failure_clean (database method : option string)
  (backup : bool) (w : world) (e : exn) (w' : world) :
  import_tautulli_db database method backup w = (Raise e, w') ->
  disk w' = work (conn w').
Proof.
  intros H. symmetry. change (clean w'). revert H.
  unfold import_tautulli_db.
  destruct (validate_database_returns database w) as [v [w1 [Hv _]]].
  rewrite (bind_ret_eq _ _ _ _ _ _ _ Hv).
  destruct (negb (String.eqb v "success")); [cbn; discriminate|].
  destruct database as [path|]; [|cbn; discriminate].
  destruct method as [method|]; [|cbn; discriminate].
  destruct (negb (mem method ["merge"; "overwrite"])); [cbn; discriminate|].
  destruct backup.
  - match goal with |- ?m w1 = _ -> _ =>
      assert (Hm : makes_clean m); [|exact (Hm w1 (Raise e) w')] end.
    apply makes_bind.
    + apply makes_log_then, makes_make_backup.
    + intros backed_up. import_keeps.
  - rewrite (bind_ret_eq _ _ _ _ _ _ _ (eq_refl : ret true w1 = (Ret true, w1))).
    cbn [negb].
    match goal with |- ?m w1 = _ -> _ =>
      assert (Hm : makes_clean m); [|exact (Hm w1 (Raise e) w')] end.
    apply makes_log_then, makes_bind; [apply makes_MonitorDatabase|].
    intros _. import_keeps.
Qed.

(** *** The file after the import *)

Lemma replay_app (a b : list event) (w : world) :
  replay (a ++ b) w = replay b (replay a w).
Proof. apply fold_left_app. Qed.

Lemma tracks_silent (A : Type) (m : M A) :
  (forall w r w', m w = (r, w') ->
     trace w' = trace w /\ same_session w' w) ->
  tracks m.
Proof.
  intros Hm w u r w' Hs H. destruct (Hm w r w' H) as [Ht [E1 [E2 [E3 E4]]]].
  exists []. rewrite app_nil_r. split; [exact Ht|].
  destruct Hs as [S1 [S2 [S3 S4]]]. cbn. repeat split; congruence.
Qed.

Lemma tracks_ret (A : Type) (a : A) : tracks (ret a).
Proof. apply tracks_silent. intros w r w' H. inversion H; subst. repeat split. Qed.

Lemma tracks_raise (A : Type) (e : exn) : tracks (@raise A e).
Proof. apply tracks_silent. intros w r w' H. inversion H; subst. repeat split. Qed.

Lemma tracks_read (A : Type) (f : world -> A) :
  tracks (fun w => (Ret (f w), w)).
Proof. apply tracks_silent. intros w r w' H. inversion H; subst. repeat split. Qed.

Lemma tracks_getitem (k : string) (d : row) : tracks (getitem k d).
Proof.
  unfold getitem. destruct (lookup k d); [apply tracks_ret | apply tracks_raise].
Qed.

Lemma tracks_event (A : Type) (m : M A) (ev : event) :
  idle ev = true ->
  (forall w r w', m w = (r, w') ->
     trace w' = trace w ++ [ev] /\ same_session w' w) ->
  tracks m.
Proof.
  intros Hi Hm w u r w' Hs H. destruct (Hm w r w' H) as [Ht [E1 [E2 [E3 E4]]]].
  exists [ev]. split; [exact Ht|].
  destruct Hs as [S1 [S2 [S3 S4]]].
  assert (Hu : replay [ev] u = u) by (destruct ev; try discriminate Hi; reflexivity).
  rewrite Hu. repeat split; congruence.
Qed.

Lemma tracks_log (lvl : level) (msg : string) : tracks (log lvl msg).
Proof.
  apply (tracks_event _ _ (EvLog lvl msg) eq_refl).
  intros w r w' H. inversion H; subst. repeat split.
Qed.

Lemma tracks_notify (a : string) : tracks (notify a).
Proof.
  apply (tracks_event _ _ (EvNotify a) eq_refl).
  intros w r w' H. inversion H; subst. repeat split.
Qed.

Lemma tracks_sleep (n : nat) : tracks (sleep n).
Proof.
  apply (tracks_event _ _ (EvSleep n) eq_refl).
  intros w r w' H. inversion H; subst. repeat split.
Qed.

Lemma tracks_bind (A B : Type) (m : M A) (k : A -> M B) :
  tracks m -> (forall a, tracks (k a)) -> tracks (bind m k).
Proof.
  intros Hm Hk w u r w' Hs H. unfold bind in H.
  destruct (m w) as [[a|e] w1] eqn:Hrun.
  - destruct (Hm w u _ w1 Hs Hrun) as [evs1 [Ht1 Hs1]].
    destruct (Hk a w1 (replay evs1 u) r w' Hs1 H) as [evs2 [Ht2 Hs2]].
    exists (evs1 ++ evs2). rewrite replay_app, Ht2, Ht1, app_assoc. now split.
  - inversion H; subst. exact (Hm w u _ w' Hs Hrun).
Qed.

Lemma tracks_try (A : Type) (body : M A) (handler : exn -> M A) :
  tracks body -> (forall e, tracks (handler e)) ->
  tracks (try_except body handler).
Proof.
  intros Hb Hh w u r w' Hs H. unfold try_except in H.
  destruct (body w) as [[a|e] w1] eqn:Hrun.
  - inversion H; subst. exact (Hb w u _ w' Hs Hrun).
  - destruct (Hb w u _ w1 Hs Hrun) as [evs1 [Ht1 Hs1]].
    destruct (Hh e w1 (replay evs1 u) r w' Hs1 H) as [evs2 [Ht2 Hs2]].
    exists (evs1 ++ evs2). rewrite replay_app, Ht2, Ht1, app_assoc. now split.
Qed.

(** One statement, sent in two worlds that agree on the session. *)
Lemma conn_execute_same (q : stmt) (w u : world) :
  same_session w u ->
  fst (conn_execute q w) = fst (conn_execute q u) /\
  trace (snd (conn_execute q w)) = trace w ++ [EvExecute q] /\
  same_session (snd (conn_execute q w)) (snd (conn_execute q u)).
Proof.
  intros [S1 [S2 [S3 S4]]]. unfold conn_execute. rewrite S1, S3, S4.
  destruct (faults (env u) (clock u)).
  - cbn. unfold same_session. cbn. repeat split; try reflexivity; congruence.
  - destruct (engine (env u) q (conn u)) as [e|[rows c']]; cbn;
      unfold same_session; cbn; repeat split; try reflexivity; congruence.
Qed.

Lemma tracks_direct (q : stmt) :
  direct q = true -> opens_connection q = false -> tracks (conn_execute q).
Proof.
  intros Hd Ho w u r w' Hs H.
  destruct (conn_execute_same q w u Hs) as [_ [Ht Hs']].
  rewrite H in Ht, Hs'. cbn [snd] in Ht, Hs'.
  exists [EvExecute q]. split; [exact Ht|].
  cbn [replay fold_left settle]. now rewrite Ho, Hd.
Qed.

Lemma tracks_attempt (q : stmt) :
  direct q = false -> tracks (with_connection (conn_execute q)).
Proof.
  intros Hd w u r w' Hs H.
  assert (Ho : opens_connection q = false) by (destruct q; try reflexivity; discriminate Hd).
  destruct (conn_execute_same q w u Hs) as [Hf [Ht [E1 [E2 [E3 E4]]]]].
  exists [EvExecute q].
  cbn [replay fold_left settle]. rewrite Ho, Hd.
  unfold with_connection in *.
  destruct (conn_execute q w) as [[a|e] w1], (conn_execute q u) as [[a'|e'] u1];
    cbn [fst snd] in *; try discriminate Hf;
    inversion H; subst; cbn [snd];
    (split; [exact Ht|]); unfold same_session, commit, rollback; cbn;
    rewrite ?E1, ?E2, ?E3, ?E4; repeat split; reflexivity.
Qed.

Lemma tracks_retry (q : stmt) (n : nat) : direct q = false -> tracks (retry n q).
Proof.
  intros Hd. induction n as [|n IH]; cbn [retry]; [apply tracks_ret|].
  apply tracks_try.
  - apply tracks_bind; [now apply tracks_attempt | intros a; apply tracks_ret].
  - intros e. destruct e; try (cbn [is_DatabaseError];
      first [ apply tracks_raise
            | apply tracks_bind; [apply tracks_log | intros _; apply tracks_raise] ]).
    intros w u r w' Hs H.
    destruct (transient_test (py2 (env w)) msg) as [[|]|x].
    + revert H. apply (tracks_bind _ _ _ _ (tracks_log _ _)); [|exact Hs].
      intros _. apply tracks_bind; [apply tracks_sleep | intros _; exact IH].
    + revert H. apply (tracks_bind _ _ _ _ (tracks_log _ _)); [|exact Hs].
      intros _. apply tracks_raise.
    + inversion H; subst. exists []. rewrite app_nil_r. now split.
Qed.

Lemma tracks_action (q : stmt) : direct q = false -> tracks (action (Some q)).
Proof. apply tracks_retry. Qed.

Lemma tracks_select (q : stmt) : direct q = false -> tracks (select q).
Proof.
  intros Hd. unfold select. apply tracks_bind; [now apply tracks_action|].
  intros [rows|]; [apply tracks_ret | apply tracks_raise].
Qed.

Lemma tracks_select_single (q : stmt) : direct q = false -> tracks (select_single q).
Proof.
  intros Hd. unfold select_single. apply tracks_bind; [now apply tracks_action|].
  intros [[|r rows]|]; try apply tracks_ret. apply tracks_raise.
Qed.

Lemma tracks_MonitorDatabase : tracks MonitorDatabase.
Proof.
  unfold MonitorDatabase.
  assert (H1 : forall k : list row -> M unit,
             (forall a, tracks (k a)) ->
             tracks (connect ;; (x <- conn_execute (SPragma "synchronous") ;; k x))).
  { intros k Hk w u r w' Hs H. unfold bind at 1, connect at 1 in H.
    assert (Hs0 : same_session (set_conn (mkConn (disk w) false None 0) w)
                               (snd (connect u))).
    { destruct Hs as [S1 [S2 [S3 S4]]]. unfold same_session, connect. cbn.
      rewrite S1, S2, S4. repeat split; reflexivity. }
    destruct (conn_execute_same (SPragma "synchronous") _ _ Hs0) as [_ [Ht Hs1]].
    unfold bind in H.
    destruct (conn_execute (SPragma "synchronous")
                (set_conn (mkConn (disk w) false None 0) w)) as [[a|e] w1] eqn:Hrun;
      cbn [snd] in Ht, Hs1.
    - destruct (Hk a w1 _ r w' Hs1 H) as [evs [Ht2 Hs2]].
      exists (EvExecute (SPragma "synchronous") :: evs).
      split; [rewrite Ht2, Ht; cbn [trace set_conn]; now rewrite <- app_assoc|].
      exact Hs2.
    - inversion H; subst. exists [EvExecute (SPragma "synchronous")].
      split; [exact Ht | exact Hs1]. }
  apply H1. intros _.
  apply tracks_bind; [now apply tracks_direct | intros _].
  apply tracks_bind; [now apply tracks_direct | intros _]. apply tracks_ret.
Qed.

(** The copy and the rollback that follows it. *)
Lemma tracks_copy (A : Type) (name : string) (k : M A) :
  tracks k ->
  tracks (copyfile name ;; (fun w => (Ret tt, rollback w)) ;; k).
Proof.
  intros Hk w u r w' Hs H.
  destruct Hs as [S1 [S2 [S3 S4]]].
  unfold bind at 1, copyfile, bind at 1, emit in H.
  cbn [env disk conn clock epoch backup_dir notify_queue trace] in H.
  destruct (copy_fault (env w)) as [e|] eqn:Hc.
  - inversion H; subst. exists [EvCopy name].
    cbn [replay fold_left settle]. rewrite <- S1, Hc.
    destruct (copy_creates (env w)); (split; [reflexivity|]);
      unfold same_session; cbn; repeat split; assumption.
  - unfold bind at 1 in H.
    match type of H with k ?x = _ =>
      destruct (Hk x (rollback u) r w') as [evs [Ht Hs']]; [|exact H|] end.
    { unfold same_session, rollback, written. cbn.
      rewrite S1, S2, S3, S4. repeat split; reflexivity. }
    exists (EvCopy name :: evs). split.
    + rewrite Ht. cbn [trace rollback written]. now rewrite <- app_assoc.
    + cbn [replay fold_left settle]. rewrite <- S1, Hc. exact Hs'.
Qed.

Lemma tracks_ensure_folder : tracks ensure_folder.
Proof.
  apply tracks_silent. intros w r w' H. unfold ensure_folder in H.
  destruct (backup_dir w); inversion H; subst; repeat split.
Qed.

Lemma tracks_os_remove (f : file) : tracks (os_remove f).
Proof.
  apply (tracks_event _ _ (EvRemove f) eq_refl).
  intros w r w' H. unfold os_remove, bind, emit in H. cbn in H.
  destruct (undeletable (env w) f); inversion H; subst; repeat split.
Qed.

Lemma tracks_sweep (now : Z) (cands : list file) : tracks (sweep now cands).
Proof.
  induction cands as [|f cands IH]; cbn [sweep]; [apply tracks_ret|].
  apply tracks_bind; [|intros _; exact IH].
  intros w u r w' Hs H.
  destruct (f_mtime f <? now - backup_days (env w) * 86400)%Z.
  - revert H. apply tracks_try; [apply tracks_os_remove | | exact Hs].
    intros e. destruct (is_OSError e); [apply tracks_log | apply tracks_raise].
  - inversion H; subst. exists []. rewrite app_nil_r. now split.
Qed.

Lemma tracks_validate_database (database : option string) :
  tracks (validate_database database).
Proof.
  unfold validate_database. apply tracks_try.
  - apply tracks_bind; [|intros _; apply tracks_ret].
    apply tracks_silent. intros w r w' H. unfold open_database in H.
    destruct database as [path|]; [destruct (connect_fault (env w) path)|];
      inversion H; subst; repeat split.
  - intros e. destruct e;
      (apply tracks_bind; [apply tracks_log | intros _; apply tracks_ret]).
Qed.

Ltac tracked :=
  repeat first
    [ apply tracks_ret | apply tracks_raise | apply tracks_log | apply tracks_notify
    | apply tracks_getitem | apply tracks_read
    | apply tracks_MonitorDatabase | apply tracks_ensure_folder
    | apply tracks_sweep | apply tracks_validate_database
    | apply tracks_action; reflexivity
    | apply tracks_select; reflexivity
    | apply tracks_select_single; reflexivity
    | apply tracks_direct; reflexivity
    | apply tracks_copy
    | apply tracks_bind; [| intros ?]
    | apply tracks_try; [| intros ?]
    | match goal with
      | |- tracks (if ?b then _ else _) => destruct b
      | |- tracks (match ?x with _ => _ end) => destruct x
      | |- tracks (let (_, _) := ?x in _) => destruct x
      end ].

Lemma tracks_integrity_check : tracks integrity_check.
Proof. unfold integrity_check. tracked. Qed.

Lemma tracks_make_backup (cleanup scheduler : bool) :
  tracks (make_backup cleanup scheduler).
Proof.
  unfold make_backup.
  apply tracks_bind; [apply tracks_integrity_check | intros check]. tracked.
Qed.

Lemma tracks_non_pk_columns (columns : list row) : tracks (non_pk_columns columns).
Proof.
  induction columns as [|c columns IH]; cbn [non_pk_columns]; tracked; exact IH.
Qed.

Lemma tracks_import_tables (method : string) (tables : list row) :
  forall shc tc, tracks (import_tables method tables shc tc).
Proof.
  induction tables as [|table tables IH]; intros shc tc; cbn [import_tables].
  - tracked.
  - tracked; try apply tracks_non_pk_columns; apply IH.
Qed.

Lemma tracks_remove_duplicates (table_columns : list (string * list string)) :
  tracks (remove_duplicates table_columns).
Proof.
  induction table_columns as [|[table columns] rest IH]; cbn [remove_duplicates].
  - tracked.
  - tracked; exact IH.
Qed.

Lemma tracks_import (database method : option string) (backup : bool) :
  tracks (import_tautulli_db database method backup).
Proof.
  unfold import_tautulli_db.
  repeat (tracked;
          try apply tracks_make_backup;
          try apply tracks_import_tables;
          try apply tracks_remove_duplicates;
          try apply tracks_non_pk_columns).
Qed.

(** C3 (amended).  The import is not one transaction.  Each statement
    that goes through [action] is committed by itself when it succeeds and
    rolled back by itself when it fails; the transaction of BEGIN
    IMMEDIATE ends with the first of them.  However the import ends (it
    completes, it returns False, or an exception leaves it), the database
    file and the connection are those that the statements sent give when
    each is settled on its own, in the order of the trace: a statement
    that fails undoes nothing but itself, and what the statements before
    it have written stays in the file.  When an exception leaves the
    import nothing is left to roll back. *)
Theorem import_commits_each_statement (database method : option string)
  (backup : bool) (w : world) (r : result (option bool)) (w' : world) :
  import_tautulli_db database method backup w = (r, w') ->
  exists evs,
    trace w' = trace w ++ evs /\
    disk w' = disk (replay evs w) /\
    conn w' = conn (replay evs w) /\
    (forall e, r = Raise e -> disk w' = work (conn w')).
Proof.
  intros H.
  destruct (tracks_import database method backup w w r w') as [evs [Ht [_ [Hd [Hc _]]]]];
    [repeat split | exact H |].
  exists evs. split; [exact Ht|]. split; [exact Hd|]. split; [exact Hc|].
  intros e ->. exact (import_failure_clean database method backup w e w' H).
Qed.

(** A statement that fails need not stop the import: under Python 2 a
    DELETE that stays locked is given up after five attempts, [action]
    returns None, and the import goes on; the table keeps its ten rows
    and receives the three of the source. *)
Example import_goes_on_after_lock :
  fst (import_tautulli_db (Some "import.db") (Some "overwrite") false
         locked_delete_world) = Ret None /\
  executions (trace (snd (import_tautulli_db (Some "import.db") (Some "overwrite")
                            false locked_delete_world))) = 17 /\
  List.length (rows_of "session_history_metadata"
                 (disk (snd (import_tautulli_db (Some "import.db") (Some "overwrite")
                               false locked_delete_world)))) = 13.
Proof. vm_compute. repeat split. Qed.

(** *** Overwrite: rows and tables *)

Lemma mem_true_In (c : string) (l : list string) : mem c l = true -> In c l.
Proof. apply mem_In. Qed.

Lemma lookup_map_key (f : string -> value) (cols : list string) (c : string) :
  lookup c (map (fun x => (x, f x)) cols)
  = if mem c cols then Some (f c) else None.
Proof.
  induction cols as [|x cols IH]; [reflexivity|].
  cbn [map lookup mem existsb]. unfold mem in IH.
  rewrite (String.eqb_sym c x).
  destruct (String.eqb_spec x c) as [->|Hne]; [reflexivity | exact IH].
Qed.

Lemma get_map_key (f : string -> value) (cols : list string) (c : string) :
  get c (map (fun x => (x, f x)) cols) = if mem c cols then f c else VNull.
Proof. unfold get. rewrite lookup_map_key. now destruct (mem c cols). Qed.

Lemma get_copy_row (t : table) (k : Z) (r : row) (c : string) :
  get c (copy_row t k r)
  = if mem c (t_cols t)
    then (if String.eqb c (t_pk t) then VInt k else get c r)
    else VNull.
Proof. unfold copy_row. apply get_map_key. Qed.

Lemma renumber_app (t : table) (a b : list row) :
  forall k,
    renumber t k (a ++ b)
    = renumber t k a ++ renumber t (k + Z.of_nat (List.length a)) b.
Proof.
  induction a as [|r a IH]; intros k; cbn [renumber app List.length].
  - now rewrite Z.add_0_r.
  - rewrite IH. do 3 f_equal. lia.
Qed.

Lemma rid_copy_row (t : table) (k : Z) (r : row) :
  mem (t_pk t) (t_cols t) = true ->
  rid (with_rows t []) (copy_row t k r) = k.
Proof.
  intros Hpk. unfold rid. cbn [t_pk with_rows].
  rewrite get_copy_row, Hpk. now rewrite String.eqb_refl.
Qed.

(** The highest id among copies numbered from [k]. *)
Lemma max_rid_renumber (t : table) (rows : list row) :
  mem (t_pk t) (t_cols t) = true ->
  forall k, (1 <= k)%Z ->
    fold_right (fun r m => Z.max (rid (with_rows t []) r) m) 0%Z (renumber t k rows)
    = match rows with
      | [] => 0%Z
      | _ => (k + Z.of_nat (List.length rows) - 1)%Z
      end.
Proof.
  intros Hpk. induction rows as [|r rows IH]; intros k Hk; [reflexivity|].
  cbn [renumber fold_right]. rewrite (IH (k + 1)%Z) by lia.
  rewrite rid_copy_row by exact Hpk.
  destruct rows as [|r' rows]; cbn [List.length]; lia.
Qed.

Lemma find_none_intro (A : Type) (p : A -> bool) (l : list A) :
  (forall x, In x l -> p x = false) -> find p l = None.
Proof.
  induction l as [|x l IH]; intros H; [reflexivity|]. cbn.
  rewrite (H x (or_introl eq_refl)). apply IH. intros y Hy. apply H. now right.
Qed.

Lemma In_renumber (t : table) (rows : list row) :
  forall k o, In o (renumber t k rows) ->
    exists j r, (k <= j < k + Z.of_nat (List.length rows))%Z /\
                In r rows /\ o = copy_row t j r.
Proof.
  induction rows as [|r rows IH]; intros k o H; [destruct H|].
  cbn [renumber] in H. destruct H as [<-|H].
  - exists k, r. cbn [List.length]. repeat split; [lia | lia | now left].
  - destruct (IH _ _ H) as [j [r' [Hj [Hin ->]]]].
    exists j, r'. cbn [List.length]. repeat split; [lia | lia | now right].
Qed.

Section OverwriteTable.

(** The destination table [dt] receives the rows of the source table
    [st]; [icols] are the columns that the import copies. *)
Variables dt st : table.
Hypothesis Hfits : fits dt st.

Let icols : list string :=
  filter (fun c => negb (String.eqb c (t_pk st))) (t_cols st).

Let fields_of (r : row) : row := map (fun col => (col, get col r)) icols.

Lemma mem_icols (c : string) :
  mem c icols = mem c (t_cols st) && negb (String.eqb c (t_pk st)).
Proof.
  unfold icols, mem. induction (t_cols st) as [|x l IH]; [reflexivity|].
  cbn [filter existsb].
  destruct (String.eqb_spec x (t_pk st)) as [->|Hx]; cbn [negb existsb].
  - rewrite IH. destruct (String.eqb_spec c (t_pk st)); cbn.
    + now rewrite !andb_false_r.
    + reflexivity.
  - rewrite IH. destruct (String.eqb_spec c x) as [->|Hc]; cbn; [|reflexivity].
    destruct (String.eqb_spec x (t_pk st)); [contradiction | reflexivity].
Qed.

Lemma stored_row (k : Z) (r : row) :
  set (t_pk dt) (VInt k) (map (fun c => (c, get c (fields_of r))) (t_cols dt))
  = copy_row st k r.
Proof.
  destruct Hfits as [Hc [Hp _]]. rewrite Hc, Hp.
  unfold set, copy_row. rewrite map_map. apply map_ext_in. intros c Hin. cbn [fst].
  destruct (String.eqb_spec c (t_pk st)) as [->|Hne]; [reflexivity|].
  unfold fields_of. rewrite get_map_key, mem_icols.
  apply mem_In in Hin. rewrite Hin.
  destruct (String.eqb_spec c (t_pk st)); [contradiction | reflexivity].
Qed.

Lemma no_conflict (pre : list row) (r : row) :
  existsb (clash (t_unique st) r) pre = false ->
  conflicts (with_rows dt (renumber st 1 pre)) (renumber st 1 pre)
            (copy_row st (Z.of_nat (List.length pre) + 1) r) = false.
Proof.
  intros Hclash. destruct Hfits as [Hc [Hp [Hu [Hpk _]]]].
  unfold conflicts. cbn [t_pk t_unique with_rows]. rewrite Hp, Hu.
  apply not_true_is_false. intros H.
  apply existsb_exists in H. destruct H as [o [Ho H]].
  apply In_renumber in Ho. destruct Ho as [j [r' [Hj [Hin ->]]]].
  cbn [existsb] in H. apply orb_true_iff in H. destruct H as [H|H].
  - cbn [forallb] in H. rewrite !get_copy_row, Hpk, String.eqb_refl in H.
    cbn in H. rewrite andb_true_r in H.
    destruct (Z.eqb_spec (Z.of_nat (List.length pre) + 1) j); [lia | discriminate].
  - assert (Hc' : clash (t_unique st) r r' = true).
    { unfold clash. apply existsb_exists in H. destruct H as [u [Hu' H]].
      apply existsb_exists. exists u. split; [exact Hu'|].
      rewrite forallb_forall in H |- *. intros c Hcu. specialize (H c Hcu).
      rewrite !get_copy_row in H.
      destruct (mem c (t_cols st)); [|discriminate H].
      destruct (String.eqb c (t_pk st)); [|exact H].
      cbn in H. destruct (Z.eqb_spec (Z.of_nat (List.length pre) + 1) j);
        [lia | discriminate]. }
    assert (existsb (clash (t_unique st) r) pre = true)
      by (apply existsb_exists; now exists r').
    congruence.
Qed.

Lemma insert_copy (pre : list row) (r : row) (seq : Z) :
  (0 <= seq <= Z.of_nat (List.length pre))%Z ->
  existsb (clash (t_unique st) r) pre = false ->
  insert_row (with_rows dt (renumber st 1 pre)) seq (fields_of r)
  = Done (with_rows dt (renumber st 1 (pre ++ [r])),
          if t_autoinc dt then (Z.of_nat (List.length pre) + 1)%Z else seq).
Proof.
  intros Hseq Hclash.
  pose proof Hfits as [Hc [Hp [Hu [Hpk [Hne Huniq]]]]].
  unfold insert_row.
  assert (Hmiss : missing_column (map fst (fields_of r))
                    (with_rows dt (renumber st 1 pre)) = None).
  { unfold missing_column. apply find_none_intro. intros c Hin.
    unfold fields_of in Hin. rewrite map_map in Hin. cbn [fst] in Hin.
    rewrite map_id in Hin. cbn [t_cols with_rows]. rewrite Hc.
    apply mem_In in Hin. rewrite mem_icols in Hin.
    apply andb_true_iff in Hin. destruct Hin as [Hin _]. now rewrite Hin. }
  rewrite Hmiss. cbn [t_cols t_pk t_rows t_autoinc with_rows].
  assert (Hnull : get (t_pk dt) (map (fun c => (c, get c (fields_of r))) (t_cols dt))
                  = VNull).
  { rewrite get_map_key. unfold fields_of at 1. rewrite get_map_key.
    rewrite Hp, mem_icols, String.eqb_refl, andb_false_r.
    now destruct (mem (t_pk st) (t_cols dt)). }
  rewrite Hnull.
  assert (Hnext : next_rowid (with_rows dt (renumber st 1 pre)) seq
                  = (Z.of_nat (List.length pre) + 1)%Z).
  { unfold next_rowid, max_rid. cbn [t_autoinc t_rows with_rows].
    assert (Hfold : fold_right
                      (fun r0 m => Z.max (rid (with_rows dt (renumber st 1 pre)) r0) m)
                      0%Z (renumber st 1 pre)
                    = match pre with
                      | [] => 0%Z
                      | _ => (1 + Z.of_nat (List.length pre) - 1)%Z
                      end).
    { rewrite <- (max_rid_renumber st pre Hpk 1%Z) by lia.
      unfold rid. cbn [t_pk with_rows]. now rewrite Hp. }
    rewrite Hfold.
    destruct pre as [|x pre]; destruct (t_autoinc dt); cbn [List.length] in *; lia. }
  rewrite Hnext, stored_row, no_conflict by exact Hclash.
  rewrite renumber_app. cbn [renumber]. rewrite (Z.add_comm 1).
  do 2 f_equal. destruct (t_autoinc dt); [lia | reflexivity].
Qed.

Lemma insert_copies (post : list row) :
  forall pre seq n0,
    (0 <= seq <= Z.of_nat (List.length pre))%Z ->
    unique_ok (t_unique st) pre post = true ->
    exists seq',
      insert_rows true (with_rows dt (renumber st 1 pre)) seq n0 (map fields_of post)
      = inr (with_rows dt (renumber st 1 (pre ++ post)), seq', n0 + List.length post).
Proof.
  induction post as [|r post IH]; intros pre seq n0 Hseq Hu.
  - exists seq. cbn. now rewrite app_nil_r, Nat.add_0_r.
  - cbn [unique_ok] in Hu. apply andb_true_iff in Hu. destruct Hu as [Hr Hu].
    apply negb_true_iff in Hr.
    cbn [map insert_rows]. rewrite (insert_copy pre r seq Hseq Hr).
    destruct (IH (pre ++ [r])
                 (if t_autoinc dt then (Z.of_nat (List.length pre) + 1)%Z else seq)
                 (S n0)) as [seq' Hrun].
    + rewrite length_app. cbn [List.length]. destruct (t_autoinc dt); lia.
    + exact Hu.
    + exists seq'. rewrite Hrun, <- app_assoc. cbn [app List.length].
      do 2 f_equal. lia.
Qed.

End OverwriteTable.

Lemma lookup_assoc_set_eq (A : Type) (k : string) (v : A) (l : list (string * A)) :
  lookup k (assoc_set k v l) = Some v.
Proof.
  induction l as [|[k' v'] l IH]; cbn.
  - now rewrite String.eqb_refl.
  - destruct (String.eqb k' k) eqn:Hk; cbn.
    + now rewrite String.eqb_refl.
    + now rewrite Hk.
Qed.

Lemma lookup_assoc_set_neq (A : Type) (k k' : string) (v : A)
  (l : list (string * A)) :
  k' <> k -> lookup k' (assoc_set k v l) = lookup k' l.
Proof.
  intros Hne. induction l as [|[x v'] l IH]; cbn.
  - destruct (String.eqb_spec k k'); [congruence | reflexivity].
  - destruct (String.eqb_spec x k) as [->|Hx]; cbn.
    + destruct (String.eqb_spec k k'); [congruence | reflexivity].
    + destruct (String.eqb x k'); [reflexivity | exact IH].
Qed.

Lemma assoc_set_twice (A : Type) (k : string) (v v' : A) (l : list (string * A)) :
  assoc_set k v (assoc_set k v' l) = assoc_set k v l.
Proof.
  induction l as [|[x y] l IH]; cbn.
  - now rewrite String.eqb_refl.
  - destruct (String.eqb x k) eqn:Hx; cbn.
    + now rewrite String.eqb_refl.
    + now rewrite Hx, IH.
Qed.

Lemma lookup_assoc_del (A : Type) (k : string) (l : list (string * A)) :
  lookup k (assoc_del k l) = None.
Proof.
  unfold assoc_del. induction l as [|[x y] l IH]; cbn; [reflexivity|].
  destruct (String.eqb x k) eqn:Hx; cbn; [exact IH|]. now rewrite Hx.
Qed.

Lemma non_pk_columns_table_info (t : table) (w : world) :
  non_pk_columns (table_info t) w = (Ret (import_columns_of t), w).
Proof.
  unfold table_info, import_columns_of.
  induction (t_cols t) as [|c cols IH]; [reflexivity|].
  cbn [map non_pk_columns filter].
  unfold bind at 1. cbn [getitem lookup String.eqb Ascii.eqb Bool.eqb ret].
  destruct (String.eqb c (t_pk t)); cbn [truthy Z.eqb negb].
  - exact IH.
  - unfold bind. cbn [getitem lookup String.eqb Ascii.eqb Bool.eqb ret text_of].
    now rewrite IH.
Qed.

Lemma engine_insert_import (e : environment) (n : string) (c : connection)
  (src : database) (dt st : table) :
  attached c = Some src ->
  find_table n src = Some st ->
  find_table n (work c) = Some (with_rows dt []) ->
  seq_of n (work c) = 0%Z ->
  fits dt st ->
  exists sq,
    engine e (SInsertOrIgnoreImport n (import_columns_of st)) c
    = inr ([], dml c (store_inserted n (with_rows dt (imported st)) sq
                                     (List.length (t_rows st)) (work c))
                     (List.length (t_rows st))).
Proof.
  intros Hatt Hsrc Hdst Hseq Hfits.
  pose proof Hfits as [Hc [Hp [Hu [Hpk [Hne Huniq]]]]].
  destruct (insert_copies dt st Hfits (t_rows st) [] 0%Z 0) as [sq Hrun];
    [cbn; lia | exact Huniq |].
  exists sq. accepted. fold (import_columns_of st) in Hne.
  destruct (import_columns_of st) as [|c0 cols] eqn:Hcols; [congruence|].
  rewrite Hatt, Hsrc, Hdst, Hseq.
  assert (Hmiss : missing_column (c0 :: cols) st = None).
  { unfold missing_column. apply find_none_intro. intros x Hx. rewrite <- Hcols in Hx.
    unfold import_columns_of in Hx. apply filter_In in Hx. destruct Hx as [Hx _].
    apply mem_In in Hx. now rewrite Hx. }
  rewrite Hmiss, <- Hcols.
  unfold import_columns_of. cbn [renumber app] in Hrun.
  cbn [Nat.add] in Hrun. unfold imported.
  match goal with |- match ?x with _ => _ end = _ =>
    replace x with (@inr exn _ (with_rows dt (renumber st 1 (t_rows st)), sq,
                                List.length (t_rows st)))
      by (symmetry; exact Hrun) end.
  reflexivity.
Qed.

(** One turn of the loop over the source's tables, in overwrite mode: the
    destination table is emptied, its counter reset, and the source rows
    are copied under fresh ids. *)
Lemma import_one_table (src : database) (w : world) (n : string)
  (rest : list row) (shc : list string) (tc : list (string * list string))
  (dt st : table) :
  ready src w ->
  find_table n src = Some st ->
  find_table n (work (conn w)) = Some dt ->
  fits dt st ->
  n <> "sessions" ->
  exists w2,
    import_tables "overwrite" ([("name", VText n)] :: rest) shc tc w
    = import_tables "overwrite" rest shc (assoc_set n (import_columns_of st) tc) w2 /\
    ready src w2 /\
    tables (work (conn w2))
    = assoc_set n (with_rows dt (imported st)) (tables (work (conn w))) /\
    trace w2 = trace w ++ table_events n st.
Proof.
  intros [Hq [Hatt Htxn]] Hsrc Hdst Hfits Hname.
  cbn [import_tables].
  rewrite (bind_ret_eq _ _ _ _ _ _ _
             (eq_refl : getitem "name" [("name", VText n)] w = (Ret (VText n), w))).
  cbn [text_of].
  destruct (String.eqb_spec n "sessions") as [|_]; [contradiction|].
  erewrite bind_ret_eq by reflexivity.
  set (w0 := snd (log LInfo "Importing database table" w)).
  change (String.eqb "overwrite" "overwrite") with true. cbv iota.
  (* DELETE FROM table *)
  assert (E1 : engine (env w0) (SDeleteAll n) (conn w0)
               = inr ([], dml (conn w0) (put_table n (with_rows dt []) (work (conn w0)))
                              (List.length (t_rows dt)))).
  { accepted. change (work (conn w0)) with (work (conn w)). now rewrite Hdst. }
  pose proof (action_quiet (SDeleteAll n) w0 _ _ Hq E1) as A1.
  set (w1 := commit (set_conn _ (sent (SDeleteAll n) w0))) in A1.
  (* DELETE FROM sqlite_sequence WHERE name = table *)
  pose proof (action_quiet (SDeleteSeq n) w1 _ _ Hq eq_refl) as A2.
  set (w2 := commit (set_conn _ (sent (SDeleteSeq n) w1))) in A2.
  assert (B : (action (Some (SDeleteAll n)) ;; action (Some (SDeleteSeq n)) ;; ret tt) w0
              = (Ret tt, w2)).
  { rewrite (bind_ret_eq _ _ _ _ _ _ _ A1), (bind_ret_eq _ _ _ _ _ _ _ A2).
    reflexivity. }
  rewrite (bind_ret_eq _ _ _ _ _ _ _ B).
  (* PRAGMA import_db.table_info(table) *)
  assert (E3 : engine (env w2) (STableInfo n) (conn w2) = inr (table_info st, conn w2)).
  { accepted. change (attached (conn w2)) with (attached (conn w)).
    now rewrite Hatt, Hsrc. }
  pose proof (select_quiet (STableInfo n) w2 _ _ Hq E3) as A3.
  set (w3 := commit (set_conn _ (sent (STableInfo n) w2))) in A3.
  rewrite (bind_ret_eq _ _ _ _ _ _ _ A3).
  rewrite (bind_ret_eq _ _ _ _ _ _ _ (non_pk_columns_table_info st w3)).
  unfold dict_eq_str. cbv iota.
  (* INSERT OR IGNORE INTO table (columns) SELECT columns FROM import_db.table *)
  destruct (engine_insert_import (env w3) n (conn w3) src dt st) as [sq E4].
  { change (attached (conn w3)) with (attached (conn w)). exact Hatt. }
  { exact Hsrc. }
  { apply lookup_assoc_set_eq. }
  { unfold seq_of. cbn [work conn w3 w2 commit set_conn sent sequence dml w1].
    now rewrite lookup_assoc_del. }
  { exact Hfits. }
  pose proof (action_quiet _ w3 _ _ Hq E4) as A4.
  set (w4 := commit (set_conn _ (sent _ w3))) in A4.
  rewrite (bind_ret_eq _ _ _ _ _ _ _ A4).
  exists w4. split; [reflexivity|]. split; [|split].
  - split; [exact Hq|]. split; [exact Hatt | reflexivity].
  - unfold w4. cbn [work conn commit set_conn dml].
    unfold store_inserted.
    match goal with |- tables (if ?b then _ else _) = _ => destruct b end;
      cbn [tables put_seq put_table work conn w3 w2 w1 commit set_conn sent dml];
      apply assoc_set_twice.
  - unfold table_events.
    cbn [trace w4 w3 w2 w1 w0 commit set_conn sent snd log emit].
    now rewrite <- !app_assoc.
Qed.

Lemma lookup_In (A : Type) (k : string) (v : A) (l : list (string * A)) :
  lookup k l = Some v -> In (k, v) l.
Proof.
  induction l as [|[x y] l IH]; cbn; [discriminate|].
  destruct (String.eqb_spec x k) as [->|_].
  - intros H. inversion H. now left.
  - intros H. right. now apply IH.
Qed.

Lemma In_lookup (A : Type) (k : string) (v : A) (l : list (string * A)) :
  In (k, v) l -> exists v', lookup k l = Some v'.
Proof.
  induction l as [|[x y] l IH]; cbn; [intros []|].
  intros [H|H].
  - inversion H; subst. rewrite String.eqb_refl. now exists v.
  - destruct (String.eqb x k); [now exists y | now apply IH].
Qed.

Lemma fits_with_rows (dt st : table) (rows : list row) :
  fits dt st -> fits (with_rows dt rows) st.
Proof. intros H. exact H. Qed.

(** The loop over the source's tables, in overwrite mode. *)
Lemma import_tables_overwrite (src : database) (names : list string) :
  forall w shc tc,
    ready src w ->
    (forall n, In n names ->
               like_sqlite_ n = false /\ exists st, find_table n src = Some st) ->
    same_schema (work (conn w)) src ->
    exists w' res,
      import_tables "overwrite" (map (fun n => [("name", VText n)]) names) shc tc w
      = (Ret res, w') /\
      ready src w' /\
      same_schema (work (conn w')) src /\
      trace w' = trace w ++ flat_map (loop_events src) names /\
      (forall n st,
          find_table n src = Some st -> n <> "sessions" ->
          In n names \/ replaced st n (work (conn w)) ->
          replaced st n (work (conn w'))).
Proof.
  induction names as [|n names IH]; intros w shc tc Hready Hnames Hschema.
  - exists w, (shc, tc).
    split; [reflexivity|]. split; [exact Hready|]. split; [exact Hschema|].
    split; [cbn; now rewrite app_nil_r|].
    intros n st _ _ [[]|H]. exact H.
  - destruct (String.eqb_spec n "sessions") as [->|Hn].
    + destruct (IH w shc tc Hready) as [w' [res [Hrun [Hr [Hs [Htr Hres]]]]]].
      { intros m Hm. apply Hnames. now right. }
      { exact Hschema. }
      exists w', res. cbn [map import_tables].
      rewrite (bind_ret_eq _ _ _ _ _ _ _
                 (eq_refl : getitem "name" [("name", VText "sessions")] w
                            = (Ret (VText "sessions"), w))).
      cbn [text_of]. change (String.eqb "sessions" "sessions") with true. cbv iota.
      split; [exact Hrun|]. split; [exact Hr|]. split; [exact Hs|].
      split; [exact Htr|].
      intros m st Hm Hne [[Heq|Hin]|H]; [congruence | |]; apply (Hres m st); auto.
    + destruct (Hnames n (or_introl eq_refl)) as [Hlike [st Hst]].
      destruct (Hschema n st Hst Hlike Hn) as [dt [Hdt Hfits]].
      destruct (import_one_table src w n (map (fun n => [("name", VText n)]) names)
                  shc tc dt st Hready Hst Hdt Hfits Hn)
        as [w2 [Hstep [Hready2 [Htables Htrace2]]]].
      assert (Hfind : forall m,
                 find_table m (work (conn w2))
                 = if String.eqb m n then Some (with_rows dt (imported st))
                   else find_table m (work (conn w))).
      { intros m. unfold find_table. rewrite Htables.
        destruct (String.eqb_spec m n) as [->|Hm].
        - apply lookup_assoc_set_eq.
        - now apply lookup_assoc_set_neq. }
      destruct (IH w2 shc (assoc_set n (import_columns_of st) tc) Hready2)
        as [w' [res [Hrun [Hr [Hs [Htr Hres]]]]]].
      { intros m Hm. apply Hnames. now right. }
      { intros m st' Hst' Hl Hm. rewrite Hfind.
        destruct (String.eqb_spec m n) as [->|Hmn].
        - exists (with_rows dt (imported st)). split; [reflexivity|].
          assert (st' = st) by congruence. subst st'.
          now apply fits_with_rows.
        - now apply Hschema. }
      exists w', res. cbn [map]. rewrite Hstep.
      split; [exact Hrun|]. split; [exact Hr|]. split; [exact Hs|].
      split.
      { rewrite Htr, Htrace2, <- app_assoc. cbn [flat_map]. unfold loop_events at 2.
        destruct (String.eqb_spec n "sessions"); [contradiction|]. now rewrite Hst. }
      intros m st' Hst' Hm Hor. apply Hres; try assumption.
      destruct (String.eqb_spec m n) as [->|Hmn].
      * right. exists (with_rows dt (imported st)). rewrite Hfind, String.eqb_refl.
        split; [reflexivity|]. assert (st' = st) by congruence. now subst st'.
      * destruct Hor as [[Heq|Hin]|[dt' [Hd Hrows]]]; [congruence | now left |].
        right. exists dt'. rewrite Hfind.
        destruct (String.eqb_spec m n); [contradiction | now split].
Qed.

(** C6.  Overwrite import, when nothing disturbs the database and the
    destination has the source's schema: the import completes, and every
    table of the source that it copies (all but sqlite's own and
    'sessions') then holds in the destination exactly the source's rows,
    in order, under the ids 1, 2, 3, ... *)
Theorem overwrite_import_replaces_tables (path : string) (src : database)
  (w : world) :
  quiet w ->
  connect_fault (env w) path = None ->
  lookup path (db_files (env w)) = Some src ->
  same_schema (disk w) src ->
  exists w',
    import_tautulli_db (Some path) (Some "overwrite") false w = (Ret None, w') /\
    forall n st,
      find_table n src = Some st ->
      like_sqlite_ n = false ->
      n <> "sessions" ->
      (exists before after, trace w' = before ++ table_events n st ++ after) /\
      (exists dt, find_table n (disk w') = Some dt /\ t_rows dt = imported st).
Proof.
  intros Hq Hconn Hfile Hschema.
  unfold import_tautulli_db.
  assert (Hval : validate_database (Some path) w = (Ret "success", w)).
  { unfold validate_database, try_except, bind, open_database. now rewrite Hconn. }
  rewrite (bind_ret_eq _ _ _ _ _ _ _ Hval).
  change (negb (String.eqb "success" "success")) with false. cbv iota.
  change (negb (mem "overwrite" ["merge"; "overwrite"])) with false. cbv iota.
  rewrite (bind_ret_eq _ _ _ _ _ _ _ (eq_refl : ret true w = (Ret true, w))).
  cbn [negb].
  erewrite bind_ret_eq by reflexivity.
  set (w0 := snd (log LInfo "Importing Tautulli database" w)).
  rewrite (bind_ret_eq _ _ _ _ _ _ _ (MonitorDatabase_quiet w0 Hq)).
  rewrite (bind_ret_eq _ _ _ _ _ _ _
             (conn_execute_quiet SBeginImmediate (opened w0) _ _ Hq eq_refl)).
  set (w1 := set_conn _ (sent SBeginImmediate (opened w0))).
  assert (E2 : engine (env w1) (SAttach path) (conn w1)
               = inr ([], mkConn (disk w) true (Some src) 0)).
  { accepted. cbn [attached conn w1 set_conn]. cbn. now rewrite Hfile. }
  rewrite (bind_ret_eq _ _ _ _ _ _ _ (conn_execute_quiet (SAttach path) w1 _ _ Hq E2)).
  set (w2 := set_conn _ (sent (SAttach path) w1)).
  rewrite (bind_ret_eq _ _ _ _ _ _ _
             (select_single_quiet (SSelectSeq "session_history") w2 _ _ Hq eq_refl)).
  set (w3 := commit (set_conn _ (sent (SSelectSeq "session_history") w2))).
  change (String.eqb "overwrite" "merge") with false. cbv iota.
  rewrite (bind_ret_eq _ _ _ _ _ _ _ (eq_refl : ret tt w3 = (Ret tt, w3))).
  assert (E4 : engine (env w3) SSelectTables (conn w3)
               = inr (map (fun n => [("name", VText n)])
                          (map fst (filter (fun nt => negb (like_sqlite_ (fst nt)))
                                           (tables src))),
                      conn w3)).
  { accepted. cbn [attached conn w3 commit]. cbn. now rewrite map_map. }
  rewrite (bind_ret_eq _ _ _ _ _ _ _ (select_quiet SSelectTables w3 _ _ Hq E4)).
  set (w4 := commit (set_conn _ (sent SSelectTables w3))).
  destruct (import_tables_overwrite src
              (map fst (filter (fun nt => negb (like_sqlite_ (fst nt))) (tables src)))
              w4 [] [])
    as [w5 [[shc tc] [Hrun [[Hq5 [Hatt Htxn]] [_ [Htr Hres]]]]]].
  { split; [exact Hq|]. split; reflexivity. }
  { intros n Hn. apply in_map_iff in Hn. destruct Hn as [[n' t] [<- Hin]].
    apply filter_In in Hin. destruct Hin as [Hin Hl]. cbn [fst] in *.
    apply negb_true_iff in Hl. split; [exact Hl|].
    exact (In_lookup _ _ _ _ Hin). }
  { exact Hschema. }
  rewrite (bind_ret_eq _ _ _ _ _ _ _ Hrun).
  assert (E6 : engine (env w5) SDetach (conn w5)
               = inr ([], mkConn (work (conn w5)) false None (total_changes (conn w5)))).
  { accepted. now rewrite Hatt, Htxn. }
  rewrite (bind_ret_eq _ _ _ _ _ _ _ (conn_execute_quiet SDetach w5 _ _ Hq5 E6)).
  set (w6 := set_conn _ (sent SDetach w5)).
  rewrite (bind_ret_eq _ _ _ _ _ _ _ (eq_refl : ret tt w6 = (Ret tt, w6))).
  rewrite (bind_ret_eq _ _ _ _ _ _ _ (action_quiet SVacuum w6 _ _ Hq5 eq_refl)).
  set (w7 := commit (set_conn _ (sent SVacuum w6))).
  erewrite bind_ret_eq by reflexivity.
  eexists. split; [reflexivity|].
  intros n st Hst Hlike Hn.
  assert (Hin : In n (map fst (filter (fun nt => negb (like_sqlite_ (fst nt)))
                                      (tables src)))).
  { apply in_map_iff. exists (n, st). split; [reflexivity|].
    apply filter_In. split; [exact (lookup_In _ _ _ _ Hst)|].
    cbn [fst]. now rewrite Hlike. }
  split.
  - apply in_split in Hin. destruct Hin as [l1 [l2 Hsplit]].
    cbn [trace snd log emit w7 commit set_conn sent w6].
    rewrite Htr, Hsplit, flat_map_app. cbn [flat_map]. unfold loop_events at 2.
    destruct (String.eqb_spec n "sessions"); [contradiction|]. rewrite Hst.
    exists (trace w4 ++ flat_map (loop_events src) l1),
           (flat_map (loop_events src) l2
            ++ [EvExecute SDetach; EvExecute SVacuum;
                EvLog LInfo "Tautulli database import complete."]).
    repeat rewrite <- app_assoc. reflexivity.
  - cbn [disk snd log emit w7 commit conn set_conn w6 work].
    apply (Hres n st Hst Hn). now left.
Qed.

Lemma overwrite_import_replaces_tables_witness :
  exists w',
    import_tautulli_db (Some "import.db") (Some "overwrite") false overwrite_world
    = (Ret None, w') /\
    rows_of "session_history_metadata" (disk w')
    = [metadata_row 1 "x"; metadata_row 2 "y"; metadata_row 3 "z"].
Proof.
  destruct (overwrite_import_replaces_tables "import.db"
              (mkDb [("session_history_metadata", metadata three_rows)] [])
              overwrite_world) as [w' [Hrun Hres]].
  - intros n. reflexivity.
  - reflexivity.
  - reflexivity.
  - intros n st Hst Hlike Hn. unfold find_table in Hst. cbn [lookup tables] in Hst.
    destruct (String.eqb "session_history_metadata" n) eqn:E; [|discriminate].
    apply String.eqb_eq in E. subst n. inversion Hst; subst st.
    exists (metadata ten_rows). split; [reflexivity|].
    unfold fits. do 4 (split; [reflexivity|]).
    split; [intros H; vm_compute in H; discriminate H | reflexivity].
  - exists w'. split; [exact Hrun|].
    destruct (Hres "session_history_metadata" (metadata three_rows))
      as [_ [dt [Hdt Hrows]]]; [reflexivity | reflexivity | discriminate |].
    unfold rows_of. rewrite Hdt, Hrows. reflexivity.
Defined.

(** ** Idempotence of upsert *)



















Lemma import_commits_each_statement_witness :
  exists evs,
    trace (snd (import_tautulli_db (Some "import.db") (Some "overwrite") false
                  mismatch_world)) = trace mismatch_world ++ evs /\
    disk (snd (import_tautulli_db (Some "import.db") (Some "overwrite") false
                 mismatch_world)) = disk (replay evs mismatch_world) /\
    conn (snd (import_tautulli_db (Some "import.db") (Some "overwrite") false
                 mismatch_world)) = conn (replay evs mismatch_world) /\
    (forall e,
       @Raise (option bool) (OperationalError "table has no column named label")
       = Raise e ->
       disk (snd (import_tautulli_db (Some "import.db") (Some "overwrite") false
                    mismatch_world))
       = work (conn (snd (import_tautulli_db (Some "import.db") (Some "overwrite")
                            false mismatch_world)))).
Proof.
  apply (import_commits_each_statement (Some "import.db") (Some "overwrite") false
           mismatch_world
           (Raise (OperationalError "table has no column named label"))).
  vm_compute. reflexivity.
Defined.

(** *** Why the amended idempotence needs its other premises *)

(** A row that already carries the key: the first call answers 'update'. *)
Example upsert_existing_key :
  fst (upsert "users" [("username", VText "rob")] [("user_id", VInt 10)] users_world)
  = Ret "update".
Proof. vm_compute. reflexivity. Qed.

(** An INSERT that violates a constraint: both calls answer 'insert' and
    no row carries the key. *)
Example upsert_rejected_insert :
  fst (repeat_upsert 2 "users" [("username", VText "bob")] [("user_id", VInt 20)]
                     users_world)
  = Ret ["insert"; "insert"] /\
  filter (has_key [("user_id", VInt 20)])
         (rows_of "users"
            (disk (snd (repeat_upsert 2 "users" [("username", VText "bob")]
                                      [("user_id", VInt 20)] users_world))))
  = [].
Proof. vm_compute. split; reflexivity. Qed.

(** No value to set: the UPDATE is not a statement and the call raises. *)
Example upsert_empty_values :
  fst (upsert "users" [] [("user_id", VInt 20)] users_world)
  = Raise (OperationalError "syntax error").
Proof. vm_compute. reflexivity. Qed.

(** * Further properties of the module *)

(** ** More on the retrying executor *)

Lemma conn_execute_raise (q : stmt) (w w1 : world) (e : exn) :
  conn_execute q w = (Raise e, w1) -> w1 = sent q w.
Proof.
  unfold conn_execute.
  destruct (faults (env w) (clock w)); [now inversion 1|].
  destruct (engine (env w) q (conn w)) as [x|[rows c']]; now inversion 1.
Qed.

Lemma not_transient_test (msg : string) :
  ~ is_transient (OperationalError msg) ->
  String.eqb "unable to open database file" msg || String.eqb "database is locked" msg
  = false.
Proof.
  intros H. apply orb_false_iff. split; apply String.eqb_neq; intros <-; apply H.
  - now left.
  - now right.
Qed.

(** X1.  A database error that is not one of the two transient
    conditions is not retried: [action] sends the statement once, logs the
    error, and raises it; the statement is rolled back and nothing sleeps. *)
Theorem action_fatal_error_not_retried (q : stmt) (w : world) (e : exn) :
  py2 (env w) = true ->
  fst (conn_execute q w) = Raise e ->
  is_DatabaseError e = true ->
  ~ is_transient e ->
  exists w' msg,
    action (Some q) w = (Raise e, w') /\
    trace w' = trace w ++ [EvExecute q; EvLog LError msg] /\
    epoch w' = epoch w /\
    disk w' = disk w /\
    work (conn w') = disk w.
Proof.
  intros Hpy Hex Hdb Hnt.
  destruct (conn_execute q w) as [[rows|e0] w1] eqn:Hc; cbn in Hex; [discriminate|].
  inversion Hex; subst e0. clear Hex.
  pose proof (conn_execute_raise _ _ _ _ Hc) as ->.
  cbn [action retry]. unfold try_except, bind, with_connection. rewrite Hc.
  destruct e as [msg|msg|msg|k| | | |msg| ]; try discriminate.
  - change (env (rollback (sent q w))) with (env w). rewrite Hpy.
    unfold transient_test. rewrite (not_transient_test msg Hnt).
    eexists. exists "Database error". split; [reflexivity|].
    cbn. rewrite <- app_assoc. repeat split.
  - eexists. exists "Fatal Error executing". split; [reflexivity|].
    cbn. rewrite <- app_assoc. repeat split.
  - eexists. exists "Fatal Error executing". split; [reflexivity|].
    cbn. rewrite <- app_assoc. repeat split.
Qed.

Lemma action_fatal_error_not_retried_witness :
  exists w' msg,
    action (Some (SDeleteAll "nope")) users_world
    = (Raise (OperationalError "no such table: nope"), w') /\
    trace w' = trace users_world ++ [EvExecute (SDeleteAll "nope"); EvLog LError msg] /\
    epoch w' = epoch users_world /\
    disk w' = disk users_world /\
    work (conn w') = disk users_world.
Proof.
  apply (action_fatal_error_not_retried (SDeleteAll "nope") users_world
           (OperationalError "no such table: nope")).
  - reflexivity.
  - reflexivity.
  - reflexivity.
  - intros [H|H]; discriminate H.
Defined.

(** X2.  Under Python 3 the handler's test [msg in e] raises TypeError:
    whatever OperationalError the statement meets, a transient one
    included, [action] raises TypeError after one attempt, without a log
    entry and without a pause. *)
Theorem action_python3_no_retry (q : stmt) (w : world) (msg : string) :
  py2 (env w) = false ->
  fst (conn_execute q w) = Raise (OperationalError msg) ->
  exists w',
    action (Some q) w = (Raise TypeError, w') /\
    trace w' = trace w ++ [EvExecute q] /\
    epoch w' = epoch w /\
    disk w' = disk w.
Proof.
  intros Hpy Hex.
  destruct (conn_execute q w) as [[rows|e0] w1] eqn:Hc; cbn in Hex; [discriminate|].
  inversion Hex; subst e0. clear Hex.
  pose proof (conn_execute_raise _ _ _ _ Hc) as ->.
  cbn [action retry]. unfold try_except, bind, with_connection. rewrite Hc.
  change (env (rollback (sent q w))) with (env w). rewrite Hpy. cbn.
  eexists. split; [reflexivity|]. repeat split.
Qed.

Lemma action_python3_no_retry_witness :
  exists w',
    action (Some SVacuum) (world_of (env_with false locked [] ["ok"]) destination [])
    = (Raise TypeError, w') /\
    trace w' = trace (world_of (env_with false locked [] ["ok"]) destination [])
               ++ [EvExecute SVacuum] /\
    epoch w' = epoch (world_of (env_with false locked [] ["ok"]) destination []) /\
    disk w' = disk (world_of (env_with false locked [] ["ok"]) destination []).
Proof.
  apply (action_python3_no_retry SVacuum
           (world_of (env_with false locked [] ["ok"]) destination [])
           "database is locked").
  - reflexivity.
  - reflexivity.
Defined.

Lemma retry_transient (n : nat) (q : stmt) (w : world) (e : exn) :
  py2 (env w) = true ->
  faults (env w) (clock w) = Some e ->
  is_transient e ->
  retry (S n) q w = retry n q (paused q w).
Proof.
  intros Hpy Hf He.
  cbn [retry]. unfold try_except, bind, with_connection, conn_execute.
  rewrite Hf.
  destruct He as [-> | ->];
    change (env (rollback (sent q w))) with (env w); rewrite Hpy; reflexivity.
Qed.

Lemma paused_conn (q : stmt) (w : world) :
  clean w -> in_txn (conn w) = false ->
  conn (paused q w) = conn w /\ clock (paused q w) = S (clock w) /\
  epoch (paused q w) = (epoch w + 1)%Z.
Proof.
  unfold clean, paused, failed. cbn. intros Hc Ht.
  destruct (conn w) as [wk tx at_ tc]; cbn in *. subst. repeat split.
Qed.

Lemma retry_recovers (q : stmt) (rows : list row) (c' : connection) (k : nat) :
  forall n w,
    py2 (env w) = true ->
    k < n ->
    always_busy k w ->
    faults (env w) (clock w + k) = None ->
    clean w ->
    in_txn (conn w) = false ->
    engine (env w) q (conn w) = inr (rows, c') ->
    exists w',
      retry n q w = (Ret (Some rows), w') /\
      trace w' = trace w ++ repeat_events k (failed_attempt q) ++ [EvExecute q] /\
      epoch w' = (epoch w + Z.of_nat k)%Z /\
      disk w' = work c'.
Proof.
  induction k as [|k IH]; intros n w Hpy Hn Hbusy Hf Hclean Htx He.
  - destruct n as [|n]; [lia|].
    rewrite Nat.add_0_r in Hf.
    cbn [retry]. unfold try_except, bind, with_connection, conn_execute.
    rewrite Hf, He. eexists. split; [reflexivity|].
    cbn. rewrite Z.add_0_r. repeat split.
  - destruct n as [|n]; [lia|].
    destruct (Hbusy 0 (Nat.lt_0_succ k)) as [e [Hf0 He0]].
    rewrite Nat.add_0_r in Hf0.
    rewrite (retry_transient n q w e Hpy Hf0 He0).
    destruct (paused_facts q w) as [Henv [Hd [Hw [_ Htr]]]].
    destruct (paused_conn q w Hclean Htx) as [Hconn [Hclk Hep]].
    destruct (IH n (paused q w)) as [w' [Hr [Ht [Hepo Hdisk]]]].
    + now rewrite Henv.
    + lia.
    + intros i Hi. destruct (Hbusy (S i)) as [e' [Hf' He']]; [lia|].
      exists e'. split; [|exact He'].
      rewrite Henv, Hclk. rewrite <- Hf'. f_equal. lia.
    + rewrite Henv, Hclk. rewrite <- Hf. f_equal. lia.
    + unfold clean. now rewrite Hw, Hd.
    + now rewrite Hconn.
    + now rewrite Henv, Hconn.
    + exists w'. split; [exact Hr|]. repeat split.
      * rewrite Ht, Htr. cbn [repeat_events]. now rewrite <- !app_assoc.
      * rewrite Hepo, Hep. lia.
      * exact Hdisk.
Qed.

Lemma executions_app (a b : list event) :
  executions (a ++ b) = executions a + executions b.
Proof. unfold executions. now rewrite filter_app, length_app. Qed.

Lemma seconds_slept_app (a b : list event) :
  seconds_slept (a ++ b) = seconds_slept a + seconds_slept b.
Proof.
  unfold seconds_slept.
  induction a as [|ev a IH]; [reflexivity|].
  cbn. destruct ev; rewrite IH; lia.
Qed.

Lemma executions_repeat (k : nat) (q : stmt) :
  executions (repeat_events k (failed_attempt q)) = k.
Proof.
  induction k as [|k IH]; [reflexivity|].
  cbn [repeat_events]. rewrite executions_app, IH. reflexivity.
Qed.

Lemma seconds_slept_repeat (k : nat) (q : stmt) :
  seconds_slept (repeat_events k (failed_attempt q)) = k.
Proof.
  induction k as [|k IH]; [reflexivity|].
  cbn [repeat_events]. rewrite seconds_slept_app, IH. reflexivity.
Qed.

(** X3.  When the first [k] attempts (fewer than five) meet a transient
    error and the next one does not, [action] returns the result of the
    statement: it was sent [k + 1] times, [k] seconds were slept, and the
    statement's changes are committed. *)
Theorem action_recovers_after_transient_errors (q : stmt) (w : world) (k : nat)
  (rows : list row) (c' : connection) :
  py2 (env w) = true ->
  k < 5 ->
  always_busy k w ->
  faults (env w) (clock w + k) = None ->
  clean w ->
  in_txn (conn w) = false ->
  engine (env w) q (conn w) = inr (rows, c') ->
  exists w' evs,
    action (Some q) w = (Ret (Some rows), w') /\
    trace w' = trace w ++ evs /\
    executions evs = k + 1 /\
    seconds_slept evs = k /\
    disk w' = work c'.
Proof.
  intros Hpy Hk Hbusy Hf Hclean Htx He.
  destruct (retry_recovers q rows c' k 5 w Hpy Hk Hbusy Hf Hclean Htx He)
    as [w' [Hr [Ht [_ Hd]]]].
  exists w', (repeat_events k (failed_attempt q) ++ [EvExecute q]).
  split; [exact Hr|]. split; [exact Ht|].
  split; [|split; [|exact Hd]].
  - rewrite executions_app, executions_repeat. cbn. lia.
  - rewrite seconds_slept_app, seconds_slept_repeat. cbn. lia.
Qed.

Lemma action_recovers_after_transient_errors_witness :
  exists w' evs,
    action (Some SVacuum) (world_of (env_with true busy_twice [] ["ok"]) destination [])
    = (Ret (Some []), w') /\
    trace w' = trace (world_of (env_with true busy_twice [] ["ok"]) destination []) ++ evs /\
    executions evs = 2 + 1 /\
    seconds_slept evs = 2 /\
    disk w' = destination.
Proof.
  apply (action_recovers_after_transient_errors SVacuum
           (world_of (env_with true busy_twice [] ["ok"]) destination []) 2 []
           (mkConn destination false None 0)).
  - reflexivity.
  - lia.
  - intros i Hi. exists (OperationalError "database is locked").
    split; [|right; reflexivity].
    destruct i as [|[|i]]; [reflexivity | reflexivity | lia].
  - reflexivity.
  - reflexivity.
  - reflexivity.
  - reflexivity.
Defined.

(** X4.  On a database that stays locked [select] and [select_single] do
    not report a database error: [action] has returned None after its five
    attempts, and the call of fetchall or fetchone on it raises
    AttributeError. *)
Theorem select_on_locked_database (q : stmt) (w : world) :
  py2 (env w) = true ->
  always_busy 5 w ->
  exists w',
    select q w = (Raise AttributeError, w') /\
    select_single q w = (Raise AttributeError, w') /\
    trace w' = trace w ++ repeat_events 5 (failed_attempt q) /\
    disk w' = disk w.
Proof.
  intros Hpy Hbusy.
  destruct (retry_busy 5 q w Hpy Hbusy) as [w' [Hr [_ [Hd [_ Ht]]]]].
  exists w'. unfold select, select_single, bind, action. rewrite Hr.
  repeat split; assumption.
Qed.

Lemma select_on_locked_database_witness :
  exists w',
    select SSelectTables busy_world = (Raise AttributeError, w') /\
    select_single SSelectTables busy_world = (Raise AttributeError, w') /\
    trace w' = trace busy_world ++ repeat_events 5 (failed_attempt SSelectTables) /\
    disk w' = disk busy_world.
Proof.
  apply (select_on_locked_database SSelectTables busy_world).
  - reflexivity.
  - intros i _. exists (OperationalError "database is locked").
    split; [reflexivity | right; reflexivity].
Defined.

(** ** Deleting rows by id *)

Lemma engine_delete_ids (e : environment) (t : string) (ids : list value)
  (c : connection) :
  binds e ids = true ->
  deletable t (work c) = true ->
  exists n,
    engine e (SDeleteIdIn t ids) c = inr ([], dml c (purge t ids (work c)) n).
Proof.
  intros Hb. rewrite (engine_binds e (SDeleteIdIn t ids) c Hb).
  unfold deletable, purge. cbn [perform].
  destruct (find_table t (work c)) as [tb|]; [|discriminate].
  intros Hm. unfold missing_column. cbn [find]. rewrite Hm. cbn.
  eexists. reflexivity.
Qed.

(** The DELETE fails when its ids cannot be bound, when the table is
    missing and when the table has no id column; the error is not one of
    those that [action] tries again. *)
Lemma engine_delete_ids_error (e : environment) (t : string) (ids : list value)
  (c : connection) :
  deletable t (work c) && binds e ids = false ->
  exists x, engine e (SDeleteIdIn t ids) c = inl x /\ ~ is_transient x.
Proof.
  unfold engine. rewrite refused_binds. cbn [bound].
  destruct (binds e ids).
  - rewrite andb_true_r. unfold deletable. cbn [perform].
    destruct (find_table t (work c)) as [tb|].
    + intros Hm. unfold missing_column. cbn [find]. rewrite Hm. cbn.
      eexists. split; [reflexivity|]. intros [H|H]; discriminate H.
    + intros _. eexists. split; [reflexivity|]. intros [H|H]; discriminate H.
  - intros _. destruct (max_variables e <? List.length ids)%nat;
      (eexists; split; [reflexivity|]; intros [H|H]; discriminate H).
Qed.

(** A statement that the engine refuses for a reason other than a lock:
    whatever the interpreter, [action] raises and the file is as before. *)
Lemma action_engine_error (q : stmt) (w : world) (e : exn) :
  faults (env w) (clock w) = None ->
  engine (env w) q (conn w) = inl e ->
  ~ is_transient e ->
  exists e' w',
    action (Some q) w = (Raise e', w') /\ env w' = env w /\ disk w' = disk w.
Proof.
  intros Hf He Hnt.
  cbn [action retry]. unfold try_except, bind, with_connection, conn_execute.
  rewrite Hf, He.
  destruct e as [msg|msg|msg|k| | | |msg| ];
    try (eexists; eexists; split; [reflexivity|]; split; reflexivity).
  change (env (rollback (sent q w))) with (env w).
  unfold transient_test. destruct (py2 (env w)).
  - rewrite (not_transient_test msg Hnt). eexists. eexists.
    split; [reflexivity|]. split; reflexivity.
  - eexists. eexists. split; [reflexivity|]. split; reflexivity.
Qed.

(** What [delete_rows_from_table] does on an undisturbed connection. *)
Lemma delete_rows_quiet (cast_ids : string -> list value) (t : string)
  (ids : list value) (w : world) :
  quiet w ->
  ids <> [] ->
  exists w',
    delete_rows_from_table cast_ids t (IdsList ids) w
    = (Ret (deletable t (disk w) && binds (env w) ids), w') /\
    env w' = env w /\
    disk w' = if binds (env w) ids then purge t ids (disk w) else disk w.
Proof.
  intros Hq Hids. unfold delete_rows_from_table.
  destruct ids as [|v ids]; [congruence|]. clear Hids.
  set (w1 := snd (log LInfo "Deleting row ids from database table" w)).
  assert (Hq1 : quiet w1) by exact Hq.
  rewrite (bind_ret_eq _ _ (log LInfo "Deleting row ids from database table") _ w w1 tt eq_refl).
  rewrite (bind_ret_eq _ _ _ _ _ _ _ (MonitorDatabase_quiet w1 Hq1)).
  unfold try_except.
  destruct (deletable t (disk w) && binds (env w) (v :: ids)) eqn:Hdel.
  - apply andb_true_iff in Hdel. destruct Hdel as [Hdel Hb]. rewrite Hb.
    destruct (engine_delete_ids (env (opened w1)) t (v :: ids) (conn (opened w1))
                Hb Hdel) as [n He].
    rewrite (bind_ret_eq _ _ _ _ _ _ _ (action_quiet _ (opened w1) _ _ Hq1 He)).
    eexists. split; [reflexivity|]. split; reflexivity.
  - destruct (engine_delete_ids_error (env (opened w1)) t (v :: ids) (conn (opened w1))
                Hdel) as [x [He Hnt]].
    destruct (action_engine_error _ (opened w1) x (Hq1 _) He Hnt)
      as [e' [w2 [Hrun [Henv Hdisk]]]].
    unfold bind at 1. rewrite Hrun.
    eexists. split; [reflexivity|]. cbn. split; [exact Henv|].
    rewrite Hdisk. change (disk (opened w1)) with (disk w).
    destruct (binds (env w) (v :: ids)); [|reflexivity].
    rewrite andb_true_r in Hdel. unfold purge, deletable in *.
    destruct (find_table t (disk w)) as [tb|]; [|reflexivity].
    now rewrite Hdel.
Qed.

Lemma find_table_put_same (t : string) (tb : table) (d : database) :
  find_table t (put_table t tb d) = Some tb.
Proof. unfold find_table, put_table. cbn. apply lookup_assoc_set_eq. Qed.

Lemma find_table_put_other (t t' : string) (tb : table) (d : database) :
  t' <> t -> find_table t' (put_table t tb d) = find_table t' d.
Proof. intros H. unfold find_table, put_table. cbn. now apply lookup_assoc_set_neq. Qed.















Lemma all_digits_uint (d : Decimal.uint) :
  all_digits (NilEmpty.string_of_uint d) = true.
Proof. induction d; cbn; auto. Qed.

Lemma isdigit_uint (d : Decimal.uint) :
  isdigit (NilZero.string_of_uint d) = true.
Proof.
  destruct d; cbn; try reflexivity; apply all_digits_uint.
Qed.












(** The constructor sends nothing but its pragmas and writes nothing. *)
Lemma MonitorDatabase_trace (w : world) :
  disk (snd (MonitorDatabase w)) = disk w /\
  exists evs,
    trace (snd (MonitorDatabase w)) = trace w ++ evs /\
    forall s, In (EvExecute s) evs -> exists name, s = SPragma name.
Proof.
  assert (P : forall l : list string,
             forall s, In (EvExecute s) (map (fun n => EvExecute (SPragma n)) l) ->
                       exists name, s = SPragma name).
  { intros l s Hin. apply in_map_iff in Hin. destruct Hin as [n [Hn _]].
    inversion Hn. now exists n. }
  unfold MonitorDatabase, bind, connect, conn_execute. cbn.
  destruct (faults (env w) (clock w)); cbn.
  { split; [reflexivity|]. exists (map (fun n => EvExecute (SPragma n)) ["synchronous"]).
    split; [reflexivity | apply P]. }
  destruct (faults (env w) (S (clock w))); cbn.
  { split; [reflexivity|].
    exists (map (fun n => EvExecute (SPragma n)) ["synchronous"; "journal_mode"]).
    split; [now rewrite <- app_assoc | apply P]. }
  destruct (faults (env w) (S (S (clock w)))); cbn;
    (split; [reflexivity|];
     exists (map (fun n => EvExecute (SPragma n))
                 ["synchronous"; "journal_mode"; "cache_size"]);
     split; [now rewrite <- !app_assoc | apply P]).
Qed.

(** X9.  An exception leaves [delete_rows_from_table] only when the
    connection cannot be set up: every exception of the DELETE itself is
    caught.  When the function raises, nothing but configuration pragmas
    has been sent and the file is as before. *)
Theorem delete_rows_from_table_raises_only_on_connect
  (cast_ids : string -> list value) (t : string) (row_ids : row_ids_arg)
  (w w' : world) (e : exn) :
  delete_rows_from_table cast_ids t row_ids w = (Raise e, w') ->
  disk w' = disk w /\
  exists evs,
    trace w' = trace w ++ evs /\
    forall s, In (EvExecute s) evs -> exists name, s = SPragma name.
Proof.
  unfold delete_rows_from_table.
  set (ids := match row_ids with
              | IdsNone => []
              | IdsText s => if String.eqb s EmptyString then [] else cast_ids s
              | IdsList l => l
              end).
  destruct ids as [|v ids]; [discriminate|].
  unfold bind at 1. cbn [log emit].
  match goal with |- context [bind MonitorDatabase _ ?w0] => set (w1 := w0) end.
  destruct (MonitorDatabase_trace w1) as [Hd [evs [Ht Hp]]].
  unfold bind at 1.
  destruct (MonitorDatabase w1) as [[[]|e0] w2] eqn:Hm.
  - unfold try_except, bind.
    destruct (action (Some (SDeleteIdIn t (v :: ids))) w2) as [[r|e1] w3];
      discriminate.
  - intros H. inversion H; subst. cbn [snd] in *. split; [exact Hd|].
    exists (EvLog LInfo "Deleting row ids from database table" :: evs).
    split.
    + rewrite Ht. unfold w1. cbn [trace]. now rewrite <- app_assoc.
    + intros s [Hs|Hs]; [discriminate Hs | now apply Hp].
Qed.

Lemma delete_rows_from_table_raises_only_on_connect_witness :
  disk (snd (delete_rows_from_table (fun _ => []) "session_history"
               (IdsList [VInt 1]) busy_world)) = disk busy_world /\
  exists evs,
    trace (snd (delete_rows_from_table (fun _ => []) "session_history"
                  (IdsList [VInt 1]) busy_world)) = trace busy_world ++ evs /\
    forall s, In (EvExecute s) evs -> exists name, s = SPragma name.
Proof.
  apply (delete_rows_from_table_raises_only_on_connect (fun _ => [])
           "session_history" (IdsList [VInt 1]) busy_world _
           (OperationalError "database is locked")).
  reflexivity.
Defined.






(** ** Clearing a table *)

(** What [clear_table] does on an undisturbed connection. *)
Lemma clear_table_quiet (name : string) (w : world) :
  quiet w ->
  name <> EmptyString ->
  exists w',
    clear_table (Some name) w
    = (Ret (Some (match find_table name (disk w) with Some _ => true | None => false end)),
       w') /\
    env w' = env w /\
    disk w'
    = match find_table name (disk w) with
      | Some tb => put_table name (with_rows tb []) (disk w)
      | None => disk w
      end.
Proof.
  intros Hq Hname. unfold clear_table.
  destruct (String.eqb_spec name EmptyString) as [|_]; [contradiction|].
  rewrite (bind_ret_eq _ _ _ _ _ _ _ (MonitorDatabase_quiet w Hq)).
  match goal with |- context [bind (log ?l ?m) _ ?w0] =>
    rewrite (bind_ret_eq _ _ (log l m) _ w0 (snd (log l m w0)) tt eq_refl);
    set (w1 := snd (log l m w0)) end.
  assert (Hq1 : quiet w1) by exact Hq.
  unfold try_except.
  destruct (find_table name (disk w)) as [tb|] eqn:Hf.
  - assert (E1 : engine (env w1) (SDeleteAll name) (conn w1)
                 = inr ([], dml (conn w1) (put_table name (with_rows tb []) (disk w))
                                (List.length (t_rows tb)))).
    { accepted. change (work (conn w1)) with (disk w). now rewrite Hf. }
    rewrite (bind_ret_eq _ _ _ _ _ _ _ (action_quiet _ w1 _ _ Hq1 E1)).
    match goal with |- context [bind (action (Some SVacuum)) _ ?w0] =>
      set (w2 := w0) end.
    rewrite (bind_ret_eq _ _ _ _ _ _ _ (action_quiet SVacuum w2 [] (conn w2) Hq1 eq_refl)).
    eexists. split; [reflexivity|]. split; reflexivity.
  - assert (E1 : engine (env w1) (SDeleteAll name) (conn w1) = inl (no_such_table name)).
    { accepted. change (work (conn w1)) with (disk w). now rewrite Hf. }
    destruct (action_engine_error _ w1 _ (Hq1 _) E1) as [e' [w2 [Hrun [He Hd]]]].
    { intros [H|H]; discriminate H. }
    unfold bind at 1. rewrite Hrun.
    eexists. split; [reflexivity|]. cbn. split; [exact He | exact Hd].
Qed.

(** X11.  On an undisturbed connection, for a plain name and a database
    whose tables and columns have plain names, [clear_table] empties the
    table and returns True: DELETE FROM leaves sqlite_sequence alone, so
    the table's autoincrement counter goes on from where it was, and no
    other table is touched.  A table that does not exist gives False, not
    an exception, and the file stays as it was. *)
Theorem clear_table_empties_table (name : string) (w : world) :
  quiet w ->
  plain_name name = true ->
  plain_schema (disk w) = true ->
  exists b w',
    clear_table (Some name) w = (Ret (Some b), w') /\
    (b = true <-> find_table name (disk w) <> None) /\
    (forall tb, find_table name (disk w) = Some tb ->
                find_table name (disk w') = Some (with_rows tb [])) /\
    (forall t, t <> name -> find_table t (disk w') = find_table t (disk w)) /\
    (b = false -> disk w' = disk w) /\
    sequence (disk w') = sequence (disk w).
Proof.
  intros Hq Hplain _.
  assert (Hname : name <> EmptyString) by (intros ->; discriminate Hplain).
  destruct (clear_table_quiet name w Hq Hname) as [w' [Hrun [_ Hd]]].
  eexists. exists w'. split; [exact Hrun|]. rewrite Hd.
  destruct (find_table name (disk w)) as [tb|] eqn:Hf.
  - split; [split; [discriminate | reflexivity]|].
    split; [intros tb' Htb'; inversion Htb'; subst; apply find_table_put_same|].
    split; [intros t Ht; now apply find_table_put_other|].
    split; [discriminate | reflexivity].
  - split; [split; [discriminate | congruence]|].
    split; [discriminate|]. repeat split.
Qed.

Lemma clear_table_empties_table_witness :
  exists w',
    clear_table (Some "sessions") sessions_world = (Ret (Some true), w') /\
    rows_of "sessions" (disk w') = [] /\
    rows_of "users" (disk w') = rows_of "users" sessions_db /\
    sequence (disk w') = [("sessions", 2%Z); ("recently_added", 1%Z); ("users", 1%Z)].
Proof.
  destruct (clear_table_empties_table "sessions" sessions_world)
    as [b [w' [Hrun [Hb [Hsame [Hother [_ Hseq]]]]]]].
  - intros n. reflexivity.
  - vm_compute. reflexivity.
  - vm_compute. reflexivity.
  - exists w'. split; [|split; [|split]].
    + rewrite Hrun. f_equal. f_equal. f_equal. apply Hb. discriminate.
    + unfold rows_of. now rewrite (Hsame _ eq_refl).
    + unfold rows_of. rewrite (Hother "users"); [reflexivity | discriminate].
    + exact Hseq.
Defined.

Lemma MonitorDatabase_ok (w : world) :
  (forall i, i < 3 -> faults (env w) (clock w + i) = None) ->
  MonitorDatabase w = (Ret tt, opened w).
Proof.
  intros H.
  assert (H0 : faults (env w) (clock w) = None)
    by (rewrite <- (H 0) by lia; f_equal; lia).
  assert (H1 : faults (env w) (S (clock w)) = None)
    by (rewrite <- (H 1) by lia; f_equal; lia).
  assert (H2 : faults (env w) (S (S (clock w))) = None)
    by (rewrite <- (H 2) by lia; f_equal; lia).
  unfold MonitorDatabase, bind, connect, conn_execute. cbn.
  rewrite H0. cbn. rewrite H1. cbn. rewrite H2.
  unfold opened, ret, set_conn, sent. cbn.
  now rewrite <- !app_assoc.
Qed.

(** X12.  [clear_table] reports success for a table it did not clear:
    when the file stays locked after the connection is set up, both
    statements are given up after five attempts each, [action] returns
    None instead of raising, and the function returns True with the file
    unchanged. *)
Theorem clear_table_locked_reports_success (name : string) (w : world) :
  py2 (env w) = true ->
  name <> EmptyString ->
  locked_after_connect 10 w ->
  exists w' evs,
    clear_table (Some name) w = (Ret (Some true), w') /\
    disk w' = disk w /\
    trace w' = trace w ++ evs /\
    seconds_slept evs = 10.
Proof.
  intros Hpy Hname [Hok Hbusy]. unfold clear_table.
  destruct (String.eqb_spec name EmptyString) as [|_]; [contradiction|].
  rewrite (bind_ret_eq _ _ _ _ _ _ _ (MonitorDatabase_ok w Hok)).
  match goal with |- context [bind (log ?l ?m) _ ?w0] =>
    rewrite (bind_ret_eq _ _ (log l m) _ w0 (snd (log l m w0)) tt eq_refl);
    set (w1 := snd (log l m w0)) end.
  destruct (retry_busy 5 (SDeleteAll name) w1 Hpy) as [w2 [H2 [He2 [Hd2 [Hc2 Ht2]]]]].
  { intros i Hi. destruct (Hbusy i) as [e [Hf He]]; [lia|].
    exists e. split; [|exact He]. cbn [w1 env clock snd log emit opened].
    rewrite <- Hf. f_equal. lia. }
  destruct (retry_busy 5 SVacuum w2) as [w3 [H3 [He3 [Hd3 [Hc3 Ht3]]]]].
  { now rewrite He2. }
  { intros i Hi. destruct (Hbusy (5 + i)) as [e [Hf He]]; [lia|].
    exists e. split; [|exact He]. rewrite He2, Hc2.
    cbn [w1 env clock snd log emit opened].
    rewrite <- Hf. f_equal. lia. }
  unfold try_except, bind, action. rewrite H2, H3.
  exists w3. eexists. split; [reflexivity|]. split; [rewrite Hd3, Hd2; reflexivity|].
  split.
  - rewrite Ht3, Ht2. cbn [w1 trace snd log emit opened].
    repeat rewrite <- app_assoc. reflexivity.
  - rewrite !seconds_slept_app, !seconds_slept_repeat. reflexivity.
Qed.

Lemma clear_table_locked_reports_success_witness :
  exists w' evs,
    clear_table (Some "sessions")
      (world_of (env_with true locked_later [] ["ok"]) sessions_db [])
    = (Ret (Some true), w') /\
    disk w' = sessions_db /\
    trace w' = [] ++ evs /\
    seconds_slept evs = 10.
Proof.
  apply (clear_table_locked_reports_success "sessions"
           (world_of (env_with true locked_later [] ["ok"]) sessions_db [])).
  - reflexivity.
  - discriminate.
  - split.
    + intros i Hi. destruct i as [|[|[|i]]]; [reflexivity | reflexivity | reflexivity | lia].
    + intros i _. exists (OperationalError "database is locked").
      split; [reflexivity | right; reflexivity].
Defined.

(** X13.  [delete_sessions] and [delete_recently_added] clear their own
    table and nothing else: on an undisturbed connection each returns True
    when its table exists, the table is then empty, and every other table
    is as before. *)
Theorem delete_sessions_and_recently_added (w : world) :
  quiet w ->
  (forall tb,
     find_table "sessions" (disk w) = Some tb ->
     exists w',
       delete_sessions w = (Ret (Some true), w') /\
       find_table "sessions" (disk w') = Some (with_rows tb []) /\
       forall t, t <> "sessions" -> find_table t (disk w') = find_table t (disk w)) /\
  (forall tb,
     find_table "recently_added" (disk w) = Some tb ->
     exists w',
       delete_recently_added w = (Ret (Some true), w') /\
       find_table "recently_added" (disk w') = Some (with_rows tb []) /\
       forall t, t <> "recently_added" ->
                 find_table t (disk w') = find_table t (disk w)).
Proof.
  intros Hq. split; intros tb Hf.
  - unfold delete_sessions.
    match goal with |- context [bind (log ?l ?m) _ ?w0] =>
      rewrite (bind_ret_eq _ _ (log l m) _ w0 (snd (log l m w0)) tt eq_refl);
      set (w1 := snd (log l m w0)) end.
    destruct (clear_table_quiet "sessions" w1 Hq) as [w' [Hrun [_ Hd]]];
      [discriminate|].
    change (disk w1) with (disk w) in *. rewrite Hf in *.
    exists w'. split; [exact Hrun|]. rewrite Hd.
    split; [apply find_table_put_same | intros t Ht; now apply find_table_put_other].
  - unfold delete_recently_added.
    match goal with |- context [bind (log ?l ?m) _ ?w0] =>
      rewrite (bind_ret_eq _ _ (log l m) _ w0 (snd (log l m w0)) tt eq_refl);
      set (w1 := snd (log l m w0)) end.
    destruct (clear_table_quiet "recently_added" w1 Hq) as [w' [Hrun [_ Hd]]];
      [discriminate|].
    change (disk w1) with (disk w) in *. rewrite Hf in *.
    exists w'. split; [exact Hrun|]. rewrite Hd.
    split; [apply find_table_put_same | intros t Ht; now apply find_table_put_other].
Qed.

Lemma delete_sessions_and_recently_added_witness :
  (exists w',
     delete_sessions sessions_world = (Ret (Some true), w') /\
     rows_of "sessions" (disk w') = [] /\
     rows_of "recently_added" (disk w') = rows_of "recently_added" sessions_db) /\
  (exists w',
     delete_recently_added sessions_world = (Ret (Some true), w') /\
     rows_of "recently_added" (disk w') = [] /\
     rows_of "sessions" (disk w') = rows_of "sessions" sessions_db).
Proof.
  destruct (delete_sessions_and_recently_added sessions_world) as [Hs Hr].
  - intros n. reflexivity.
  - split.
    + destruct (Hs _ eq_refl) as [w' [Hrun [Hsame Hother]]].
      exists w'. split; [exact Hrun|]. unfold rows_of. rewrite Hsame.
      split; [reflexivity|].
      rewrite (Hother "recently_added"); [reflexivity | discriminate].
    + destruct (Hr _ eq_refl) as [w' [Hrun [Hsame Hother]]].
      exists w'. split; [exact Hrun|]. unfold rows_of. rewrite Hsame.
      split; [reflexivity|].
      rewrite (Hother "sessions"); [reflexivity | discriminate].
Defined.

(** ** Computations that do not write *)

Lemma leaves_keeps (A : Type) (m : M A) : leaves_file m -> keeps_file m.
Proof. intros H w r w' _. apply H. Qed.

Lemma file_ret (A : Type) (a : A) : keeps_file (ret a).
Proof. intros w r w' Hc H. inversion H; subst. now split. Qed.

Lemma file_raise (A : Type) (e : exn) : keeps_file (@raise A e).
Proof. intros w r w' Hc H. inversion H; subst. now split. Qed.

Lemma file_read (A : Type) (f : world -> A) : keeps_file (fun w => (Ret (f w), w)).
Proof. intros w r w' Hc H. inversion H; subst. now split. Qed.

Lemma file_emit (ev : event) : keeps_file (emit ev).
Proof. intros w r w' Hc H. inversion H; subst. now split. Qed.

Lemma file_log (lvl : level) (msg : string) : keeps_file (log lvl msg).
Proof. apply file_emit. Qed.

Lemma file_notify (a : string) : keeps_file (notify a).
Proof. intros w r w' Hc H. inversion H; subst. now split. Qed.

Lemma file_getitem (k : string) (d : row) : keeps_file (getitem k d).
Proof.
  unfold getitem. destruct (lookup k d); [apply file_ret | apply file_raise].
Qed.

Lemma file_bind (A B : Type) (m : M A) (k : A -> M B) :
  keeps_file m -> (forall a, keeps_file (k a)) -> keeps_file (bind m k).
Proof.
  intros Hm Hk w r w' Hc H. unfold bind in H.
  destruct (m w) as [[a|e] w1] eqn:Hrun.
  - destruct (Hm _ _ _ Hc Hrun) as [Hc1 [Hd1 He1]].
    destruct (Hk a w1 r w' Hc1 H) as [Hc2 [Hd2 He2]].
    split; [exact Hc2 | split; congruence].
  - inversion H; subst. exact (Hm _ _ _ Hc Hrun).
Qed.

Lemma leaves_bind (A B : Type) (m : M A) (k : A -> M B) :
  leaves_file m -> (forall a, keeps_file (k a)) -> leaves_file (bind m k).
Proof.
  intros Hm Hk w r w' H. unfold bind in H.
  destruct (m w) as [[a|e] w1] eqn:Hrun.
  - destruct (Hm _ _ _ Hrun) as [Hc1 [Hd1 He1]].
    destruct (Hk a w1 r w' Hc1 H) as [Hc2 [Hd2 He2]].
    split; [exact Hc2 | split; congruence].
  - inversion H; subst. exact (Hm _ _ _ Hrun).
Qed.

Lemma file_try (A : Type) (body : M A) (handler : exn -> M A) :
  keeps_file body -> (forall e, keeps_file (handler e)) ->
  keeps_file (try_except body handler).
Proof.
  intros Hb Hh w r w' Hc H. unfold try_except in H.
  destruct (body w) as [[a|e] w1] eqn:Hrun.
  - inversion H; subst. exact (Hb _ _ _ Hc Hrun).
  - destruct (Hb _ _ _ Hc Hrun) as [Hc1 [Hd1 He1]].
    destruct (Hh e w1 r w' Hc1 H) as [Hc2 [Hd2 He2]].
    split; [exact Hc2 | split; congruence].
Qed.

Lemma file_conn_execute (s : stmt) : reads_only s -> keeps_file (conn_execute s).
Proof.
  intros Hs w r w' Hc H. unfold conn_execute in H.
  destruct (faults (env w) (clock w)).
  - inversion H; subst. now split.
  - destruct (engine (env w) s (conn w)) as [e|[rows c']] eqn:He.
    + inversion H; subst. now split.
    + inversion H; subst. unfold clean. cbn. rewrite (Hs _ _ _ _ He). now split.
Qed.

Lemma file_retry (q : stmt) (n : nat) :
  reads_only q -> keeps_file (retry n q).
Proof.
  intros Hq. induction n as [|n IH]; intros w r w' Hc H.
  - cbn in H. inversion H; subst. now split.
  - destruct (retry_step n q w) as [[rows [c' [_ [He E]]]] | [[e [w1 [E Hw]]] | E]];
      rewrite E in H.
    + inversion H; subst. unfold clean. cbn. rewrite (Hq _ _ _ _ He). now split.
    + inversion H; subst. destruct Hw as [-> | [msg ->]]; now split.
    + destruct (paused_facts q w) as [Hv [Hd [Hw _]]].
      destruct (IH (paused q w) r w') as [Hc' [Hd' He']]; [|exact H|].
      * unfold clean. now rewrite Hw, Hd.
      * split; [exact Hc' | split; congruence].
Qed.

Lemma file_action (q : stmt) : reads_only q -> keeps_file (action (Some q)).
Proof. apply file_retry. Qed.

Lemma file_select_single (q : stmt) : reads_only q -> keeps_file (select_single q).
Proof.
  intros Hq. unfold select_single. apply file_bind; [now apply file_action|].
  intros [[|r rows]|]; try apply file_ret. apply file_raise.
Qed.

Lemma file_select (q : stmt) : reads_only q -> keeps_file (select q).
Proof.
  intros Hq. unfold select. apply file_bind; [now apply file_action|].
  intros [rows|]; [apply file_ret | apply file_raise].
Qed.

Lemma reads_pragma (name : string) : reads_only (SPragma name).
Proof. intros e c rows c' H. cbn in H. now inversion H. Qed.

Lemma reads_begin : reads_only SBeginImmediate.
Proof.
  intros e c rows c' H. cbn in H.
  destruct (in_txn c); [discriminate | now inversion H].
Qed.

Lemma reads_integrity_check : reads_only SIntegrityCheck.
Proof. intros e c rows c' H. cbn in H. now inversion H. Qed.

Lemma leaves_MonitorDatabase : leaves_file MonitorDatabase.
Proof.
  unfold MonitorDatabase. apply leaves_bind.
  - intros w r w' H. inversion H; subst. now split.
  - intros _.
    repeat (apply file_bind; [apply file_conn_execute, reads_pragma | intros _]).
    apply file_ret.
Qed.

Lemma file_copyfile (name : string) : keeps_file (copyfile name).
Proof.
  unfold copyfile. apply file_bind; [apply file_emit | intros _].
  intros w r w' Hc H.
  destruct (copy_fault (env w)); [destruct (copy_creates (env w))|];
    inversion H; subst; now split.
Qed.

Lemma file_ensure_folder : keeps_file ensure_folder.
Proof.
  intros w r w' Hc H. unfold ensure_folder in H.
  destruct (backup_dir w); inversion H; subst; now split.
Qed.

Lemma file_rollback : keeps_file (fun w => (Ret tt, rollback w)).
Proof. intros w r w' Hc H. inversion H; subst. now split. Qed.

Lemma file_os_remove (f : file) : keeps_file (os_remove f).
Proof.
  unfold os_remove. apply file_bind; [apply file_emit | intros _].
  intros w r w' Hc H. destruct (undeletable (env w) f); inversion H; subst; now split.
Qed.

Lemma file_sweep (now : Z) (cands : list file) : keeps_file (sweep now cands).
Proof.
  induction cands as [|f cands IH]; cbn [sweep]; [apply file_ret|].
  apply file_bind; [|intros _; exact IH].
  intros w r w' Hc H.
  destruct (f_mtime f <? now - backup_days (env w) * 86400)%Z.
  - revert w r w' Hc H. apply file_try; [apply file_os_remove|].
    intros e. destruct (is_OSError e); [apply file_log | apply file_raise].
  - inversion H; subst. now split.
Qed.

Ltac no_write :=
  repeat first
    [ apply file_ret | apply file_raise | apply file_log | apply file_notify
    | apply file_getitem | apply file_read
    | apply file_select_single, reads_integrity_check
    | apply file_conn_execute, reads_begin
    | apply file_sweep | apply file_copyfile | apply file_ensure_folder
    | apply file_rollback
    | apply leaves_keeps, leaves_MonitorDatabase
    | apply file_bind; [| intros ?]
    | match goal with
      | |- keeps_file (if ?b then _ else _) => destruct b
      end ].

Lemma leaves_integrity_check : leaves_file integrity_check.
Proof.
  unfold integrity_check.
  apply leaves_bind; [apply leaves_MonitorDatabase | intros _; no_write].
Qed.

Lemma leaves_make_backup (cleanup scheduler : bool) :
  leaves_file (make_backup cleanup scheduler).
Proof.
  unfold make_backup.
  apply leaves_bind; [apply leaves_integrity_check | intros check; no_write].
Qed.

(** X14.  A backup never writes to the database: whatever fails on the
    way (a locked file, a failing copy, a file that cannot be removed),
    after [integrity_check] and after [make_backup] the database file
    holds what it held before, and the connection has no uncommitted
    change. *)
Theorem make_backup_keeps_database (cleanup scheduler : bool) (w : world) :
  disk (snd (integrity_check w)) = disk w /\
  disk (snd (make_backup cleanup scheduler w)) = disk w /\
  work (conn (snd (make_backup cleanup scheduler w))) = disk w.
Proof.
  destruct (leaves_integrity_check w (fst (integrity_check w))
              (snd (integrity_check w))) as [_ [H1 _]];
    [now destruct (integrity_check w)|].
  destruct (leaves_make_backup cleanup scheduler w
              (fst (make_backup cleanup scheduler w))
              (snd (make_backup cleanup scheduler w))) as [Hc [H2 _]];
    [now destruct (make_backup cleanup scheduler w)|].
  split; [exact H1|]. split; [exact H2|]. unfold clean in Hc. congruence.
Qed.

(** ** The name of the backup and the sweep *)

Lemma length_append (a b : string) :
  String.length (a ++ b) = String.length a + String.length b.
Proof. induction a as [|c a IH]; cbn; [reflexivity | now rewrite IH]. Qed.

Lemma append_assoc (a b c : string) : ((a ++ b) ++ c = a ++ (b ++ c))%string.
Proof. induction a as [|x a IH]; cbn; [reflexivity | now rewrite IH]. Qed.

Lemma substring_all (s : string) : substring 0 (String.length s) s = s.
Proof. induction s as [|c s IH]; cbn; [reflexivity | now rewrite IH]. Qed.

Lemma substring_skip (a b : string) (m : nat) :
  substring (String.length a) m (a ++ b) = substring 0 m b.
Proof. induction a as [|c a IH]; cbn; [reflexivity | exact IH]. Qed.

Lemma endswith_append (a suffix : string) : endswith (a ++ suffix) suffix = true.
Proof.
  unfold endswith. rewrite length_append.
  replace (String.length a + String.length suffix - String.length suffix)
    with (String.length a) by lia.
  rewrite substring_skip, substring_all, String.eqb_refl.
  rewrite andb_true_r. apply Nat.leb_le. lia.
Qed.

Lemma digit_not_dot (c : ascii) : is_digit c = true -> Ascii.eqb c "." = false.
Proof.
  intros H. destruct (Ascii.eqb_spec c "."%char) as [->|_]; [discriminate H | reflexivity].
Qed.

(** The name ends in '.sched.db' exactly for a scheduled backup. *)
Lemma backup_name_suffix (e : environment) (healthy scheduler : bool) :
  endswith (backup_name e healthy scheduler) ".sched.db" = scheduler.
Proof.
  unfold backup_name.
  destruct scheduler.
  - rewrite <- (append_assoc (timestamp (wall e))).
    rewrite <- (append_assoc "tautulli.backup-"). apply endswith_append.
  - unfold timestamp, pad4, pad2.
    pose proof (digit_not_dot _ (is_digit_digit (hour (wall e) / 10))) as H0.
    generalize dependent (digit (hour (wall e) / 10)).
    generalize (digit (year (wall e) / 1000)) (digit (year (wall e) / 100))
               (digit (year (wall e) / 10)) (digit (year (wall e)))
               (digit (month (wall e) / 10)) (digit (month (wall e)))
               (digit (day (wall e) / 10)) (digit (day (wall e)))
               (digit (hour (wall e)))
               (digit (minute (wall e) / 10)) (digit (minute (wall e)))
               (digit (second (wall e) / 10)) (digit (second (wall e))).
    intros a1 a2 a3 a4 a5 a6 a7 a8 a10 a11 a12 a13 a14 a9 H9.
    destruct healthy; unfold endswith; cbn.
    + now rewrite H9.
    + reflexivity.
Qed.

(** X15.  The file that an undisturbed [make_backup] copies has a name
    ending in '.sched.db' exactly when the backup was asked for by the
    scheduler: a manual backup is never among the files that a retention
    sweep looks at, whatever the time of day and the state of the
    database. *)
Theorem make_backup_scheduled_suffix (cleanup scheduler : bool) (w : world)
  (m : string) (rest : list string) :
  quiet w ->
  copy_fault (env w) = None ->
  integrity (env w) = m :: rest ->
  exists name b w',
    make_backup cleanup scheduler w = (Ret b, w') /\
    copies (trace w') = copies (trace w) ++ [name] /\
    scheduled (mkFile [] name (epoch w)) = scheduler.
Proof.
  intros Hq Hcopy Hint.
  destruct (make_backup_quiet cleanup scheduler w m rest Hq Hcopy Hint)
    as [w' [Hrun [_ [Hc _]]]].
  exists (backup_name (env w) (String.eqb m "ok") scheduler).
  eexists. exists w'. split; [exact Hrun|]. split; [exact Hc|].
  apply backup_name_suffix.
Qed.

Lemma make_backup_scheduled_suffix_witness :
  exists name b w',
    make_backup true false backup_world = (Ret b, w') /\
    copies (trace w') = copies (trace backup_world) ++ [name] /\
    scheduled (mkFile [] name (epoch backup_world)) = false.
Proof.
  apply (make_backup_scheduled_suffix true false backup_world "ok" []).
  - intros n. reflexivity.
  - reflexivity.
  - reflexivity.
Defined.

(** X16.  With a retention period of at least one day, an undisturbed
    [make_backup] returns True and its file is in the folder afterwards:
    the sweep that follows the copy cannot remove the file just made,
    because the file was written less than a day before the sweep reads
    the time. *)
Theorem make_backup_keeps_fresh_copy (cleanup scheduler : bool) (w : world)
  (m : string) (rest : list string) :
  quiet w ->
  copy_fault (env w) = None ->
  integrity (env w) = m :: rest ->
  (0 < backup_days (env w))%Z ->
  exists w',
    make_backup cleanup scheduler w = (Ret true, w') /\
    In (mkFile [] (backup_name (env w) (String.eqb m "ok") scheduler) (epoch w))
       (folder w').
Proof.
  intros Hq Hcopy Hint Hdays.
  destruct (make_backup_quiet cleanup scheduler w m rest Hq Hcopy Hint)
    as [w' [Hrun [_ [_ [Hf _]]]]].
  set (name := backup_name (env w) (String.eqb m "ok") scheduler) in *.
  set (f0 := mkFile [] name (epoch w)).
  assert (Hin : In f0 (folder w')).
  { rewrite Hf.
    assert (H0 : In f0 (copied name w)) by (apply in_or_app; right; now left).
    destruct (cleanup && String.eqb m "ok"); [|exact H0].
    apply filter_In. split; [exact H0|].
    apply negb_true_iff.
    destruct (existsb _ (filter scheduled (copied name w))) eqn:Hex; [|reflexivity].
    apply existsb_exists in Hex. destruct Hex as [f [Hfin Hp]].
    apply filter_In in Hfin. destruct Hfin as [Hfin _].
    apply andb_true_iff in Hp. destruct Hp as [Hp _].
    apply andb_true_iff in Hp. destruct Hp as [Hsame Hexp].
    unfold same_path in Hsame. cbn [f0 f_dir f_name] in Hsame.
    destruct (list_eq_dec string_dec [] (f_dir f)) as [Hdir|]; [|discriminate].
    apply String.eqb_eq in Hsame.
    apply in_app_or in Hfin. destruct Hfin as [Hold|[<-|[]]].
    - apply filter_In in Hold. destruct Hold as [_ Htop].
      unfold top_level in Htop. rewrite <- Hdir, <- Hsame in Htop.
      now rewrite String.eqb_refl in Htop.
    - unfold expired in Hexp. cbn [f_mtime] in Hexp.
      apply Z.ltb_lt in Hexp. pose proof (elapsed_bounds (env w)). lia. }
  exists w'. split; [|exact Hin].
  rewrite Hrun. f_equal. f_equal. apply mem_In.
  unfold listdir. apply in_map_iff. exists f0. now split.
Qed.

Lemma make_backup_keeps_fresh_copy_witness :
  exists w',
    make_backup true true backup_world = (Ret true, w') /\
    In (mkFile [] "tautulli.backup-20200102030405.sched.db" 1577934245) (folder w').
Proof.
  apply (make_backup_keeps_fresh_copy true true backup_world "ok" []).
  - intros n. reflexivity.
  - reflexivity.
  - reflexivity.
  - cbn. lia.
Defined.

(** X17.  [make_backup] has no try/finally around the copy: when
    shutil.copyfile raises, the exception leaves the function, the
    rollback that follows the copy is not reached, and the connection is
    still inside the transaction opened by BEGIN IMMEDIATE; nothing was
    removed from the folder.  A copy that failed before it created its
    destination leaves the folder as it was; a copy that failed later
    (a full disk) leaves the file it was writing in the folder, in the
    place of any file of that name. *)
Theorem make_backup_copy_failure (cleanup scheduler : bool) (w : world)
  (m : string) (rest : list string) (e : exn) :
  quiet w ->
  copy_fault (env w) = Some e ->
  integrity (env w) = m :: rest ->
  exists w',
    make_backup cleanup scheduler w = (Raise e, w') /\
    in_txn (conn w') = true /\
    folder w'
    = (if copy_creates (env w)
       then copied (backup_name (env w) (String.eqb m "ok") scheduler) w
       else folder w) /\
    removals (trace w') = removals (trace w).
Proof.
  intros Hq Hcopy Hint.
  unfold make_backup.
  destruct (integrity_check_quiet w m rest Hq Hint) as [w1 [Hrun1 Ha1]].
  rewrite (bind_ret_eq _ _ _ _ _ _ _ Hrun1).
  cbn [getitem lookup String.eqb Ascii.eqb Bool.eqb].
  unfold bind at 1, ret at 1. cbn [value_eqb].
  set (healthy := String.eqb m "ok").
  assert (Hname : forall stamp corrupt,
             stamp = timestamp (wall (env w)) ->
             corrupt = (if healthy then EmptyString else ".corrupt") ->
             (if scheduler
              then ("tautulli.backup-" ++ stamp ++ corrupt ++ ".sched.db")%string
              else ("tautulli.backup-" ++ stamp ++ corrupt ++ ".db")%string)
             = backup_name (env w) healthy scheduler).
  { intros stamp corrupt -> ->. unfold backup_name. now destruct scheduler. }
  assert (Hcor : exists w2,
             (if negb healthy
              then notify "on_plexpydbcorrupt" ;; ret ".corrupt"
              else ret EmptyString) w1
             = (Ret (if healthy then EmptyString else ".corrupt"), w2) /\
             env w2 = env w /\ epoch w2 = epoch w /\ folder w2 = folder w /\
             removals (trace w2) = removals (trace w)).
  { destruct Ha1 as [He1 [Hep1 [_ [Hf1 [_ Hr1]]]]].
    destruct healthy; cbn [negb].
    - exists w1. repeat split; assumption.
    - eexists. split; [reflexivity|]. unfold folder in *. cbn.
      rewrite removals_app. cbn. rewrite app_nil_r. repeat split; assumption. }
  destruct Hcor as [w2 [Hrun2 [He2 [Hep2 [Hf2 Hr2]]]]].
  rewrite (bind_ret_eq _ _ _ _ _ _ _ Hrun2).
  unfold bind at 1. cbv beta iota.
  rewrite (Hname _ _ (f_equal (fun e => timestamp (wall e)) He2) eq_refl).
  clear Hname. set (name := backup_name (env w) healthy scheduler).
  destruct (ensure_folder_agree w2) as [w3 [Hrun3 [He3 [Hep3 [_ [Hf3 [_ Hr3]]]]]]].
  rewrite (bind_ret_eq _ _ _ _ _ _ _ Hrun3).
  assert (Hq3 : quiet w3) by (intros n; rewrite He3, He2; apply Hq).
  rewrite (bind_ret_eq _ _ _ _ _ _ _ (MonitorDatabase_quiet w3 Hq3)).
  rewrite (bind_ret_eq _ _ _ _ _ _ _
             (conn_execute_quiet SBeginImmediate (opened w3) _ _ Hq3 eq_refl)).
  unfold bind at 1. unfold copyfile, bind, emit.
  cbn [env set_conn sent opened]. rewrite He3, He2, Hcopy.
  eexists. split; [reflexivity|].
  destruct (copy_creates (env w)).
  - cbn [written conn in_txn trace set_conn sent opened]. split; [reflexivity|]. split.
    + transitivity (copied name w3); [reflexivity|].
      unfold copied. now rewrite Hf3, Hf2, Hep3, Hep2.
    + rewrite !removals_app. cbn [removals flat_map app].
      rewrite !app_nil_r. congruence.
  - cbn [conn in_txn trace set_conn sent opened]. split; [reflexivity|]. split.
    + transitivity (folder w3); [reflexivity | congruence].
    + rewrite !removals_app. cbn [removals flat_map app].
      rewrite !app_nil_r. congruence.
Qed.

Lemma make_backup_copy_failure_witness :
  exists w',
    make_backup false false
      (world_of (mkEnv true no_fault [] (fun _ => None) ["ok"] 5
                       (mkDatetime 2020 1 2 3 4 5) (fun _ => false)
                       (Some (OSError "No space left on device")) true 1 0)
                destination [])
    = (Raise (OSError "No space left on device"), w') /\
    in_txn (conn w') = true /\
    folder w' = [mkFile [] "tautulli.backup-20200102030405.db" 1577934245] /\
    removals (trace w') = [].
Proof.
  apply (make_backup_copy_failure false false
           (world_of (mkEnv true no_fault [] (fun _ => None) ["ok"] 5
                            (mkDatetime 2020 1 2 3 4 5) (fun _ => false)
                            (Some (OSError "No space left on device")) true 1 0)
                     destination []) "ok" []).
  - intros n. reflexivity.
  - reflexivity.
  - reflexivity.
Defined.

(** ** The entry checks of the import *)

(** X18.  The import refuses a file that sqlite3.connect cannot open and
    a method other than 'merge' and 'overwrite' before it opens its own
    connection: it returns False, sends no statement, and leaves the
    database file and the connection in use as they were. *)
Theorem import_rejected_at_entry (database method : option string)
  (backup : bool) (w : world) :
  opens database w = false \/ valid_method method = false ->
  exists w' evs,
    import_tautulli_db database method backup w = (Ret (Some false), w') /\
    trace w' = trace w ++ evs /\
    executions evs = 0 /\
    copies evs = [] /\
    disk w' = disk w /\
    conn w' = conn w.
Proof.
  intros H. unfold import_tautulli_db, validate_database, try_except, open_database.
  unfold bind at 1. unfold bind at 1.
  destruct database as [path|].
  - destruct (connect_fault (env w) path) as [e|] eqn:Hc.
    + destruct e; cbn; eexists; eexists;
        (split; [reflexivity|]); rewrite <- app_assoc;
        (split; [reflexivity|]); repeat split.
    + destruct H as [H|H]; [unfold opens in H; rewrite Hc in H; discriminate|].
      cbn [ret negb String.eqb Ascii.eqb Bool.eqb].
      destruct method as [m|]; cbn in H.
      * unfold mem. cbn [existsb]. rewrite H. cbn.
        eexists; eexists; (split; [reflexivity|]); repeat split.
      * cbn. eexists; eexists; (split; [reflexivity|]); repeat split.
  - cbn. eexists; eexists; (split; [reflexivity|]); rewrite <- app_assoc;
      (split; [reflexivity|]); repeat split.
Qed.

Lemma import_rejected_at_entry_witness :
  (exists w' evs,
     import_tautulli_db (Some "import.db") (Some "merge") true unreadable_world
     = (Ret (Some false), w') /\
     trace w' = trace unreadable_world ++ evs /\
     executions evs = 0 /\ copies evs = [] /\
     disk w' = disk unreadable_world /\ conn w' = conn unreadable_world) /\
  (exists w' evs,
     import_tautulli_db (Some "import.db") (Some "replace") true merge_world
     = (Ret (Some false), w') /\
     trace w' = trace merge_world ++ evs /\
     executions evs = 0 /\ copies evs = [] /\
     disk w' = disk merge_world /\ conn w' = conn merge_world).
Proof.
  split.
  - apply (import_rejected_at_entry (Some "import.db") (Some "merge") true
             unreadable_world).
    left. reflexivity.
  - apply (import_rejected_at_entry (Some "import.db") (Some "replace") true
             merge_world).
    right. reflexivity.
Defined.

Lemma bind_never_true (A : Type) (m : M A) (k : A -> M (option bool)) :
  (forall a w, fst (k a w) <> Ret (Some true)) ->
  forall w, fst (bind m k w) <> Ret (Some true).
Proof.
  intros Hk w. unfold bind. destruct (m w) as [[a|e] w1]; [apply Hk | discriminate].
Qed.

Lemma import_result (database method : option string) (backup : bool) (w : world) :
  fst (import_tautulli_db database method backup w) <> Ret (Some true).
Proof.
  unfold import_tautulli_db.
  apply bind_never_true. intros v w1.
  destruct (negb (String.eqb v "success")).
  { apply bind_never_true. intros; discriminate. }
  destruct database as [path|]; [|apply bind_never_true; intros; discriminate].
  destruct method as [m|]; [|apply bind_never_true; intros; discriminate].
  destruct (negb (mem m ["merge"; "overwrite"])).
  { apply bind_never_true. intros; discriminate. }
  apply bind_never_true. intros backed_up w2.
  destruct (negb backed_up).
  { apply bind_never_true. intros; discriminate. }
  do 8 (apply bind_never_true; intros ? ?).
  match goal with |- context [let (_, _) := ?p in _] => destruct p end.
  do 4 (apply bind_never_true; intros ? ?).
  discriminate.
Qed.

(** X19.  [import_tautulli_db] never returns True.  It returns False on
    its three early exits and None when it runs to its end, so a caller
    that tests the result sees a completed import as falsy; all else is an
    exception. *)
Theorem import_never_returns_true (database method : option string)
  (backup : bool) (w : world) :
  (exists e, fst (import_tautulli_db database method backup w) = Raise e) \/
  fst (import_tautulli_db database method backup w) = Ret (Some false) \/
  fst (import_tautulli_db database method backup w) = Ret None.
Proof.
  pose proof (import_result database method backup w) as H.
  destruct (fst (import_tautulli_db database method backup w)) as [[[|]|]|e].
  - now elim H.
  - right. now left.
  - right. now right.
  - left. now exists e.
Qed.

(** X20.  With backup requested, the import is the backup followed by
    the import without backup: the backup (a manual one, never swept) is
    made after the entry checks and before the import opens its
    connection.  When the backup does not succeed the import stops there,
    with the database file as it was. *)
Theorem import_backs_up_first (path method : string) (w : world) :
  connect_fault (env w) path = None ->
  mem method ["merge"; "overwrite"] = true ->
  match make_backup false false
          (snd (log LInfo "Creating a database backup before importing." w)) with
  | (Ret true, wb) =>
      import_tautulli_db (Some path) (Some method) true w
      = import_tautulli_db (Some path) (Some method) false wb /\
      disk wb = disk w
  | (Ret false, wb) =>
      fst (import_tautulli_db (Some path) (Some method) true w) = Ret (Some false) /\
      disk (snd (import_tautulli_db (Some path) (Some method) true w)) = disk w
  | (Raise e, wb) =>
      import_tautulli_db (Some path) (Some method) true w = (Raise e, wb) /\
      disk wb = disk w
  end.
Proof.
  intros Hc Hm.
  set (w0 := snd (log LInfo "Creating a database backup before importing." w)).
  destruct (make_backup false false w0) as [[[|]|e] wb] eqn:Hb;
    destruct (leaves_make_backup false false w0 _ _ Hb) as [_ [Hd He]];
    change (disk w0) with (disk w) in Hd; change (env w0) with (env w) in He.
  - split; [|exact Hd].
    unfold import_tautulli_db.
    assert (Hval : forall x, env x = env w ->
                     validate_database (Some path) x = (Ret "success", x)).
    { intros x Hx. unfold validate_database, try_except, bind, open_database.
      now rewrite Hx, Hc. }
    rewrite (bind_ret_eq _ _ _ _ _ _ _ (Hval w eq_refl)).
    rewrite (bind_ret_eq _ _ _ _ _ _ _ (Hval wb He)).
    change (negb (String.eqb "success" "success")) with false. cbv iota.
    rewrite Hm. cbn [negb].
    rewrite (bind_ret_eq _ _ _ _ _ _ _
               (Hb : (log LInfo "Creating a database backup before importing." ;;
                      make_backup false false) w = (Ret true, wb))).
    rewrite (bind_ret_eq _ _ _ _ _ _ _ (eq_refl : ret true wb = (Ret true, wb))).
    reflexivity.
  - unfold import_tautulli_db.
    assert (Hval : validate_database (Some path) w = (Ret "success", w)).
    { unfold validate_database, try_except, bind, open_database. now rewrite Hc. }
    rewrite (bind_ret_eq _ _ _ _ _ _ _ Hval).
    change (negb (String.eqb "success" "success")) with false. cbv iota.
    rewrite Hm. cbn [negb].
    rewrite (bind_ret_eq _ _ _ _ _ _ _
               (Hb : (log LInfo "Creating a database backup before importing." ;;
                      make_backup false false) w = (Ret false, wb))).
    cbn. split; [reflexivity | exact Hd].
  - split; [|exact Hd].
    unfold import_tautulli_db.
    assert (Hval : validate_database (Some path) w = (Ret "success", w)).
    { unfold validate_database, try_except, bind, open_database. now rewrite Hc. }
    rewrite (bind_ret_eq _ _ _ _ _ _ _ Hval).
    change (negb (String.eqb "success" "success")) with false. cbv iota.
    rewrite Hm. cbn [negb].
    unfold bind at 1.
    now rewrite (Hb : (log LInfo "Creating a database backup before importing." ;;
                       make_backup false false) w = (Raise e, wb)).
Qed.

Lemma import_backs_up_first_witness :
  import_tautulli_db (Some "import.db") (Some "overwrite") true overwrite_world
  = import_tautulli_db (Some "import.db") (Some "overwrite") false
      (snd (make_backup false false
              (snd (log LInfo "Creating a database backup before importing."
                        overwrite_world)))) /\
  copies (trace (snd (make_backup false false
                        (snd (log LInfo "Creating a database backup before importing."
                                  overwrite_world)))))
  = ["tautulli.backup-20200102030405.db"].
Proof.
  pose proof (import_backs_up_first "import.db" "overwrite" overwrite_world
                eq_refl eq_refl) as H.
  assert (E : make_backup false false
                (snd (log LInfo "Creating a database backup before importing."
                          overwrite_world))
              = (Ret true,
                 snd (make_backup false false
                        (snd (log LInfo "Creating a database backup before importing."
                                  overwrite_world)))))
    by (vm_compute; reflexivity).
  rewrite E in H. destruct H as [H _]. split; [exact H|]. vm_compute. reflexivity.
Defined.

(** ** Merge into a database that never held history *)

Lemma existsb_none (A : Type) (p : A -> bool) (l : list A) :
  (forall x, In x l -> p x = false) -> existsb p l = false.
Proof.
  induction l as [|y l IH]; intros H; [reflexivity|].
  cbn. rewrite (H y (or_introl eq_refl)). apply IH. intros x Hx. apply H. now right.
Qed.

Lemma rid_le_max (t : table) (o : row) :
  In o (t_rows t) -> (rid t o <= max_rid t)%Z.
Proof.
  unfold max_rid. induction (t_rows t) as [|r rows IH]; [intros []|].
  cbn. intros [->|H]; [lia|]. specialize (IH H). lia.
Qed.

Lemma max_rid_nonneg (t : table) : (0 <= max_rid t)%Z.
Proof.
  unfold max_rid. induction (t_rows t) as [|r rows IH]; cbn; lia.
Qed.

(** INSERT INTO temp (old_id) VALUES (v): the row gets the next id. *)
Lemma insert_old_id (tmp : table) (seq : Z) (v : value) :
  t_cols tmp = ["id"; "old_id"; "new_id"] ->
  t_pk tmp = "id" ->
  t_autoinc tmp = false ->
  t_unique tmp = [] ->
  exists r,
    insert_row tmp seq [("old_id", v)] = Done (with_rows tmp (t_rows tmp ++ [r]), seq).
Proof.
  intros Hcols Hpk Hauto Huniq.
  unfold insert_row, missing_column. rewrite Hcols, Hpk, Hauto.
  cbn [map fst find mem existsb String.eqb Ascii.eqb Bool.eqb negb orb
       get lookup set].
  unfold next_rowid. rewrite Hauto.
  set (n := (Z.max 0 (max_rid tmp) + 1)%Z).
  assert (Hfree : conflicts tmp (t_rows tmp)
                    [("id", VInt n); ("old_id", v); ("new_id", VNull)] = false).
  { unfold conflicts. rewrite Hpk, Huniq. apply existsb_none. intros o Ho.
    cbn [existsb forallb get lookup String.eqb Ascii.eqb Bool.eqb].
    rewrite andb_true_r, orb_false_r.
    pose proof (rid_le_max tmp o Ho) as Hle. unfold rid in Hle. rewrite Hpk in Hle.
    unfold get in *. destruct (lookup "id" o) as [[|k|s]|]; try reflexivity.
    cbn. destruct (Z.eqb_spec n k); [|reflexivity]. unfold n in *. lia. }
  rewrite Hfree. eexists. reflexivity.
Qed.

Lemma insert_old_ids (vs : list value) :
  forall (tmp : table) (seq : Z) (n : nat),
    t_cols tmp = ["id"; "old_id"; "new_id"] ->
    t_pk tmp = "id" ->
    t_autoinc tmp = false ->
    t_unique tmp = [] ->
    exists rows,
      insert_rows false tmp seq n (map (fun v => [("old_id", v)]) vs)
      = inr (with_rows tmp (t_rows tmp ++ rows), seq, n + List.length vs) /\
      List.length rows = List.length vs.
Proof.
  induction vs as [|v vs IH]; intros tmp seq n Hcols Hpk Hauto Huniq.
  - exists []. cbn. rewrite app_nil_r, Nat.add_0_r. split; [|reflexivity].
    now destruct tmp.
  - destruct (insert_old_id tmp seq v Hcols Hpk Hauto Huniq) as [r Hr].
    cbn [map insert_rows]. rewrite Hr.
    destruct (IH (with_rows tmp (t_rows tmp ++ [r])) seq (S n) Hcols Hpk Hauto Huniq)
      as [rows [Hrun Hlen]].
    exists (r :: rows). rewrite Hrun. cbn [t_rows with_rows List.length].
    rewrite <- app_assoc. cbn [app]. split; [|now rewrite Hlen].
    f_equal. f_equal. lia.
Qed.

(** X21.  Merging into a database whose sqlite_sequence has no row for
    session_history (no history row was ever stored) cannot complete: the
    SELECT of the counter gives no row, [select_single] returns an empty
    dict, and [session_history_seq['seq']] raises KeyError.  At that point
    the temporary table is already committed, with one row for each
    history row of the source; it is left behind, no table was imported,
    and the source stays attached. *)
Theorem merge_import_without_counter (path : string) (src : database)
  (st : table) (w : world) :
  quiet w ->
  connect_fault (env w) path = None ->
  lookup path (db_files (env w)) = Some src ->
  find_table "session_history" src = Some st ->
  mem "id" (t_cols st) = true ->
  lookup "session_history" (sequence (disk w)) = None ->
  find_table "temp" (disk w) = None ->
  exists w' tmp,
    import_tautulli_db (Some path) (Some "merge") false w
    = (Raise (KeyError "seq"), w') /\
    find_table "temp" (disk w') = Some tmp /\
    List.length (t_rows tmp) = List.length (t_rows st) /\
    (forall t, t <> "temp" -> find_table t (disk w') = find_table t (disk w)) /\
    attached (conn w') = Some src.
Proof.
  intros Hq Hconn Hfile Hst Hid Hseq Htemp.
  unfold import_tautulli_db.
  assert (Hval : validate_database (Some path) w = (Ret "success", w)).
  { unfold validate_database, try_except, bind, open_database. now rewrite Hconn. }
  rewrite (bind_ret_eq _ _ _ _ _ _ _ Hval).
  change (negb (String.eqb "success" "success")) with false. cbv iota.
  change (negb (mem "merge" ["merge"; "overwrite"])) with false. cbv iota.
  rewrite (bind_ret_eq _ _ _ _ _ _ _ (eq_refl : ret true w = (Ret true, w))).
  cbn [negb].
  erewrite bind_ret_eq by reflexivity.
  set (w0 := snd (log LInfo "Importing Tautulli database" w)).
  rewrite (bind_ret_eq _ _ _ _ _ _ _ (MonitorDatabase_quiet w0 Hq)).
  rewrite (bind_ret_eq _ _ _ _ _ _ _
             (conn_execute_quiet SBeginImmediate (opened w0) _ _ Hq eq_refl)).
  set (w1 := set_conn _ (sent SBeginImmediate (opened w0))).
  assert (E2 : engine (env w1) (SAttach path) (conn w1)
               = inr ([], mkConn (disk w) true (Some src) 0)).
  { accepted. cbn [attached conn w1 set_conn]. cbn. now rewrite Hfile. }
  rewrite (bind_ret_eq _ _ _ _ _ _ _ (conn_execute_quiet (SAttach path) w1 _ _ Hq E2)).
  set (w2 := set_conn _ (sent (SAttach path) w1)).
  assert (E3 : engine (env w2) (SSelectSeq "session_history") (conn w2)
               = inr ([], conn w2)).
  { accepted. cbn [work conn w2 set_conn]. now rewrite Hseq. }
  rewrite (bind_ret_eq _ _ _ _ _ _ _
             (select_single_quiet (SSelectSeq "session_history") w2 _ _ Hq E3)).
  set (w3 := commit (set_conn _ (sent (SSelectSeq "session_history") w2))).
  change (String.eqb "merge" "merge") with true. cbv iota.
  unfold bind at 1.
  erewrite bind_ret_eq by reflexivity.
  set (w4 := snd (log LInfo
                 "Creating temporary database table to re-index grouped session history."
                 w3)).
  assert (E5 : engine (env w4) SCreateTemp (conn w4)
               = inr ([], ddl (conn w4) (put_table "temp" temp_table (disk w)))).
  { accepted. change (work (conn w4)) with (disk w). now rewrite Htemp. }
  rewrite (bind_ret_eq _ _ _ _ _ _ _ (action_quiet SCreateTemp w4 _ _ Hq E5)).
  set (w5 := commit (set_conn _ (sent SCreateTemp w4))).
  destruct (insert_old_ids (map (get "id") (t_rows st)) temp_table
              (seq_of "temp" (put_table "temp" temp_table (disk w))) 0
              eq_refl eq_refl eq_refl eq_refl) as [rows [Hins Hlen]].
  rewrite map_map in Hins. rewrite length_map in Hins, Hlen. cbn [Nat.add] in Hins.
  assert (E6 : engine (env w5) SInsertTempOldIds (conn w5)
               = inr ([], dml (conn w5)
                            (put_table "temp" (with_rows temp_table rows)
                                       (put_table "temp" temp_table (disk w)))
                            (List.length (t_rows st)))).
  { accepted. change (attached (conn w5)) with (Some src).
    change (work (conn w5)) with (put_table "temp" temp_table (disk w)).
    cbv iota. rewrite Hst, find_table_put_same, Hid. cbn [negb].
    match goal with |- match ?x with _ => _ end = _ =>
      replace x with (@inr exn _ (with_rows temp_table (t_rows temp_table ++ rows),
                                  seq_of "temp" (put_table "temp" temp_table (disk w)),
                                  List.length (t_rows st)))
        by (symmetry; exact Hins) end.
    reflexivity. }
  rewrite (bind_ret_eq _ _ _ _ _ _ _ (action_quiet SInsertTempOldIds w5 _ _ Hq E6)).
  set (w6 := commit (set_conn _ (sent SInsertTempOldIds w5))).
  exists w6, (with_rows temp_table rows).
  split; [reflexivity|].
  split; [apply find_table_put_same|].
  split; [exact Hlen|].
  split; [|reflexivity].
  intros t Ht. cbn [disk w6 commit set_conn conn work dml].
  now rewrite !find_table_put_other.
Qed.

Lemma merge_import_without_counter_witness :
  exists w' tmp,
    import_tautulli_db (Some "import.db") (Some "merge") false fresh_world
    = (Raise (KeyError "seq"), w') /\
    find_table "temp" (disk w') = Some tmp /\
    List.length (t_rows tmp) = 2 /\
    rows_of "session_history" (disk w') = [].
Proof.
  destruct (merge_import_without_counter "import.db" source
              (history [history_row 1 1 400; history_row 2 1 500]) fresh_world)
    as [w' [tmp [Hrun [Ht [Hlen [Hother _]]]]]].
  - intros n. reflexivity.
  - reflexivity.
  - reflexivity.
  - reflexivity.
  - reflexivity.
  - reflexivity.
  - reflexivity.
  - exists w', tmp. split; [exact Hrun|]. split; [exact Ht|]. split; [exact Hlen|].
    unfold rows_of. rewrite (Hother "session_history"); [reflexivity | discriminate].
Defined.

(** ** Overwrite: what is left alone *)

Lemma lookup_none_not_in (A : Type) (k : string) (l : list (string * A)) :
  lookup k l = None -> ~ In k (map fst l).
Proof.
  intros H Hin. apply in_map_iff in Hin. destruct Hin as [[k' v] [Hk Hin]].
  cbn in Hk. subst k'. destruct (In_lookup _ _ _ _ Hin) as [v' Hv]. congruence.
Qed.

(** The loop of the import, in overwrite mode, touches only the tables it
    is given, and never 'sessions'. *)
Lemma import_tables_overwrite_others (src : database) (names : list string) :
  forall w shc tc,
    ready src w ->
    (forall n, In n names ->
               like_sqlite_ n = false /\ exists st, find_table n src = Some st) ->
    same_schema (work (conn w)) src ->
    exists w' res,
      import_tables "overwrite" (map (fun n => [("name", VText n)]) names) shc tc w
      = (Ret res, w') /\
      ready src w' /\
      forall m, ~ In m names \/ m = "sessions" ->
                find_table m (work (conn w')) = find_table m (work (conn w)).
Proof.
  induction names as [|n names IH]; intros w shc tc Hready Hnames Hschema.
  - exists w, (shc, tc). split; [reflexivity|]. split; [exact Hready|]. reflexivity.
  - destruct (String.eqb_spec n "sessions") as [->|Hn].
    + destruct (IH w shc tc Hready) as [w' [res [Hrun [Hr Hres]]]].
      { intros m Hm. apply Hnames. now right. }
      { exact Hschema. }
      exists w', res. cbn [map import_tables].
      rewrite (bind_ret_eq _ _ _ _ _ _ _
                 (eq_refl : getitem "name" [("name", VText "sessions")] w
                            = (Ret (VText "sessions"), w))).
      cbn [text_of]. change (String.eqb "sessions" "sessions") with true. cbv iota.
      split; [exact Hrun|]. split; [exact Hr|].
      intros m [Hm|Hm]; apply Hres; [left | now right].
      intros Hin. apply Hm. now right.
    + destruct (Hnames n (or_introl eq_refl)) as [Hlike [st Hst]].
      destruct (Hschema n st Hst Hlike Hn) as [dt [Hdt Hfits]].
      destruct (import_one_table src w n (map (fun n => [("name", VText n)]) names)
                  shc tc dt st Hready Hst Hdt Hfits Hn)
        as [w2 [Hstep [Hready2 [Htables _]]]].
      assert (Hfind : forall m,
                 find_table m (work (conn w2))
                 = if String.eqb m n then Some (with_rows dt (imported st))
                   else find_table m (work (conn w))).
      { intros m. unfold find_table. rewrite Htables.
        destruct (String.eqb_spec m n) as [->|Hm].
        - apply lookup_assoc_set_eq.
        - now apply lookup_assoc_set_neq. }
      destruct (IH w2 shc (assoc_set n (import_columns_of st) tc) Hready2)
        as [w' [res [Hrun [Hr Hres]]]].
      { intros m Hm. apply Hnames. now right. }
      { intros m st' Hst' Hl Hm. rewrite Hfind.
        destruct (String.eqb_spec m n) as [->|Hmn].
        - exists (with_rows dt (imported st)). split; [reflexivity|].
          assert (st' = st) by congruence. subst st'.
          now apply fits_with_rows.
        - now apply Hschema. }
      exists w', res. cbn [map]. rewrite Hstep.
      split; [exact Hrun|]. split; [exact Hr|].
      intros m Hm.
      assert (Hmn : m <> n).
      { destruct Hm as [Hm| ->]; [|congruence]. intros ->. apply Hm. now left. }
      rewrite Hres.
      * rewrite Hfind. now destruct (String.eqb_spec m n).
      * destruct Hm as [Hm|Hm]; [left | now right]. intros Hin. apply Hm. now right.
Qed.

(** X22.  An overwrite import replaces the tables it copies and nothing
    else: a table of the destination that the source does not have, and
    the table 'sessions' even when the source has one, hold after the
    import what they held before. *)
Theorem overwrite_import_leaves_other_tables (path : string) (src : database)
  (w : world) :
  quiet w ->
  connect_fault (env w) path = None ->
  lookup path (db_files (env w)) = Some src ->
  same_schema (disk w) src ->
  exists w',
    import_tautulli_db (Some path) (Some "overwrite") false w = (Ret None, w') /\
    forall m, find_table m src = None \/ m = "sessions" ->
              find_table m (disk w') = find_table m (disk w).
Proof.
  intros Hq Hconn Hfile Hschema.
  unfold import_tautulli_db.
  assert (Hval : validate_database (Some path) w = (Ret "success", w)).
  { unfold validate_database, try_except, bind, open_database. now rewrite Hconn. }
  rewrite (bind_ret_eq _ _ _ _ _ _ _ Hval).
  change (negb (String.eqb "success" "success")) with false. cbv iota.
  change (negb (mem "overwrite" ["merge"; "overwrite"])) with false. cbv iota.
  rewrite (bind_ret_eq _ _ _ _ _ _ _ (eq_refl : ret true w = (Ret true, w))).
  cbn [negb].
  erewrite bind_ret_eq by reflexivity.
  set (w0 := snd (log LInfo "Importing Tautulli database" w)).
  rewrite (bind_ret_eq _ _ _ _ _ _ _ (MonitorDatabase_quiet w0 Hq)).
  rewrite (bind_ret_eq _ _ _ _ _ _ _
             (conn_execute_quiet SBeginImmediate (opened w0) _ _ Hq eq_refl)).
  set (w1 := set_conn _ (sent SBeginImmediate (opened w0))).
  assert (E2 : engine (env w1) (SAttach path) (conn w1)
               = inr ([], mkConn (disk w) true (Some src) 0)).
  { accepted. cbn [attached conn w1 set_conn]. cbn. now rewrite Hfile. }
  rewrite (bind_ret_eq _ _ _ _ _ _ _ (conn_execute_quiet (SAttach path) w1 _ _ Hq E2)).
  set (w2 := set_conn _ (sent (SAttach path) w1)).
  rewrite (bind_ret_eq _ _ _ _ _ _ _
             (select_single_quiet (SSelectSeq "session_history") w2 _ _ Hq eq_refl)).
  set (w3 := commit (set_conn _ (sent (SSelectSeq "session_history") w2))).
  change (String.eqb "overwrite" "merge") with false. cbv iota.
  rewrite (bind_ret_eq _ _ _ _ _ _ _ (eq_refl : ret tt w3 = (Ret tt, w3))).
  assert (E4 : engine (env w3) SSelectTables (conn w3)
               = inr (map (fun n => [("name", VText n)])
                          (map fst (filter (fun nt => negb (like_sqlite_ (fst nt)))
                                           (tables src))),
                      conn w3)).
  { accepted. cbn [attached conn w3 commit]. cbn. now rewrite map_map. }
  rewrite (bind_ret_eq _ _ _ _ _ _ _ (select_quiet SSelectTables w3 _ _ Hq E4)).
  set (w4 := commit (set_conn _ (sent SSelectTables w3))).
  destruct (import_tables_overwrite_others src
              (map fst (filter (fun nt => negb (like_sqlite_ (fst nt))) (tables src)))
              w4 [] [])
    as [w5 [[shc tc] [Hrun [[Hq5 [Hatt Htxn]] Hres]]]].
  { split; [exact Hq|]. split; reflexivity. }
  { intros n Hn. apply in_map_iff in Hn. destruct Hn as [[n' t] [<- Hin]].
    apply filter_In in Hin. destruct Hin as [Hin Hl]. cbn [fst] in *.
    apply negb_true_iff in Hl. split; [exact Hl|].
    exact (In_lookup _ _ _ _ Hin). }
  { exact Hschema. }
  rewrite (bind_ret_eq _ _ _ _ _ _ _ Hrun).
  assert (E6 : engine (env w5) SDetach (conn w5)
               = inr ([], mkConn (work (conn w5)) false None (total_changes (conn w5)))).
  { accepted. now rewrite Hatt, Htxn. }
  rewrite (bind_ret_eq _ _ _ _ _ _ _ (conn_execute_quiet SDetach w5 _ _ Hq5 E6)).
  set (w6 := set_conn _ (sent SDetach w5)).
  rewrite (bind_ret_eq _ _ _ _ _ _ _ (eq_refl : ret tt w6 = (Ret tt, w6))).
  rewrite (bind_ret_eq _ _ _ _ _ _ _ (action_quiet SVacuum w6 _ _ Hq5 eq_refl)).
  set (w7 := commit (set_conn _ (sent SVacuum w6))).
  erewrite bind_ret_eq by reflexivity.
  eexists. split; [reflexivity|].
  intros m Hm.
  cbn [disk snd log emit w7 commit conn set_conn w6 work].
  rewrite Hres; [reflexivity|].
  destruct Hm as [Hm|Hm]; [left | now right].
  intros Hin. apply in_map_iff in Hin. destruct Hin as [[m' t] [Hk Hin]].
  cbn in Hk. subst m'. apply filter_In in Hin. destruct Hin as [Hin _].
  destruct (In_lookup _ _ _ _ Hin) as [v Hv]. unfold find_table in Hm. congruence.
Qed.

Lemma overwrite_import_leaves_other_tables_witness :
  exists w',
    import_tautulli_db (Some "import.db") (Some "overwrite") false
      partial_overwrite_world = (Ret None, w') /\
    rows_of "users" (disk w') = rows_of "users" (disk partial_overwrite_world) /\
    rows_of "sessions" (disk w') = [metadata_row 1 "ours"].
Proof.
  destruct (overwrite_import_leaves_other_tables "import.db"
              (mkDb [("session_history_metadata", metadata three_rows);
                     ("sessions", metadata [metadata_row 1 "theirs"])] [])
              partial_overwrite_world) as [w' [Hrun Hres]].
  - intros n. reflexivity.
  - reflexivity.
  - reflexivity.
  - intros n st Hst Hlike Hn. unfold find_table in Hst. cbn [lookup tables] in Hst.
    destruct (String.eqb "session_history_metadata" n) eqn:E.
    + apply String.eqb_eq in E. subst n. inversion Hst; subst st.
      exists (metadata ten_rows). split; [reflexivity|].
      unfold fits. do 4 (split; [reflexivity|]).
      split; [intros H; vm_compute in H; discriminate H | reflexivity].
    + destruct (String.eqb "sessions" n) eqn:E2; [|discriminate].
      apply String.eqb_eq in E2. congruence.
  - exists w'. split; [exact Hrun|]. unfold rows_of.
    rewrite (Hres "users"), (Hres "sessions"); [| now right | now left].
    split; reflexivity.
Defined.

(** ** The row factory *)

Lemma assoc_set_new (A : Type) (k : string) (v : A) (l : list (string * A)) :
  ~ In k (map fst l) -> assoc_set k v l = l ++ [(k, v)].
Proof.
  induction l as [|[k' v'] l IH]; intros H; [reflexivity|].
  cbn. destruct (String.eqb_spec k' k) as [->|_].
  - elim H. now left.
  - rewrite IH; [reflexivity|]. intros Hin. apply H. now right.
Qed.

Lemma skipn_nth_error (A : Type) (l : list A) (n : nat) (x : A) :
  nth_error l n = Some x -> skipn n l = x :: skipn (S n) l.
Proof.
  revert n. induction l as [|y l IH]; intros [|n] H; try discriminate.
  - now inversion H.
  - cbn in H. cbn [skipn]. now apply IH.
Qed.

Lemma dict_factory_loop_distinct (description : list string) :
  forall idx r d,
    NoDup description ->
    (forall c, In c description -> ~ In c (map fst d)) ->
    idx + List.length description <= List.length r ->
    dict_factory_loop description idx r d
    = Some (d ++ combine description (skipn idx r)).
Proof.
  induction description as [|col rest IH]; intros idx r d Hnd Hfresh Hlen.
  - cbn. now rewrite app_nil_r.
  - cbn [dict_factory_loop]. cbn [List.length] in Hlen.
    destruct (nth_error r idx) as [v|] eqn:Hv.
    2:{ apply nth_error_None in Hv. lia. }
    inversion Hnd as [|x l Hnotin Hnd']; subst.
    rewrite IH.
    + rewrite (assoc_set_new _ col v d) by (apply Hfresh; now left).
      rewrite (skipn_nth_error _ r idx v Hv). cbn [combine].
      now rewrite <- app_assoc.
    + exact Hnd'.
    + intros c Hc Hin.
      rewrite (assoc_set_new _ col v d) in Hin by (apply Hfresh; now left).
      rewrite map_app in Hin. apply in_app_or in Hin. destruct Hin as [Hin|[Hin|[]]].
      * exact (Hfresh c (or_intror Hc) Hin).
      * cbn in Hin. subst c. contradiction.
    + lia.
Qed.

Lemma dict_factory_loop_short (description : list string) :
  forall idx r d,
    List.length r < idx + List.length description ->
    description <> [] ->
    dict_factory_loop description idx r d = None.
Proof.
  induction description as [|col rest IH]; intros idx r d Hlen Hne; [congruence|].
  cbn [dict_factory_loop]. cbn [List.length] in Hlen.
  destruct (nth_error r idx) as [v|] eqn:Hv; [|reflexivity].
  assert (Hi : idx < List.length r) by (apply nth_error_Some; congruence).
  apply IH; [lia|]. intros ->. cbn in Hlen. lia.
Qed.

(** X23.  With distinct column names [dict_factory] builds the dict that
    pairs the columns with the values of the row, in the order of the
    columns (values beyond the last column are ignored); a row with fewer
    values than columns makes it fail. *)
Theorem dict_factory_distinct_columns (description : list string)
  (r : list value) :
  NoDup description ->
  (List.length description <= List.length r ->
   dict_factory description r = Some (combine description r)) /\
  (List.length r < List.length description ->
   dict_factory description r = None).
Proof.
  intros Hnd. unfold dict_factory. split; intros Hlen.
  - rewrite dict_factory_loop_distinct; [reflexivity | exact Hnd | | exact Hlen].
    intros c _ [].
  - apply dict_factory_loop_short; [exact Hlen|]. intros ->. cbn in Hlen. lia.
Qed.

Lemma dict_factory_distinct_columns_witness :
  dict_factory ["id"; "title"] [VInt 4; VText "x"; VNull]
  = Some [("id", VInt 4); ("title", VText "x")] /\
  dict_factory ["id"; "title"] [VInt 4] = None.
Proof.
  assert (Hnd : NoDup ["id"; "title"]).
  { constructor; [intros [H|[]]; discriminate H|].
    constructor; [intros []|constructor]. }
  split.
  - apply (dict_factory_distinct_columns ["id"; "title"]
             [VInt 4; VText "x"; VNull] Hnd). cbn. lia.
  - apply (dict_factory_distinct_columns ["id"; "title"] [VInt 4] Hnd). cbn. lia.
Defined.

Lemma dict_factory_loop_lookup (description : list string) :
  forall idx r d d',
    dict_factory_loop description idx r d = Some d' ->
    forall col,
      lookup col d'
      = match last_index col description with
        | Some i => nth_error r (idx + i)
        | None => lookup col d
        end.
Proof.
  induction description as [|c rest IH]; intros idx r d d' H col.
  - cbn in *. now inversion H.
  - cbn [dict_factory_loop] in H.
    destruct (nth_error r idx) as [v|] eqn:Hv; [|discriminate].
    rewrite (IH _ _ _ _ H col). cbn [last_index].
    destruct (last_index col rest) as [i|].
    + f_equal. lia.
    + destruct (String.eqb_spec c col) as [->|Hc].
      * now rewrite lookup_assoc_set_eq, Nat.add_0_r.
      * apply lookup_assoc_set_neq. congruence.
Qed.

(** X24.  Whatever the column names, the dict built by [dict_factory]
    maps a name to the value at the position of the name's last
    occurrence among the columns: when a SELECT yields two columns of the
    same name, the value of the later one is the one kept. *)
Theorem dict_factory_keeps_last (description : list string) (r : list value)
  (d : row) :
  dict_factory description r = Some d ->
  forall col,
    lookup col d
    = match last_index col description with
      | Some i => nth_error r i
      | None => None
      end.
Proof.
  intros H col. unfold dict_factory in H.
  rewrite (dict_factory_loop_lookup _ _ _ _ _ H col).
  now destruct (last_index col description).
Qed.

Lemma dict_factory_keeps_last_witness :
  lookup "id" [("id", VInt 2); ("title", VText "a")] = Some (VInt 2) /\
  dict_factory ["id"; "title"; "id"] [VInt 1; VText "a"; VInt 2]
  = Some [("id", VInt 2); ("title", VText "a")].
Proof.
  split; [|reflexivity].
  rewrite (dict_factory_keeps_last ["id"; "title"; "id"]
             [VInt 1; VText "a"; VInt 2] [("id", VInt 2); ("title", VText "a")]
             eq_refl "id").
  reflexivity.
Defined.

(** ** Numeric identifiers *)

(** X25.  An integer identifier passes the test [str(id).isdigit()]
    exactly when it is not negative: the sign of a negative number is not
    a digit.  With a negative id both history deletions return None and
    send nothing. *)
Theorem integer_id_numeric_iff_nonnegative (cast_ids : string -> list value)
  (z : Z) (w : world) :
  isdigit (py_str (PyInt z)) = (0 <=? z)%Z /\
  ((z < 0)%Z ->
   delete_user_history cast_ids (PyInt z) w = (Ret None, w) /\
   delete_library_history cast_ids (PyInt z) w = (Ret None, w)).
Proof.
  assert (H : isdigit (py_str (PyInt z)) = (0 <=? z)%Z).
  { unfold py_str. destruct z as [|p|p]; cbn [Z.to_int NilZero.string_of_int].
    - reflexivity.
    - apply isdigit_uint.
    - reflexivity. }
  split; [exact H|]. intros Hz.
  unfold delete_user_history, delete_library_history. rewrite H.
  destruct (Z.leb_spec 0 z); [lia|]. split; reflexivity.
Qed.

Lemma integer_id_numeric_iff_nonnegative_witness :
  isdigit (py_str (PyInt (-5))) = false /\
  delete_user_history (fun _ => []) (PyInt (-5)) history_world
  = (Ret None, history_world) /\
  delete_library_history (fun _ => []) (PyInt (-5)) history_world
  = (Ret None, history_world).
Proof.
  destruct (integer_id_numeric_iff_nonnegative (fun _ => []) (-5) history_world)
    as [H1 H2].
  split; [exact H1|]. apply H2. lia.
Defined.

(** ** upsert and validate_database *)

(** X26.  An exception of the UPDATE leaves [upsert] as it is: the
    INSERT is not attempted, and the database file is unchanged. *)
Theorem upsert_update_error_propagates (t : string) (vd kd : row) (w w1 : world)
  (e : exn) :
  action (Some (SUpdate t vd kd)) w = (Raise e, w1) ->
  upsert t vd kd w = (Raise e, w1) /\
  disk w1 = disk w /\
  exists evs,
    trace w1 = trace w ++ evs /\
    ~ In (EvExecute (SInsert t (vd ++ kd))) evs.
Proof.
  intros H. split; [|split].
  - unfold upsert, bind. now rewrite H.
  - apply (retry_keeps_disk 5 (SUpdate t vd kd) w (Raise e) w1 H). discriminate.
  - destruct (retry_trace 5 (SUpdate t vd kd) w) as [evs [Ht [Hall _]]].
    change (retry 5 (SUpdate t vd kd) w) with (action (Some (SUpdate t vd kd)) w) in Ht.
    rewrite H in Ht. exists evs. split; [exact Ht|].
    intros Hin. specialize (Hall _ Hin). discriminate.
Qed.

Lemma upsert_update_error_propagates_witness :
  exists w1,
    upsert "nope" [("username", VText "bob")] [("user_id", VInt 10)] users_world
    = (Raise (OperationalError "no such table: nope"), w1) /\
    disk w1 = disk users_world.
Proof.
  destruct (upsert_update_error_propagates "nope" [("username", VText "bob")]
              [("user_id", VInt 10)] users_world
              (snd (action (Some (SUpdate "nope" [("username", VText "bob")]
                                          [("user_id", VInt 10)])) users_world))
              (OperationalError "no such table: nope")) as [H1 [H2 _]].
  - vm_compute. reflexivity.
  - eexists. split; [exact H1 | exact H2].
Defined.

(** X27.  [validate_database] catches every exception of
    sqlite3.connect: it always returns, with 'success' exactly when the
    file could be opened and one of its two error texts otherwise, and it
    touches neither the database file nor the connection in use. *)
Theorem validate_database_never_raises (database : option string) (w : world) :
  exists v w',
    validate_database database w = (Ret v, w') /\
    (v = "success" <-> opens database w = true) /\
    In v ["success"; "Invalid database specified"; "Uncaught exception"] /\
    disk w' = disk w /\
    conn w' = conn w /\
    executions (trace w') = executions (trace w).
Proof.
  unfold validate_database, try_except, bind, open_database, opens.
  destruct database as [path|].
  - destruct (connect_fault (env w) path) as [e|].
    + destruct e; eexists; eexists; (split; [reflexivity|]);
        (split; [split; discriminate|]);
        (split; [cbn; auto|]); (split; [reflexivity|]); (split; [reflexivity|]);
        cbn [trace]; rewrite executions_app; cbn; lia.
    + eexists; eexists; (split; [reflexivity|]).
      split; [split; reflexivity|]. split; [cbn; auto|]. repeat split.
  - eexists; eexists; (split; [reflexivity|]);
      (split; [split; discriminate|]);
      (split; [cbn; auto|]); (split; [reflexivity|]); (split; [reflexivity|]);
      cbn [trace]; rewrite executions_app; cbn; lia.
Qed.

(** ** Deleting twice *)

Lemma purge_twice (t : string) (ids : list value) (d : database) :
  purge t ids (purge t ids d) = purge t ids d.
Proof.
  unfold purge at 2. destruct (find_table t d) as [tb|] eqn:Hf.
  - destruct (mem "id" (t_cols tb)) eqn:Hm.
    + unfold purge. rewrite find_table_put_same, Hf. cbn [t_cols with_rows]. rewrite Hm.
      unfold put_table. cbn [tables sequence]. rewrite assoc_set_twice.
      cbn [t_rows with_rows t_pk t_autoinc t_unique].
      rewrite filter_twice.
      rewrite (filter_ext (fun r => negb (listed ids r) && negb (listed ids r))
                          (fun r => negb (listed ids r)));
        [reflexivity | intros r; apply andb_diag].
    + unfold purge. now rewrite Hf, Hm.
  - unfold purge. now rewrite Hf.
Qed.

Lemma deletable_purge_same (t : string) (ids : list value) (d : database) :
  deletable t (purge t ids d) = deletable t d.
Proof.
  unfold deletable, purge. destruct (find_table t d) as [tb|] eqn:Hf.
  - destruct (mem "id" (t_cols tb)) eqn:Hm.
    + now rewrite find_table_put_same.
    + now rewrite Hf.
  - now rewrite Hf.
Qed.

(** X28.  Deleting the same ids from the same table a second time
    changes nothing: on an undisturbed connection the second call of
    [delete_rows_from_table] returns what the first returned and leaves
    the file as the first left it. *)
Theorem delete_rows_from_table_idempotent (cast_ids : string -> list value)
  (t : string) (ids : list value) (w : world) :
  quiet w ->
  ids <> [] ->
  exists b w1 w2,
    delete_rows_from_table cast_ids t (IdsList ids) w = (Ret b, w1) /\
    delete_rows_from_table cast_ids t (IdsList ids) w1 = (Ret b, w2) /\
    disk w2 = disk w1.
Proof.
  intros Hq Hids.
  destruct (delete_rows_quiet cast_ids t ids w Hq Hids) as [w1 [H1 [He1 Hd1]]].
  destruct (delete_rows_quiet cast_ids t ids w1 (quiet_env _ _ He1 Hq) Hids)
    as [w2 [H2 [_ Hd2]]].
  exists (deletable t (disk w) && binds (env w) ids), w1, w2.
  split; [exact H1|]. rewrite He1 in H2, Hd2. split.
  - rewrite H2, Hd1. destruct (binds (env w) ids); [|reflexivity].
    now rewrite deletable_purge_same.
  - rewrite Hd2, Hd1. destruct (binds (env w) ids); [|reflexivity].
    apply purge_twice.
Qed.

Lemma delete_rows_from_table_idempotent_witness :
  exists b w1 w2,
    delete_rows_from_table (fun _ => []) "session_history" (IdsList [VInt 1; VInt 9])
      history_world = (Ret b, w1) /\
    delete_rows_from_table (fun _ => []) "session_history" (IdsList [VInt 1; VInt 9])
      w1 = (Ret b, w2) /\
    disk w2 = disk w1.
Proof.
  apply (delete_rows_from_table_idempotent (fun _ => []) "session_history"
           [VInt 1; VInt 9] history_world).
  - intros n. reflexivity.
  - discriminate.
Defined.

(** ** upsert writes to one table *)





